(** * Realtime messaging and presence core of the chat server

    A shallow embedding of
      - backend/middleware/socketAuth.js      ([socketAuth]),
      - backend/socketHandlers/messageHandlers.js
        ([handleLoadMessages], [handleMessageSend], [handleTypingIndicator],
         [registerMessageHandlers]),
      - backend/server.js                     (the connection and disconnect
        handlers),
      - backend/models/Message.js and backend/models/User.js (the schemas).

    The server is a single-threaded event loop.  Every [async] function is cut
    at its [await]s: the code before an [await] and the code after it are two
    state transformers, and the suspended function waits in the list
    [pending] until the store answers.  One transition of the event loop is
    [step]; its labels are the things the outside world does (a client
    connects, sends an event, goes away; the store finishes an operation;
    time passes).

    A promise that rejects with nobody to catch it, or an exception thrown
    by a listener, ends the process (Node 15 and later; the server runs on
    Node 20 and installs no handler for either).  [process_exit] is that
    end, and a run of the process, [run], stops at it. *)

From Stdlib Require Import List ZArith NArith String Ascii Bool Lia.
From Stdlib Require Import Sorting.Sorted Sorting.Permutation.
Import ListNotations.

Local Open Scope Z_scope.

(* ------------------------------------------------------------------ *)
(** ** JavaScript strings and values *)

(** A JavaScript string is a sequence of UTF-16 code units; [length] counts
    code units. *)
Definition jsstring := list N.

Definition strlen (s : jsstring) : Z := Z.of_nat (List.length s).

(** The code units removed by [String.prototype.trim]: WhiteSpace and
    LineTerminator of ECMA-262. *)
Definition isWhiteSpace (c : N) : bool :=
  ((c =? 9) || (c =? 10) || (c =? 11) || (c =? 12) || (c =? 13) || (c =? 32)
   || (c =? 160) || (c =? 5760) || ((8192 <=? c) && (c <=? 8202))
   || (c =? 8232) || (c =? 8233) || (c =? 8239) || (c =? 8287)
   || (c =? 12288) || (c =? 65279))%N.

Fixpoint trimStart (s : jsstring) : jsstring :=
  match s with
  | [] => []
  | c :: r => if isWhiteSpace c then trimStart r else s
  end.

Definition trimEnd (s : jsstring) : jsstring := rev (trimStart (rev s)).

Definition trim (s : jsstring) : jsstring := trimEnd (trimStart s).

(** Writing a [jsstring] from an ASCII literal. *)
Definition js (s : string) : jsstring :=
  map (fun a => N_of_ascii a) (list_ascii_of_string s).

(** The values a client can put on the wire. *)
#[local] Set Warnings "-register-all".
Inductive jsval : Type :=
| JUndefined
| JNull
| JBool (b : bool)
| JNumber (n : Z)
| JString (s : jsstring)
| JArray (items : list jsval)
| JObject (props : list (string * jsval)).
#[local] Set Warnings "register-all".

(** [!!v] *)
Definition truthy (v : jsval) : bool :=
  match v with
  | JUndefined | JNull => false
  | JBool b => b
  | JNumber n => negb (n =? 0)
  | JString s => negb (strlen s =? 0)
  | JArray _ | JObject _ => true
  end.

Definition typeof (v : jsval) : string :=
  match v with
  | JUndefined => "undefined"
  | JNull | JArray _ | JObject _ => "object"
  | JBool _ => "boolean"
  | JNumber _ => "number"
  | JString _ => "string"
  end.

Fixpoint assoc (k : string) (props : list (string * jsval)) : option jsval :=
  match props with
  | [] => None
  | (k', v) :: r => if String.eqb k k' then Some v else assoc k r
  end.

(** [v.k], for the keys read by the server ([token], [content], [id]), which
    no primitive and no array defines.  [None] is the TypeError of reading a
    property of [undefined] or [null]. *)
Definition prop (v : jsval) (k : string) : option jsval :=
  match v with
  | JUndefined | JNull => None
  | JObject props =>
      Some (match assoc k props with Some x => x | None => JUndefined end)
  | _ => Some JUndefined
  end.

(* ------------------------------------------------------------------ *)
(** ** Exceptions *)

Inductive exn : Type :=
| TokenExpiredError     (* jsonwebtoken; extends JsonWebTokenError *)
| JsonWebTokenError     (* jsonwebtoken: malformed token, bad signature *)
| TypeError
| CastError             (* mongoose: the id is no ObjectId *)
| ValidationError       (* mongoose: the document breaks its schema *)
| MongoError.           (* the store did not carry out the operation *)

Definition instanceof_TokenExpiredError (e : exn) : bool :=
  match e with TokenExpiredError => true | _ => false end.

Definition instanceof_JsonWebTokenError (e : exn) : bool :=
  match e with
  | TokenExpiredError | JsonWebTokenError => true
  | _ => false
  end.

Inductive Result (A : Type) : Type :=
| Ok (a : A)
| Throw (e : exn).
Arguments Ok {A} a.
Arguments Throw {A} e.

(* ------------------------------------------------------------------ *)
(** ** Documents *)

Definition ObjectId := N.
Definition SocketId := N.
Definition TaskId := N.
Bind Scope N_scope with ObjectId SocketId TaskId.

Inductive Status : Type := online | offline | away.

(** models/User.js.  [u_password] is [None] in a document read with
    [.select('-password')]. *)
Record UserDoc : Type := mkUser {
  u_id : ObjectId;
  u_username : jsstring;
  u_email : jsstring;
  u_password : option jsstring;
  u_status : Status;
  u_lastSeen : Z;
  u_createdAt : Z;
  u_updatedAt : Z
}.

(** What the User schema guarantees of a stored username: [trim: true],
    [minlength: 3], [maxlength: 30]. *)
Definition username_valid (s : jsstring) : Prop :=
  trim s = s /\ 3 <= strlen s <= 30.

(** A Message document before [save()]: the four fields given to the
    constructor and the [_id] the constructor generates. *)
Record NewMessage : Type := mkNewMessage {
  n_id : ObjectId;
  n_userId : ObjectId;
  n_username : jsstring;
  n_content : jsstring;
  n_timestamp : Z
}.

(** A stored Message document ([timestamps: true] adds the last two). *)
Record MessageDoc : Type := mkMessage {
  m_id : ObjectId;
  m_userId : ObjectId;
  m_username : jsstring;
  m_content : jsstring;
  m_timestamp : Z;
  m_createdAt : Z;
  m_updatedAt : Z
}.

(** The six fields of a message sent to clients: the projection
    [.select('_id userId username content timestamp createdAt')] and the
    object literal of [io.emit('message:new', ...)]. *)
Record MessageView : Type := mkView {
  v_id : ObjectId;
  v_userId : ObjectId;
  v_username : jsstring;
  v_content : jsstring;
  v_timestamp : Z;
  v_createdAt : Z
}.

Definition view (m : MessageDoc) : MessageView :=
  mkView (m_id m) (m_userId m) (m_username m) (m_content m)
         (m_timestamp m) (m_createdAt m).

(* ------------------------------------------------------------------ *)
(** ** Events, sockets, suspended functions *)

(** Server to client. *)
Inductive ServerEvent : Type :=
| message_history (messages : list MessageView)
| message_new (m : MessageView)
| message_error (message : string)
| user_typing (userId : ObjectId) (username : jsstring) (isTyping : bool)
| connect_error (message : string).

(** A socket object: [socket.id], [socket.user], whether it is in the
    namespace (and so reached by [io.emit]), and the events it listens to. *)
Record Socket : Type := mkSocket {
  s_id : SocketId;
  s_user : option UserDoc;
  s_connected : bool;
  s_listeners : list string
}.

(** An [async] function suspended at an [await], named by the awaited call.
    What mongoose computes on the server before it writes is part of the
    suspended call: the document stamped by [timestamps: true], the
    [updatedAt] of an update. *)
Inductive Pending : Type :=
| AwaitUserFindById (sid : SocketId) (id : jsval)
    (* socketAuth: await User.findById(decoded.id).select('-password') *)
| AwaitStatusOnline (sid : SocketId) (uid : ObjectId) (updatedAt : Z)
    (* socketAuth: await User.findByIdAndUpdate(user._id, {status:'online'}) *)
| AwaitMessageFind (sid : SocketId)
    (* handleLoadMessages: await Message.find().sort().limit().select().lean() *)
| AwaitMessageSave (sid : SocketId) (message : MessageDoc)
    (* handleMessageSend: await message.save() *)
| AwaitStatusOffline (sid : SocketId) (uid : ObjectId) (lastSeen : Z)
                     (updatedAt : Z).
    (* disconnect: await User.findByIdAndUpdate(socket.user._id,
                                      {status:'offline', lastSeen}) *)

(** What can be observed of a run, in the order it happened. *)
Inductive Obs : Type :=
| Sent (sid : SocketId) (ev : ServerEvent)
    (* the server wrote [ev] to the client of socket [sid] *)
| Handled (sid : SocketId) (ev : string) (data : jsval)
    (* the listener of socket [sid] for [ev] was called *)
| Issued (tid : TaskId) (p : Pending)
    (* a store operation was started *)
| Exit.
    (* the process ended *)

Record State : Type := mkState {
  JWT_SECRET : option string;          (* process.env.JWT_SECRET *)
  now : Z;                             (* the clock read by new Date() *)
  users : list UserDoc;                (* the User collection *)
  messages : list MessageDoc;          (* the Message collection *)
  sockets : list Socket;               (* socket objects, oldest first *)
  pending : list (TaskId * Pending);   (* suspended functions *)
  next_sid : SocketId;
  next_tid : TaskId;
  next_oid : ObjectId;
  trace : list Obs
}.

Definition with_now (t : Z) (st : State) : State :=
  mkState (JWT_SECRET st) t (users st) (messages st) (sockets st)
          (pending st) (next_sid st) (next_tid st) (next_oid st) (trace st).

Definition with_users (us : list UserDoc) (st : State) : State :=
  mkState (JWT_SECRET st) (now st) us (messages st) (sockets st)
          (pending st) (next_sid st) (next_tid st) (next_oid st) (trace st).

Definition with_messages (ms : list MessageDoc) (st : State) : State :=
  mkState (JWT_SECRET st) (now st) (users st) ms (sockets st)
          (pending st) (next_sid st) (next_tid st) (next_oid st) (trace st).

Definition with_sockets (ss : list Socket) (st : State) : State :=
  mkState (JWT_SECRET st) (now st) (users st) (messages st) ss
          (pending st) (next_sid st) (next_tid st) (next_oid st) (trace st).

Definition with_pending (ps : list (TaskId * Pending)) (st : State) : State :=
  mkState (JWT_SECRET st) (now st) (users st) (messages st) (sockets st)
          ps (next_sid st) (next_tid st) (next_oid st) (trace st).

Definition log (os : list Obs) (st : State) : State :=
  mkState (JWT_SECRET st) (now st) (users st) (messages st) (sockets st)
          (pending st) (next_sid st) (next_tid st) (next_oid st)
          (trace st ++ os).

(** *** Sockets *)

Definition find_socket (sid : SocketId) (st : State) : option Socket :=
  find (fun s => (s_id s =? sid)%N) (sockets st).

Definition socket_connected (sid : SocketId) (st : State) : bool :=
  match find_socket sid st with
  | Some s => s_connected s
  | None => false
  end.

Definition update_socket (sid : SocketId) (f : Socket -> Socket) (st : State)
  : State :=
  with_sockets
    (map (fun s => if (s_id s =? sid)%N then f s else s) (sockets st)) st.

(** [socket.user = user] *)
Definition set_socket_user (sid : SocketId) (u : UserDoc) : State -> State :=
  update_socket sid
    (fun s => mkSocket (s_id s) (Some u) (s_connected s) (s_listeners s)).

Definition set_connected (sid : SocketId) (b : bool) : State -> State :=
  update_socket sid
    (fun s => mkSocket (s_id s) (s_user s) b (s_listeners s)).

(** [socket.on(ev, listener)] *)
Definition socket_on (sid : SocketId) (ev : string) : State -> State :=
  update_socket sid
    (fun s => mkSocket (s_id s) (s_user s) (s_connected s)
                       (s_listeners s ++ [ev])).

Definition listening (ev : string) (s : Socket) : bool :=
  existsb (String.eqb ev) (s_listeners s).

(** The sockets of the namespace: the recipients of [io.emit]. *)
Definition recipients (st : State) : list SocketId :=
  map s_id (filter s_connected (sockets st)).

(** [socket.emit(ev)]: written to that client; a packet for a socket that has
    left is dropped. *)
Definition socket_emit (sid : SocketId) (ev : ServerEvent) (st : State)
  : State :=
  if socket_connected sid st then log [Sent sid ev] st else st.

(** [io.emit(ev)] *)
Definition io_emit (ev : ServerEvent) (st : State) : State :=
  log (map (fun r => Sent r ev) (recipients st)) st.

(** [socket.broadcast.emit(ev)] *)
Definition socket_broadcast_emit (sid : SocketId) (ev : ServerEvent)
  (st : State) : State :=
  log (map (fun r => Sent r ev)
           (filter (fun r => negb (r =? sid)%N) (recipients st))) st.

(** *** The end of the process *)

(** An unhandled rejection or an uncaught exception: the process ends.
    Every connection closes with it, no ['disconnect'] listener is run, and
    no suspended function is resumed.  What the store still does with an
    operation it has been sent is not followed: a run ends here. *)
Definition process_exit (st : State) : State :=
  log [Exit]
      (with_pending []
         (with_sockets
            (map (fun s => mkSocket (s_id s) (s_user s) false (s_listeners s))
                 (sockets st))
            st)).

Definition is_exit (o : Obs) : bool :=
  match o with Exit => true | _ => false end.

(** *** Suspension *)

(** [await]: the function is parked under a fresh task id. *)
Definition await (p : Pending) (st : State) : State :=
  let tid := next_tid st in
  mkState (JWT_SECRET st) (now st) (users st) (messages st) (sockets st)
          ((tid, p) :: pending st) (next_sid st) (N.succ tid) (next_oid st)
          (trace st ++ [Issued tid p]).

Fixpoint take_pending (tid : TaskId) (ps : list (TaskId * Pending))
  : option (Pending * list (TaskId * Pending)) :=
  match ps with
  | [] => None
  | (t, p) :: r =>
      if (t =? tid)%N then Some (p, r)
      else match take_pending tid r with
           | Some (q, r') => Some (q, (t, p) :: r')
           | None => None
           end
  end.

(* ------------------------------------------------------------------ *)
(** ** The stores *)

(** *** Message collection *)

(** [new Message({userId, username, content, timestamp})]: the constructor
    generates [_id] and runs the schema's setters ([trim: true] on [username]
    and on [content]). *)
Definition new_Message (userId : ObjectId) (username content : jsstring)
  (timestamp : Z) (st : State) : NewMessage * State :=
  (mkNewMessage (next_oid st) userId (trim username) (trim content) timestamp,
   mkState (JWT_SECRET st) (now st) (users st) (messages st) (sockets st)
           (pending st) (next_sid st) (next_tid st) (N.succ (next_oid st))
           (trace st)).

(** The validators of the Message schema: [username] and [content] are
    required (an empty string does not count), [content] has
    [maxlength: 1000].  [userId], required too, is always there. *)
Definition Message_validate (m : NewMessage) : bool :=
  negb (strlen (n_username m) =? 0)
  && negb (strlen (n_content m) =? 0)
  && (strlen (n_content m) <=? 1000).

(** [message.save()], up to the write: the validators run, then
    [timestamps: true] stamps [createdAt] and [updatedAt]. *)
Definition Message_presave (m : NewMessage) (st : State) : Result MessageDoc :=
  if negb (Message_validate m) then Throw ValidationError
  else Ok (mkMessage (n_id m) (n_userId m) (n_username m) (n_content m)
                     (n_timestamp m) (now st) (now st)).

(** [message.save()], the write.  [ok] tells whether the store carries it
    out. *)
Definition Message_insert (doc : MessageDoc) (ok : bool) (st : State)
  : Result MessageDoc * State :=
  if negb ok then (Throw MongoError, st)
  else (Ok doc, with_messages (messages st ++ [doc]) st).

(** [.sort({ timestamp: 1 })]: ascending by [timestamp]; documents with equal
    timestamps keep their order of insertion. *)
Fixpoint insert_by_timestamp (m : MessageDoc) (l : list MessageDoc)
  : list MessageDoc :=
  match l with
  | [] => [m]
  | x :: r =>
      if m_timestamp m <=? m_timestamp x then m :: l
      else x :: insert_by_timestamp m r
  end.

Definition sort_by_timestamp (l : list MessageDoc) : list MessageDoc :=
  fold_right insert_by_timestamp [] l.

(** [Message.find().sort({timestamp: 1}).limit(50)
      .select('_id userId username content timestamp createdAt').lean()] *)
Definition Message_find_sort_limit_select (ok : bool) (st : State)
  : Result (list MessageView) :=
  if negb ok then Throw MongoError
  else Ok (map view (firstn 50 (sort_by_timestamp (messages st)))).

(** *** User collection *)

Definition get_user (uid : ObjectId) (us : list UserDoc) : option UserDoc :=
  find (fun u => (u_id u =? uid)%N) us.

Definition without_password (u : UserDoc) : UserDoc :=
  mkUser (u_id u) (u_username u) (u_email u) None (u_status u)
         (u_lastSeen u) (u_createdAt u) (u_updatedAt u).

(** The update document of [findByIdAndUpdate]: [status] always, [lastSeen]
    when given.  [timestamps: true] makes the update set [updatedAt]. *)
Definition apply_update (status : Status) (lastSeen : option Z) (t : Z)
  (u : UserDoc) : UserDoc :=
  mkUser (u_id u) (u_username u) (u_email u) (u_password u) status
         (match lastSeen with Some l => l | None => u_lastSeen u end)
         (u_createdAt u) t.

Fixpoint update_first (uid : ObjectId) (f : UserDoc -> UserDoc)
  (us : list UserDoc) : list UserDoc :=
  match us with
  | [] => []
  | u :: r => if (u_id u =? uid)%N then f u :: r
              else u :: update_first uid f r
  end.

(** [User.findByIdAndUpdate(id, {status, lastSeen?})] with an ObjectId;
    [updatedAt] is the stamp taken when the call was made. *)
Definition User_findByIdAndUpdate (uid : ObjectId) (status : Status)
  (lastSeen : option Z) (updatedAt : Z) (ok : bool) (st : State)
  : Result unit * State :=
  if negb ok then (Throw MongoError, st)
  else (Ok tt,
        with_users (update_first uid (apply_update status lastSeen updatedAt)
                                 (users st)) st).

(* ------------------------------------------------------------------ *)
(** ** Sample data

    A small token verifier, id cast and server state on which the
    statements below are run. *)

(** Accepts, under the secret ['your-secret-key'], the one-unit token [[1]]
    for subject 7 and [[3]] for subject 8; [[2]] is expired. *)
Definition sample_verify (token : jsval) (key : string) : Result jsval :=
  if String.eqb key "your-secret-key" then
    match token with
    | JString [1%N] => Ok (JObject [("id"%string, JNumber 7)])
    | JString [2%N] => Throw TokenExpiredError
    | JString [3%N] => Ok (JObject [("id"%string, JNumber 8)])
    | _ => Throw JsonWebTokenError
    end
  else Throw JsonWebTokenError.

Definition sample_cast (v : jsval) : option (option ObjectId) :=
  match v with
  | JUndefined | JNull => Some None
  | JNumber n => if 0 <=? n then Some (Some (Z.to_N n)) else None
  | _ => None
  end.

Definition alice : UserDoc :=
  mkUser 7%N (js "alice") (js "alice@example.org") None offline 100 50 100.

Definition bob : UserDoc :=
  mkUser 9%N (js "bob") (js "bob@example.org") None online 120 60 120.

(** Two sessions are live: socket 0 (alice) and socket 1 (bob); socket 2 was
    refused. *)
Definition sample_state : State :=
  mkState None 1000 [alice; bob] []
    [ mkSocket 0%N (Some alice) true
        ["message:send"; "user:typing:start"; "user:typing:stop";
         "disconnect"; "error"]%string;
      mkSocket 1%N (Some bob) true
        ["message:send"; "user:typing:start"; "user:typing:stop";
         "disconnect"; "error"]%string;
      mkSocket 2%N None false [] ]
    [] 3%N 0%N 500%N [].

(** A fresh server: one registered user, nobody connected. *)
Definition fresh_state : State :=
  mkState None 1000 [alice] [] [] [] 0%N 0%N 500%N [].

(** 51 stored messages with send times 1, 2, ..., 51. *)
Definition numbered_message (k : nat) : MessageDoc :=
  mkMessage (N.of_nat k) 7%N (js "alice") (js "m") (Z.of_nat k)
            (Z.of_nat k) (Z.of_nat k).

Definition store51 : list MessageDoc := map numbered_message (seq 1 51).

Definition state51 : State :=
  mkState None 1000 [alice] store51
    [ mkSocket 0%N (Some alice) true
        ["message:send"; "user:typing:start"; "user:typing:stop";
         "disconnect"; "error"]%string ]
    [(0%N, AwaitMessageFind 0%N)] 1%N 1%N 500%N
    [Issued 0%N (AwaitMessageFind 0%N)].

(** The payload [{content: "  hi "}]. *)
Definition hi_payload : jsval :=
  JObject [("content"%string, JString (js "  hi "))].

(** The document alice's "hi" becomes at time 1000. *)
Definition hi_message : MessageDoc :=
  mkMessage 500%N 7%N (js "alice") (js "hi") 1000 1000 1000.

(** [sample_state] after socket 0 has submitted [hi_payload]: the write is
    pending. *)
Definition sample_sending : State :=
  mkState None 1000 [alice; bob] []
    [ mkSocket 0%N (Some alice) true
        ["message:send"; "user:typing:start"; "user:typing:stop";
         "disconnect"; "error"]%string;
      mkSocket 1%N (Some bob) true
        ["message:send"; "user:typing:start"; "user:typing:stop";
         "disconnect"; "error"]%string;
      mkSocket 2%N None false [] ]
    [(0%N, AwaitMessageSave 0%N hi_message)] 3%N 1%N 501%N
    [ Handled 0%N "message:send" hi_payload;
      Issued 0%N (AwaitMessageSave 0%N hi_message) ].

(** Alice, stored as online, is connected twice: sockets 0 and 1. *)
Definition alice_online : UserDoc :=
  mkUser 7%N (js "alice") (js "alice@example.org") None online 100 50 100.

Definition two_tabs : State :=
  mkState None 1000 [alice_online; bob] []
    [ mkSocket 0%N (Some alice_online) true
        ["message:send"; "user:typing:start"; "user:typing:stop";
         "disconnect"; "error"]%string;
      mkSocket 1%N (Some alice_online) true
        ["message:send"; "user:typing:start"; "user:typing:stop";
         "disconnect"; "error"]%string ]
    [] 2%N 0%N 500%N [].

(** A body of 1000 letters [a] and one trailing space: 1001 code units, 1000
    after trimming. *)
Definition padded_body : jsstring := repeat 97%N 1000 ++ [32%N].

Definition padded_payload : jsval :=
  JObject [("content"%string, JString padded_body)].


Section Server.

(** The two libraries the server calls and this repository does not define.

    [jwt_verify token secret] is [jwt.verify] of jsonwebtoken: the decoded
    payload, or the exception thrown.

    [castObjectId v] is mongoose's cast of a query value to an ObjectId:
    [None] when it throws CastError, [Some None] when the value is nullish
    (the query then matches nothing), [Some (Some id)] otherwise.  The
    CastError reaches the suspended function like an answer of the store,
    when the lookup completes. *)
Variable jwt_verify : jsval -> string -> Result jsval.
Variable castObjectId : jsval -> option (option ObjectId).

(** [User.findById(id).select('-password')] *)
Definition User_findById (id : jsval) (ok : bool) (st : State)
  : Result (option UserDoc) :=
  match castObjectId id with
  | None => Throw CastError
  | Some None => if negb ok then Throw MongoError else Ok None
  | Some (Some uid) =>
      if negb ok then Throw MongoError
      else Ok (option_map without_password (get_user uid (users st)))
  end.

(* ------------------------------------------------------------------ *)
(** ** socketHandlers/messageHandlers.js *)

(** [handleLoadMessages], up to its [await]. *)
Definition handleLoadMessages (sid : SocketId) (st : State) : State :=
  await (AwaitMessageFind sid) st.

(** [handleLoadMessages], after its [await]. *)
Definition handleLoadMessages_resume (sid : SocketId)
  (r : Result (list MessageView)) (st : State) : State :=
  match r with
  | Ok messages => socket_emit sid (message_history messages) st
  | Throw _ =>
      socket_emit sid (message_error "Failed to load message history") st
  end.

(** [handleMessageSend], up to the write of [message.save()].  The
    parameter [{ content }] destructures [data]; for [undefined] and [null]
    that throws outside the [try]: the returned promise rejects, the
    listener that called the handler has dropped it, and the process ends.
    A document that fails validation makes [save()] reject before anything
    is sent to the store. *)
Definition handleMessageSend (socket : Socket) (data : jsval) (st : State)
  : State :=
  match prop data "content" with
  | None => process_exit st
  | Some content =>
      if negb (truthy content)
         || negb (String.eqb (typeof content) "string")
         || match content with
            | JString s => strlen (trim s) =? 0
            | _ => false
            end
      then socket_emit (s_id socket)
                       (message_error "Message content is required") st
      else
        match content with
        | JString s =>
            if 1000 <? strlen s
            then socket_emit (s_id socket)
                   (message_error
                      "Message content cannot exceed 1000 characters") st
            else
              match s_user socket with
              | None =>
                  (* TypeError on socket.user._id, caught *)
                  socket_emit (s_id socket)
                              (message_error "Failed to send message") st
              | Some user =>
                  let (message, st1) :=
                    new_Message (u_id user) (u_username user) (trim s)
                                (now st) st in
                  match Message_presave message st1 with
                  | Throw _ =>
                      socket_emit (s_id socket)
                                  (message_error "Failed to send message") st1
                  | Ok doc => await (AwaitMessageSave (s_id socket) doc) st1
                  end
              end
        | _ => st
        end
  end.

(** [handleMessageSend], after the write. *)
Definition handleMessageSend_resume (sid : SocketId)
  (r : Result MessageDoc) (st : State) : State :=
  match r with
  | Ok savedMessage =>
      io_emit (message_new
                 (mkView (m_id savedMessage) (m_userId savedMessage)
                         (m_username savedMessage) (m_content savedMessage)
                         (m_timestamp savedMessage)
                         (m_createdAt savedMessage))) st
  | Throw _ => socket_emit sid (message_error "Failed to send message") st
  end.

(** [handleTypingIndicator].  With no [socket.user] the property read
    throws in the listener, where nothing catches it. *)
Definition handleTypingIndicator (socket : Socket) (isTyping : bool)
  (st : State) : State :=
  match s_user socket with
  | None => process_exit st
  | Some user =>
      socket_broadcast_emit (s_id socket)
        (user_typing (u_id user) (u_username user) isTyping) st
  end.

(** [registerMessageHandlers] *)
Definition registerMessageHandlers (sid : SocketId) (st : State) : State :=
  let st := handleLoadMessages sid st in
  let st := socket_on sid "message:send" st in
  let st := socket_on sid "user:typing:start" st in
  socket_on sid "user:typing:stop" st.

(* ------------------------------------------------------------------ *)
(** ** server.js *)

(** [io.on('connection', ...)] *)
Definition onConnection (sid : SocketId) (st : State) : State :=
  let st := registerMessageHandlers sid st in
  let st := socket_on sid "disconnect" st in
  socket_on sid "error" st.

(** The listener of ['disconnect'], up to its [await]. *)
Definition onDisconnect (socket : Socket) (st : State) : State :=
  match s_user socket with
  | Some user =>
      await (AwaitStatusOffline (s_id socket) (u_id user) (now st) (now st))
            st
  | None => st
  end.

(** The listener of ['disconnect'], after its [await].  The listener has no
    [try]: when the update fails its promise rejects unhandled. *)
Definition onDisconnect_resume (r : Result unit) (st : State) : State :=
  match r with
  | Ok _ => st
  | Throw _ => process_exit st
  end.

(** The listener a socket has for a client event. *)
Definition listener (ev : string) (socket : Socket) (data : jsval)
  (st : State) : State :=
  if String.eqb ev "message:send" then handleMessageSend socket data st
  else if String.eqb ev "user:typing:start"
       then handleTypingIndicator socket true st
  else if String.eqb ev "user:typing:stop"
       then handleTypingIndicator socket false st
  else st.

(* ------------------------------------------------------------------ *)
(** ** middleware/socketAuth.js *)

(** [next(err)] refuses the connection: the client gets [connect_error] with
    the message.  [next()] puts the socket into the namespace and fires
    ['connection']. *)
Definition next (sid : SocketId) (err : option string) (st : State) : State :=
  match err with
  | Some message => log [Sent sid (connect_error message)] st
  | None => onConnection sid (set_connected sid true st)
  end.

(** The inner [catch] of [socketAuth]. *)
Definition socketAuth_catch (sid : SocketId) (error : exn) (st : State)
  : State :=
  if instanceof_TokenExpiredError error
  then next sid (Some "Token expired"%string) st
  else if instanceof_JsonWebTokenError error
  then next sid (Some "Invalid token"%string) st
  else next sid (Some "Authentication failed"%string) st.

(** [process.env.JWT_SECRET || 'your-secret-key'] *)
Definition secret (st : State) : string :=
  match JWT_SECRET st with
  | Some s => if String.eqb s "" then "your-secret-key" else s
  | None => "your-secret-key"
  end.

(** [socketAuth], up to its first [await].  [token] is
    [socket.handshake.auth.token]; socket.io makes [handshake.auth] an object,
    so the destructuring does not throw. *)
Definition socketAuth (sid : SocketId) (token : jsval) (st : State) : State :=
  if negb (truthy token)
  then next sid (Some "Authentication token is required"%string) st
  else
    match jwt_verify token (secret st) with
    | Throw error => socketAuth_catch sid error st
    | Ok decoded =>
        match prop decoded "id" with
        | None => socketAuth_catch sid TypeError st
        | Some id => await (AwaitUserFindById sid id) st
        end
    end.

(** [socketAuth], after [User.findById]. *)
Definition socketAuth_found (sid : SocketId) (r : Result (option UserDoc))
  (st : State) : State :=
  match r with
  | Throw error => socketAuth_catch sid error st
  | Ok None => next sid (Some "User not found"%string) st
  | Ok (Some user) =>
      let st := set_socket_user sid user st in
      await (AwaitStatusOnline sid (u_id user) (now st)) st
  end.

(** [socketAuth], after [User.findByIdAndUpdate]. *)
Definition socketAuth_updated (sid : SocketId) (r : Result unit) (st : State)
  : State :=
  match r with
  | Throw error => socketAuth_catch sid error st
  | Ok _ => next sid None st
  end.

(* ------------------------------------------------------------------ *)
(** ** The event loop *)

Inductive Label : Type :=
| Connect (token : jsval)
    (* a client opens a connection with handshake auth [{token}] *)
| ClientEmit (sid : SocketId) (ev : string) (data : jsval)
    (* the client of socket [sid] emits [ev] with payload [data] *)
| Disconnect (sid : SocketId)
    (* the connection of socket [sid] closes *)
| DbDone (tid : TaskId) (ok : bool)
    (* the store finishes the operation of task [tid], or fails it *)
| Tick (t : Z).
    (* the clock moves to [t] *)

(** The function suspended at [p] goes on with the store's answer. *)
Definition complete (p : Pending) (ok : bool) (st : State) : State :=
  match p with
  | AwaitUserFindById sid id =>
      socketAuth_found sid (User_findById id ok st) st
  | AwaitStatusOnline sid uid updatedAt =>
      let (r, st1) :=
        User_findByIdAndUpdate uid online None updatedAt ok st in
      socketAuth_updated sid r st1
  | AwaitMessageFind sid =>
      handleLoadMessages_resume sid (Message_find_sort_limit_select ok st) st
  | AwaitMessageSave sid message =>
      let (r, st1) := Message_insert message ok st in
      handleMessageSend_resume sid r st1
  | AwaitStatusOffline sid uid lastSeen updatedAt =>
      let (r, st1) :=
        User_findByIdAndUpdate uid offline (Some lastSeen) updatedAt ok st in
      onDisconnect_resume r st1
  end.

Definition new_socket (st : State) : State :=
  mkState (JWT_SECRET st) (now st) (users st) (messages st)
          (sockets st ++ [mkSocket (next_sid st) None false []])
          (pending st) (N.succ (next_sid st)) (next_tid st) (next_oid st)
          (trace st).

(** One transition of the running process.  [Disconnect] is socket.io firing
    ['disconnect'] on a socket of the namespace; for any other socket it is
    no event.  A client that goes away while [socketAuth] is suspended is
    outside the model: here a handshake that succeeds always puts its socket
    into the namespace. *)
Definition step (l : Label) (st : State) : State :=
  match l with
  | Connect token => socketAuth (next_sid st) token (new_socket st)
  | ClientEmit sid ev data =>
      match find_socket sid st with
      | Some socket =>
          if s_connected socket && listening ev socket
          then listener ev socket data (log [Handled sid ev data] st)
          else st
      | None => st
      end
  | Disconnect sid =>
      match find_socket sid st with
      | Some socket =>
          if s_connected socket
          then
            let st1 := set_connected sid false st in
            if listening "disconnect" socket then onDisconnect socket st1
            else st1
          else st
      | None => st
      end
  | DbDone tid ok =>
      match take_pending tid (pending st) with
      | Some (p, rest) => complete p ok (with_pending rest st)
      | None => st
      end
  | Tick t => with_now t st
  end.

(** What event [l] adds to the trace. *)
Definition observed (l : Label) (st : State) : list Obs :=
  skipn (List.length (trace st)) (trace (step l st)).

(** Event [l] ends the process. *)
Definition exits (l : Label) (st : State) : bool :=
  existsb is_exit (observed l st).

(** A run of the process: the events are taken one after the other until one
    of them ends the process; those after it find no process. *)
Fixpoint run (ls : list Label) (st : State) : State :=
  match ls with
  | [] => st
  | l :: rest => if exits l st then step l st else run rest (step l st)
  end.

(** No event of [ls], taken from [st], ends the process. *)
Fixpoint survives (ls : list Label) (st : State) : bool :=
  match ls with
  | [] => true
  | l :: rest => negb (exits l st) && survives rest (step l st)
  end.


(* ------------------------------------------------------------------ *)
(** ** middleware/auth.js *)

(** [s.startsWith(prefix)] *)
Fixpoint startsWith (s prefix : jsstring) : bool :=
  match prefix, s with
  | [], _ => true
  | p :: ps, c :: cs => (c =? p)%N && startsWith cs ps
  | _ :: _, [] => false
  end.

(** [s.split(sep)] for a separator of one code unit: the pieces between the
    separators, empty pieces included. *)
Fixpoint split (sep : N) (s : jsstring) : list jsstring :=
  match s with
  | [] => [[]]
  | c :: r =>
      if (c =? sep)%N then [] :: split sep r
      else match split sep r with
           | piece :: pieces => (c :: piece) :: pieces
           | [] => [[c]]
           end
  end.

(** How a request leaves [protect]: answered with a status and a message,
    or passed on by [next()] with [req.user] set. *)
Inductive HttpOutcome : Type :=
| Answered (status : Z) (message : string)
| NextCalled (req_user : option UserDoc).

Inductive ProtectStep : Type :=
| ProtectDone (o : HttpOutcome)
| ProtectAwait (id : jsval).
    (* suspended at await User.findById(decoded.id).select('-password') *)

(** [protect], up to its [await].  [authorization] is
    [req.headers.authorization], a string when the header is there. *)
Definition protect (authorization : option jsstring) (st : State)
  : ProtectStep :=
  let token :=
    match authorization with
    | Some header =>
        if truthy (JString header) && startsWith header (js "Bearer")
        then match split 32 header with
             | _ :: token :: _ => JString token
             | _ => JUndefined
             end
        else JUndefined
    | None => JUndefined
    end in
  if negb (truthy token)
  then ProtectDone (Answered 401 "Not authorized, no token")
  else
    match jwt_verify token (secret st) with
    | Throw _ => ProtectDone (Answered 401 "Not authorized, token failed")
    | Ok decoded =>
        match prop decoded "id" with
        | None => ProtectDone (Answered 401 "Not authorized, token failed")
        | Some id => ProtectAwait id
        end
    end.

(** [protect], after its [await]: [req.user] is whatever the lookup gave,
    [null] included. *)
Definition protect_resume (r : Result (option UserDoc)) : HttpOutcome :=
  match r with
  | Throw _ => Answered 401 "Not authorized, token failed"
  | Ok user => NextCalled user
  end.

(** A whole request: [st] is the server when the request arrives, [st'] when
    the store answers the lookup. *)
Definition protect_request (authorization : option jsstring) (ok : bool)
  (st st' : State) : HttpOutcome :=
  match protect authorization st with
  | ProtectDone o => o
  | ProtectAwait id => protect_resume (User_findById id ok st')
  end.

(* ------------------------------------------------------------------ *)
(** ** config/db.js *)

(** The calls [connectDB] makes to mongoose. *)
Inductive MongooseCall : Type :=
| connection_close
| mongoose_connect (uri : jsval).

Inductive ConnectDBResult : Type :=
| ExistingConnection          (* return mongoose.connection *)
| NewConnection               (* return conn *)
| UriRequired                 (* throw new Error('MongoDB URI is required') *)
| Rethrown.                   (* throw error, after console.error *)

Record ConnectDBRun : Type := mkConnectDBRun {
  db_calls : list MongooseCall;
  db_logged_connected : bool;   (* console.log(`MongoDB Connected: ...`) *)
  db_logged_error : bool;       (* console.error(`Error: ...`) *)
  db_result : ConnectDBResult
}.

(** [connectDB(uri)].  [readyState] is [mongoose.connection.readyState] when
    the function is called (0 disconnected, 1 connected, 2 connecting,
    3 disconnecting); [close_ok] and [connect_ok] tell whether mongoose's
    [close] and [connect] go through. *)
Definition connectDB (uri : jsval) (readyState : N)
  (close_ok connect_ok : bool) : ConnectDBRun :=
  if negb (truthy uri) then mkConnectDBRun [] false false UriRequired
  else if (readyState =? 1)%N
  then mkConnectDBRun [] false false ExistingConnection
  else
    let closing :=
      if negb (readyState =? 0)%N then [connection_close] else [] in
    if negb (readyState =? 0)%N && negb close_ok
    then mkConnectDBRun closing false true Rethrown
    else if connect_ok
    then mkConnectDBRun (closing ++ [mongoose_connect uri]) true false
                        NewConnection
    else mkConnectDBRun (closing ++ [mongoose_connect uri]) false true
                        Rethrown.

(* ------------------------------------------------------------------ *)
(** ** The chat form of the client (components/ChatRoom.tsx) *)

(** [handleSubmit]: what is emitted as [message:send], if anything, and the
    text left in the input.  [socket] tells whether the hook has given a
    socket; [newMessage] is the text of the input. *)
Definition handleSubmit (socket : bool) (newMessage : jsstring)
  : option jsval * jsstring :=
  if negb socket then (None, newMessage)
  else if negb (truthy (JString (trim newMessage))) then (None, newMessage)
  else (Some (JObject [("content"%string, JString newMessage)]), []).

(* ------------------------------------------------------------------ *)
(** ** Vocabulary of the statements *)

(** A string that does not start with white space. *)
Definition headok (s : jsstring) : Prop :=
  match s with
  | [] => True
  | c :: _ => isWhiteSpace c = false
  end.


(** Ascending send time. *)
Definition by_timestamp (a b : MessageDoc) : Prop :=
  m_timestamp a <= m_timestamp b.

(** The connection of socket [sid] is refused with [message]: the client
    gets [connect_error], and that is all that happens; the sockets reached
    by broadcasts, the stores and the started operations are as before. *)
Definition refused (sid : SocketId) (message : string) (st st' : State)
  : Prop :=
  trace st' = trace st ++ [Sent sid (connect_error message)]
  /\ recipients st' = recipients st
  /\ users st' = users st
  /\ messages st' = messages st
  /\ (forall t p, In (t, p) (pending st') -> In (t, p) (pending st)).

(** The reason given for an exception of the verification. *)
Definition rejection_reason (e : exn) : string :=
  match e with
  | TokenExpiredError => "Token expired"
  | JsonWebTokenError => "Invalid token"
  | _ => "Authentication failed"
  end.

(** The ways a connection attempt fails: in state [st], at label [l], the
    attempt of socket [sid] meets a failure whose reason is [message]. *)
Inductive AuthFailure : State -> Label -> SocketId -> string -> Prop :=
| NoToken st token :
    truthy token = false ->
    AuthFailure st (Connect token) (next_sid st)
                "Authentication token is required"
| VerifyThrows st token e :
    truthy token = true ->
    jwt_verify token (secret st) = Throw e ->
    AuthFailure st (Connect token) (next_sid st) (rejection_reason e)
| NoSubject st token decoded :
    truthy token = true ->
    jwt_verify token (secret st) = Ok decoded ->
    prop decoded "id" = None ->
    AuthFailure st (Connect token) (next_sid st) "Authentication failed"
| UserNotFound st tid sid id rest ok :
    take_pending tid (pending st) = Some (AwaitUserFindById sid id, rest) ->
    User_findById id ok (with_pending rest st) = Ok None ->
    AuthFailure st (DbDone tid ok) sid "User not found"
| LookupThrows st tid sid id rest ok e :
    take_pending tid (pending st) = Some (AwaitUserFindById sid id, rest) ->
    User_findById id ok (with_pending rest st) = Throw e ->
    AuthFailure st (DbDone tid ok) sid "Authentication failed"
| UpdateThrows st tid sid uid t rest :
    take_pending tid (pending st) = Some (AwaitStatusOnline sid uid t, rest) ->
    AuthFailure st (DbDone tid false) sid "Authentication failed".

(** The listeners a socket has once ['connection'] has fired. *)
Definition session_listeners : list string :=
  ["message:send"; "user:typing:start"; "user:typing:stop"; "disconnect";
   "error"]%string.

(** A connection attempt on which nothing goes wrong: the handshake, the
    lookup of the user, the status update. *)
Definition handshake (token : jsval) (st : State) : list Label :=
  [ Connect token;
    DbDone (next_tid st) true;
    DbDone (N.succ (next_tid st)) true ].

(** The history replay of socket [sid] was started somewhere in [tr]. *)
Definition replay_issued (sid : SocketId) (tr : list Obs) : Prop :=
  exists tid, In (Issued tid (AwaitMessageFind sid)) tr.

(** The two events that end a history replay. *)
Definition replay_result (ev : ServerEvent) : bool :=
  match ev with
  | message_history _ => true
  | message_error m => String.eqb m "Failed to load message history"
  | _ => false
  end.

(** The history replay of socket [sid] came to its end somewhere in [tr]. *)
Definition replay_completed (sid : SocketId) (tr : list Obs) : Prop :=
  exists ev, replay_result ev = true /\ In (Sent sid ev) tr.

(** Every [message:send] a socket's listener is called with comes after the
    start of that socket's replay. *)
Definition issued_before_sends (tr : list Obs) : Prop :=
  forall n sid data,
    nth_error tr n = Some (Handled sid "message:send" data) ->
    replay_issued sid (firstn n tr).

(** Every [message:send] a socket's listener is called with comes after the
    end of that socket's replay. *)
Definition completed_before_sends (tr : list Obs) : Prop :=
  forall n sid data,
    nth_error tr n = Some (Handled sid "message:send" data) ->
    replay_completed sid (firstn n tr).

Definition is_handled (o : Obs) : bool :=
  match o with Handled _ _ _ => true | _ => false end.

(** The invariant behind [issued_before_sends]: a socket that listens to
    [message:send] has had its replay started. *)
Definition replay_invariant (st : State) : Prop :=
  (forall s, In s (sockets st) -> listening "message:send" s = true ->
             replay_issued (s_id s) (trace st))
  /\ issued_before_sends (trace st).

(** [st'] comes from [st] without any listener being called, and a socket
    that listens to [message:send] in [st'] did so in [st] or has had its
    replay started. *)
Definition quiet (st st' : State) : Prop :=
  (exists extra, trace st' = trace st ++ extra
                 /\ Forall (fun o => is_handled o = false) extra)
  /\ (forall s', In s' (sockets st') ->
                 listening "message:send" s' = true ->
                 (exists s, In s (sockets st) /\ s_id s = s_id s'
                            /\ listening "message:send" s = true)
                 \/ replay_issued (s_id s') (trace st')).

(** The submission of socket [sid] was accepted: a save was started. *)
Definition send_accepted (sid : SocketId) (st st' : State) : Prop :=
  exists message,
    pending st' = (next_tid st, AwaitMessageSave sid message) :: pending st.

(** A client connects with token [[1]], is accepted, and at once submits an
    empty message; only then does the store answer the history query. *)
Definition early_send : list Label :=
  [ Connect (JString [1%N]);
    DbDone 0%N true;
    DbDone 1%N true;
    ClientEmit 0%N "message:send"
               (JObject [("content"%string, JString [])]);
    DbDone 2%N true ].

(** A session of alice on a fresh server: a message is submitted, the
    history query and the save are answered, time passes. *)
Definition small_talk : list Label :=
  [ ClientEmit 0%N "message:send" hi_payload;
    DbDone 2%N true;
    DbDone 3%N true;
    Tick 2000 ].




(** The record a label adds to the Message collection: the document of a
    pending write that the store carries out. *)
Definition inserted (l : Label) (st : State) : list MessageDoc :=
  match l with
  | DbDone tid true =>
      match take_pending tid (pending st) with
      | Some (AwaitMessageSave _ doc, _) => [doc]
      | _ => []
      end
  | _ => []
  end.

(** What a label writes to the User collection: the update of a pending
    handshake or disconnect that the store carries out. *)
Definition presence_write (l : Label) (st : State) : list UserDoc :=
  match l with
  | DbDone tid true =>
      match take_pending tid (pending st) with
      | Some (AwaitStatusOnline _ uid stamp, _) =>
          update_first uid (apply_update online None stamp) (users st)
      | Some (AwaitStatusOffline _ uid lastSeen stamp, _) =>
          update_first uid (apply_update offline (Some lastSeen) stamp)
                       (users st)
      | _ => users st
      end
  | _ => users st
  end.

(** What no event changes of a user. *)
Definition identity_of (u : UserDoc)
  : ObjectId * jsstring * jsstring * option jsstring * Z :=
  (u_id u, u_username u, u_email u, u_password u, u_createdAt u).

Definition is_message_new (o : Obs) : bool :=
  match o with
  | Sent _ (message_new _) => true
  | _ => false
  end.

(** One [message:new] of [doc] for every socket of the namespace. *)
Definition broadcast_of (doc : MessageDoc) (st : State) : list Obs :=
  map (fun r => Sent r (message_new (view doc))) (recipients st).

(** [st'] comes from [st] with both collections as they were and no
    [message:new] written. *)
Definition idle (st st' : State) : Prop :=
  messages st' = messages st
  /\ users st' = users st
  /\ exists extra, trace st' = trace st ++ extra
                   /\ filter is_message_new extra = [].

(** Every [message:new] written so far carries a stored record. *)
Definition broadcasts_stored (st : State) : Prop :=
  forall r v, In (Sent r (message_new v)) (trace st) ->
              exists m, In m (messages st) /\ view m = v.

(** What the handler and the schema let into the store. *)
Definition message_valid (m : MessageDoc) : Prop :=
  trim (m_content m) = m_content m
  /\ 1 <= strlen (m_content m) <= 1000
  /\ trim (m_username m) = m_username m
  /\ 1 <= strlen (m_username m).

Definition store_invariant (st : State) : Prop :=
  Forall message_valid (messages st)
  /\ forall tid sid doc, In (tid, AwaitMessageSave sid doc) (pending st) ->
                         message_valid doc.

(** A socket that can take part: it has its user and all its listeners. *)
Definition session_ready (s : Socket) : Prop :=
  s_user s <> None
  /\ forall ev, In ev session_listeners -> listening ev s = true.

Definition session_invariant (st : State) : Prop :=
  (forall s, In s (sockets st) -> s_connected s = true -> session_ready s)
  /\ (forall tid sid id, In (tid, AwaitUserFindById sid id) (pending st) ->
                         (sid < next_sid st)%N)
  /\ (forall tid sid uid stamp,
        In (tid, AwaitStatusOnline sid uid stamp) (pending st) ->
        (sid < next_sid st)%N
        /\ forall s, In s (sockets st) -> s_id s = sid -> s_user s <> None).

(** A pending write is harmless when its record is valid. *)
Definition harmless (p : Pending) : Prop :=
  match p with
  | AwaitMessageSave _ doc => message_valid doc
  | _ => True
  end.

(** A task message traffic may start: no step of a handshake, and no write
    of an invalid record. *)
Definition benign (p : Pending) : Prop :=
  match p with
  | AwaitUserFindById _ _ => False
  | AwaitStatusOnline _ _ _ => False
  | AwaitMessageSave _ doc => message_valid doc
  | _ => True
  end.

(** Every task pending in [st'] was pending in [st] or satisfies [P]. *)
Definition pending_grows (P : Pending -> Prop) (st st' : State) : Prop :=
  forall x, In x (pending st') -> In x (pending st) \/ P (snd x).

(** [st'] comes from [st] with the socket objects as they were and only
    benign tasks started. *)
Definition frame (st st' : State) : Prop :=
  sockets st' = sockets st
  /\ next_sid st' = next_sid st
  /\ pending_grows benign st st'.

(** The headers in which [protect] finds no token: no header; a header
    that does not start with [Bearer]; a header without a space; a header
    with nothing between its first space and the next one or the end. *)
Inductive NoBearerToken : option jsstring -> Prop :=
| HeaderAbsent : NoBearerToken None
| NotBearer header :
    startsWith header (js "Bearer") = false ->
    NoBearerToken (Some header)
| NoSpace header :
    Forall (fun c => c <> 32%N) header ->
    NoBearerToken (Some header)
| NothingAfterSpace scheme rest :
    Forall (fun c => c <> 32%N) scheme ->
    rest = [] \/ (exists r, rest = 32%N :: r) ->
    NoBearerToken (Some (scheme ++ 32%N :: rest)).

(** A pending task at whose end the history replay of socket [sid] may
    still come: a step of its handshake, or its history query. *)
Definition owes (sid : SocketId) (p : Pending) : bool :=
  match p with
  | AwaitUserFindById s _ => (s =? sid)%N
  | AwaitStatusOnline s _ _ => (s =? sid)%N
  | AwaitMessageFind s => (s =? sid)%N
  | _ => false
  end.

(** The end of a history replay, written to socket [sid]. *)
Definition is_replay_for (sid : SocketId) (o : Obs) : bool :=
  match o with
  | Sent s ev => (s =? sid)%N && replay_result ev
  | _ => false
  end.

Definition replays_received (sid : SocketId) (st : State) : nat :=
  List.length (filter (is_replay_for sid) (trace st)).

Definition replays_owed (sid : SocketId) (st : State) : nat :=
  List.length (filter (fun x => owes sid (snd x)) (pending st)).

(** Received or still to come, a socket has at most one replay, and a
    socket that does not exist yet has none. *)
Definition replay_budget (st : State) : Prop :=
  forall sid,
    (replays_owed sid st + replays_received sid st <= 1)%nat
    /\ ((next_sid st <= sid)%N ->
        (replays_owed sid st + replays_received sid st = 0)%nat).

(** From [st] to [st'] no socket gains a replay, received or to come,
    except [who] at most one. *)
Definition raises (who : option SocketId) (st st' : State) : Prop :=
  next_sid st' = next_sid st
  /\ forall sid,
       (replays_owed sid st' + replays_received sid st'
        <= replays_owed sid st + replays_received sid st
           + match who with
             | Some s => if (s =? sid)%N then 1 else 0
             | None => 0
             end)%nat.


(** Socket [sid] is there and bound to user [uid]. *)
Definition bound_to (sid : SocketId) (uid : ObjectId) (st : State) : Prop :=
  exists socket user,
    find_socket sid st = Some socket
    /\ s_user socket = Some user
    /\ u_id user = uid.

(** A step of the handshake of socket [sid]. *)
Definition handshake_of (sid : SocketId) (p : Pending) : bool :=
  match p with
  | AwaitUserFindById s _ => (s =? sid)%N
  | AwaitStatusOnline s _ _ => (s =? sid)%N
  | _ => false
  end.



(** [st'] comes from [st] with every socket still there and bound as it
    was, every user still stored, and no step of a handshake started. *)
Definition gentle (st st' : State) : Prop :=
  (forall sid, find_socket sid st <> None -> find_socket sid st' <> None)
  /\ (forall sid uid, bound_to sid uid st -> bound_to sid uid st')
  /\ (forall uid, get_user uid (users st) <> None ->
                  get_user uid (users st') <> None)
  /\ (forall x, In x (pending st') ->
                In x (pending st)
                \/ forall sid, handshake_of sid (snd x) = false).






(* ------------------------------------------------------------------ *)
(** ** Trimming *)

Lemma trimStart_headok (s : jsstring) : headok (trimStart s).
Proof.
  induction s as [|c r IH]; simpl; [exact I|].
  destruct (isWhiteSpace c) eqn:E; [exact IH | exact E].
Qed.

Lemma trimStart_fix (s : jsstring) : headok s -> trimStart s = s.
Proof.
  destruct s as [|c r]; simpl; [reflexivity|].
  intros ->. reflexivity.
Qed.

Lemma trimStart_snoc (l : jsstring) (c : N) :
  isWhiteSpace c = false -> trimStart (l ++ [c]) = trimStart l ++ [c].
Proof.
  intros Hc. induction l as [|x r IH]; simpl.
  - rewrite Hc. reflexivity.
  - destruct (isWhiteSpace x); [exact IH | reflexivity].
Qed.

Lemma trimStart_length (s : jsstring) :
  (List.length (trimStart s) <= List.length s)%nat.
Proof.
  induction s as [|c r IH]; simpl; [lia|].
  destruct (isWhiteSpace c); simpl; lia.
Qed.

Lemma trim_headok (s : jsstring) : headok (trim s).
Proof.
  unfold trim, trimEnd.
  pose proof (trimStart_headok s) as H.
  destruct (trimStart s) as [|c r]; [exact I|].
  simpl in H. simpl rev. rewrite (trimStart_snoc _ _ H), rev_app_distr.
  simpl. exact H.
Qed.

Lemma trim_rev_headok (s : jsstring) : headok (rev (trim s)).
Proof.
  unfold trim, trimEnd. rewrite rev_involutive. apply trimStart_headok.
Qed.

Lemma trim_idempotent (s : jsstring) : trim (trim s) = trim s.
Proof.
  unfold trim at 1. unfold trimEnd.
  rewrite (trimStart_fix _ (trim_headok s)).
  rewrite (trimStart_fix _ (trim_rev_headok s)).
  apply rev_involutive.
Qed.

Lemma trim_length_le (s : jsstring) : strlen (trim s) <= strlen s.
Proof.
  unfold strlen, trim, trimEnd.
  rewrite length_rev.
  pose proof (trimStart_length (rev (trimStart s))) as H1.
  rewrite length_rev in H1.
  pose proof (trimStart_length s) as H2. lia.
Qed.

Lemma strlen_zero_nil (s : jsstring) : (strlen s =? 0) = true <-> s = [].
Proof.
  unfold strlen. destruct s; simpl; split; intros H;
    try reflexivity; try discriminate; try lia.
Qed.

Lemma strlen_nonzero (s : jsstring) : s <> [] -> (strlen s =? 0) = false.
Proof.
  intros H. destruct (strlen s =? 0) eqn:E; [|reflexivity].
  apply strlen_zero_nil in E. contradiction.
Qed.

(* ------------------------------------------------------------------ *)
(** ** Sockets and emission *)

Lemma find_socket_id (sid : SocketId) (st : State) (s : Socket) :
  find_socket sid st = Some s -> s_id s = sid.
Proof.
  unfold find_socket. intros H. apply find_some in H.
  destruct H as [_ H]. apply N.eqb_eq in H. exact H.
Qed.

Lemma socket_connected_of (sid : SocketId) (st : State) (s : Socket) :
  find_socket sid st = Some s -> s_connected s = true ->
  socket_connected sid st = true.
Proof. unfold socket_connected. intros -> H. exact H. Qed.

Lemma socket_emit_live (sid : SocketId) (ev : ServerEvent) (st : State) :
  socket_connected sid st = true ->
  socket_emit sid ev st = log [Sent sid ev] st.
Proof. unfold socket_emit. intros ->. reflexivity. Qed.

Lemma socket_emit_gone (sid : SocketId) (ev : ServerEvent) (st : State) :
  socket_connected sid st = false -> socket_emit sid ev st = st.
Proof. unfold socket_emit. intros ->. reflexivity. Qed.

(** What a live socket with a listener does with a client event. *)
Lemma step_ClientEmit (sid : SocketId) (ev : string) (data : jsval)
  (st : State) (socket : Socket) :
  find_socket sid st = Some socket ->
  s_connected socket = true ->
  listening ev socket = true ->
  step (ClientEmit sid ev data) st
  = listener ev socket data (log [Handled sid ev data] st).
Proof.
  intros Hf Hc Hl. unfold step. rewrite Hf, Hc, Hl. reflexivity.
Qed.

(* ------------------------------------------------------------------ *)
(** ** Runs and the end of the process *)

Lemma exits_of_trace (l : Label) (st : State) (more : list Obs) :
  trace (step l st) = trace st ++ more ->
  exits l st = existsb is_exit more.
Proof.
  intros H. unfold exits, observed. rewrite H, skipn_app, skipn_all.
  rewrite Nat.sub_diag. reflexivity.
Qed.

Lemma run_cons_alive (l : Label) (ls : list Label) (st : State) :
  exits l st = false -> run (l :: ls) st = run ls (step l st).
Proof. intros H. simpl. rewrite H. reflexivity. Qed.

Lemma run_cons_exit (l : Label) (ls : list Label) (st : State) :
  exits l st = true -> run (l :: ls) st = step l st.
Proof. intros H. simpl. rewrite H. reflexivity. Qed.

(** What every step keeps, every run keeps. *)
Lemma run_invariant (P : State -> Prop) :
  (forall l st, P st -> P (step l st)) ->
  forall ls st, P st -> P (run ls st).
Proof.
  intros Hstep ls. induction ls as [|l ls IH]; intros st H; [exact H|].
  simpl. destruct (exits l st); [|apply IH]; apply Hstep; exact H.
Qed.

(** A run that no event ends is the steps one after the other. *)
Lemma run_survives (ls : list Label) (st : State) :
  survives ls st = true -> run ls st = fold_left (fun s l => step l s) ls st.
Proof.
  revert st. induction ls as [|l ls IH]; intros st H; [reflexivity|].
  simpl in H. apply andb_true_iff in H. destruct H as [Hl Hr].
  apply negb_true_iff in Hl. simpl. rewrite Hl. exact (IH _ Hr).
Qed.

(** A step that writes no [Exit] does not end the process. *)
Lemma exits_none (l : Label) (st : State) (more : list Obs) :
  trace (step l st) = trace st ++ more ->
  Forall (fun o => is_exit o = false) more ->
  exits l st = false.
Proof.
  intros H Hf. rewrite (exits_of_trace l st more H). clear H.
  induction Hf as [|o r Ho _ IH]; simpl; [reflexivity|].
  rewrite Ho. exact IH.
Qed.

(** A step whose outcome [E] is known does not end the process: the run
    goes on from that outcome. *)
Ltac alive E :=
  rewrite run_cons_alive
    by (eapply exits_none;
        [rewrite E; first [reflexivity | symmetry; apply app_nil_r]
        |repeat constructor]);
  rewrite E.

Lemma recipients_process_exit (st : State) : recipients (process_exit st) = [].
Proof.
  unfold recipients, process_exit. simpl.
  induction (sockets st) as [|s r IH]; [reflexivity | exact IH].
Qed.

(* ------------------------------------------------------------------ *)
(** ** Sending a message: validation *)


(** C3, as the code has it.  A [message:send] whose [content] is a string
    that is not empty after trimming and whose length before trimming
    exceeds 1000 makes the server write exactly one [message:error]
    "Message content cannot exceed 1000 characters" to the sending socket and
    nothing else: no record is stored, no save is started, nothing is
    broadcast.  A string longer than 1000 after trimming is longer than 1000
    before ([trim_length_le]), so this covers it. *)
Theorem C3_raw_length_limit (st : State) (sid : SocketId) (socket : Socket)
  (data : jsval) (s : jsstring) :
  find_socket sid st = Some socket ->
  s_connected socket = true ->
  listening "message:send" socket = true ->
  prop data "content" = Some (JString s) ->
  trim s <> [] ->
  1000 < strlen s ->
  let st' := step (ClientEmit sid "message:send" data) st in
  trace st' = trace st ++ [ Handled sid "message:send" data;
                            Sent sid (message_error
                              "Message content cannot exceed 1000 characters") ]
  /\ messages st' = messages st
  /\ pending st' = pending st
  /\ users st' = users st.
Proof.
  intros Hf Hc Hl Hp Ht Hlen st'. subst st'.
  rewrite (step_ClientEmit _ _ _ _ _ Hf Hc Hl).
  unfold listener. simpl String.eqb. cbv iota.
  unfold handleMessageSend. rewrite Hp.
  assert (Hs : s <> []).
  { intros ->. apply Ht. reflexivity. }
  simpl truthy. simpl typeof. simpl String.eqb.
  rewrite (strlen_nonzero _ Hs), (strlen_nonzero _ Ht). simpl.
  assert (Hlt : (1000 <? strlen s) = true) by (apply Z.ltb_lt; exact Hlen).
  rewrite Hlt.
  rewrite (find_socket_id _ _ _ Hf).
  rewrite socket_emit_live
    by (exact (socket_connected_of sid st socket Hf Hc)).
  simpl. rewrite <- app_assoc. simpl. repeat split; reflexivity.
Qed.

(* ------------------------------------------------------------------ *)
(** ** Sending a message: persist, then broadcast *)

Lemma recipients_connected (sid : SocketId) (st : State) :
  socket_connected sid st = true -> In sid (recipients st).
Proof.
  unfold socket_connected, recipients, find_socket.
  destruct (find _ (sockets st)) as [s|] eqn:E; [|discriminate].
  intros Hc. apply find_some in E. destruct E as [Hin Hid].
  apply N.eqb_eq in Hid. subst sid.
  apply in_map. apply filter_In. split; assumption.
Qed.

Lemma Message_validate_ok (userId : ObjectId) (oid : ObjectId)
  (name s : jsstring) (t : Z) :
  username_valid name -> trim s <> [] -> strlen s <= 1000 ->
  Message_validate (mkNewMessage oid userId name (trim s) t) = true.
Proof.
  intros [Htrim Hlen] Hs Hle. unfold Message_validate. simpl.
  rewrite (strlen_nonzero _ Hs).
  assert (Hn : (strlen name =? 0) = false) by (apply Z.eqb_neq; lia).
  rewrite Hn. simpl. apply Z.leb_le.
  pose proof (trim_length_le s). lia.
Qed.

(** C1, as the code has it.  A [message:send] from a live session bound to
    [user], with a string [content] that is not empty after trimming and at
    most 1000 long before trimming, starts exactly one write, of the record
    (user id, username, trimmed content, current time as send time), and
    sends nothing to any client yet.  When
    that write succeeds, in whatever state [st2] the server is by then,
    exactly that record is added to the store and one [message:new] with its
    six fields is written to every socket connected in [st2], the sender
    among them if it is still there. *)
Theorem C1_send_persists_then_broadcasts (st : State) (sid : SocketId)
  (socket : Socket) (user : UserDoc) (data : jsval) (s : jsstring) :
  find_socket sid st = Some socket ->
  s_connected socket = true ->
  listening "message:send" socket = true ->
  s_user socket = Some user ->
  username_valid (u_username user) ->
  prop data "content" = Some (JString s) ->
  trim s <> [] ->
  strlen s <= 1000 ->
  let message :=
    mkMessage (next_oid st) (u_id user) (u_username user) (trim s)
              (now st) (now st) (now st) in
  let st1 := step (ClientEmit sid "message:send" data) st in
  pending st1 = (next_tid st, AwaitMessageSave sid message) :: pending st
  /\ messages st1 = messages st
  /\ trace st1 = trace st ++ [ Handled sid "message:send" data;
                               Issued (next_tid st)
                                      (AwaitMessageSave sid message) ]
  /\ forall (st2 : State) (tid : TaskId) (rest : list (TaskId * Pending)),
       take_pending tid (pending st2)
       = Some (AwaitMessageSave sid message, rest) ->
       let st3 := step (DbDone tid true) st2 in
       messages st3 = messages st2 ++ [message]
       /\ trace st3
          = trace st2
            ++ map (fun r => Sent r (message_new (view message)))
                   (recipients st2)
       /\ (socket_connected sid st2 = true ->
           In (Sent sid (message_new (view message))) (trace st3)).
Proof.
  intros Hf Hc Hl Hu Hname Hp Ht Hlen message st1.
  assert (Hs : s <> []) by (intros ->; apply Ht; reflexivity).
  assert (Hstep :
    st1 = await (AwaitMessageSave sid message)
            (snd (new_Message (u_id user) (u_username user) (trim s) (now st)
                              (log [Handled sid "message:send" data] st)))).
  { subst st1. rewrite (step_ClientEmit _ _ _ _ _ Hf Hc Hl).
    unfold listener. simpl String.eqb. cbv iota.
    unfold handleMessageSend. rewrite Hp.
    simpl truthy. simpl typeof. simpl String.eqb.
    rewrite (strlen_nonzero _ Hs), (strlen_nonzero _ Ht). simpl orb.
    cbv iota.
    assert (Hle : (1000 <? strlen s) = false) by (apply Z.ltb_ge; exact Hlen).
    rewrite Hle, Hu, (find_socket_id _ _ _ Hf).
    unfold new_Message, Message_presave. subst message.
    destruct Hname as [Htrim Hbounds].
    rewrite Htrim, trim_idempotent.
    rewrite (Message_validate_ok _ _ _ _ _ (conj Htrim Hbounds) Ht Hlen).
    reflexivity. }
  rewrite Hstep. unfold await, new_Message. simpl.
  split; [reflexivity|]. split; [reflexivity|].
  split; [rewrite <- app_assoc; reflexivity|].
  intros st2 tid rest Htake. cbv zeta.
  unfold step. rewrite Htake. unfold complete, Message_insert.
  simpl. split; [reflexivity|]. split; [reflexivity|].
  intros Hlive. apply in_or_app. right.
  apply (in_map (fun r => Sent r (message_new _))).
  apply recipients_connected. exact Hlive.
Qed.

(** A record that breaks the Message schema never reaches the store: the
    sender is told at once. *)
Lemma invalid_record_not_sent (st : State) (sid : SocketId) (socket : Socket)
  (user : UserDoc) (data : jsval) (s : jsstring) :
  find_socket sid st = Some socket ->
  s_connected socket = true ->
  listening "message:send" socket = true ->
  s_user socket = Some user ->
  trim (u_username user) = [] ->
  prop data "content" = Some (JString s) ->
  trim s <> [] ->
  strlen s <= 1000 ->
  let st1 := step (ClientEmit sid "message:send" data) st in
  trace st1 = trace st ++ [ Handled sid "message:send" data;
                            Sent sid (message_error
                                        "Failed to send message") ]
  /\ messages st1 = messages st
  /\ pending st1 = pending st.
Proof.
  intros Hf Hc Hl Hu Hname Hp Ht Hlen st1.
  assert (Hs : s <> []) by (intros ->; apply Ht; reflexivity).
  subst st1. rewrite (step_ClientEmit _ _ _ _ _ Hf Hc Hl).
  unfold listener. simpl String.eqb. cbv iota.
  unfold handleMessageSend. rewrite Hp.
  simpl truthy. simpl typeof. simpl String.eqb.
  rewrite (strlen_nonzero _ Hs), (strlen_nonzero _ Ht). simpl orb.
  cbv iota.
  assert (Hle : (1000 <? strlen s) = false) by (apply Z.ltb_ge; exact Hlen).
  rewrite Hle, Hu, (find_socket_id _ _ _ Hf).
  unfold new_Message, Message_presave, Message_validate.
  simpl n_username. rewrite Hname. simpl negb. cbv iota.
  rewrite socket_emit_live
    by (exact (socket_connected_of sid st socket Hf Hc)).
  simpl. rewrite <- app_assoc. repeat split; reflexivity.
Qed.

(** C4.  When the write of a submitted message fails, the server writes
    exactly one [message:error] "Failed to send message", to the sending
    socket; no [message:new] is written to anyone and the stores are
    unchanged. *)
Theorem C4_failed_save_reports_to_sender (st : State) (tid : TaskId)
  (sid : SocketId) (message : MessageDoc) (rest : list (TaskId * Pending)) :
  take_pending tid (pending st) = Some (AwaitMessageSave sid message, rest) ->
  socket_connected sid st = true ->
  let st' := step (DbDone tid false) st in
  trace st' = trace st ++ [Sent sid (message_error "Failed to send message")]
  /\ messages st' = messages st
  /\ users st' = users st.
Proof.
  intros Htake Hlive st'. subst st'.
  unfold step. rewrite Htake. unfold complete, Message_insert.
  simpl. rewrite socket_emit_live by exact Hlive.
  simpl. repeat split; reflexivity.
Qed.

(* ------------------------------------------------------------------ *)
(** ** Typing indicator *)


(* ------------------------------------------------------------------ *)
(** ** History replay *)

Lemma insert_by_timestamp_perm (m : MessageDoc) (l : list MessageDoc) :
  Permutation (insert_by_timestamp m l) (m :: l).
Proof.
  induction l as [|x r IH]; simpl; [apply Permutation_refl|].
  destruct (m_timestamp m <=? m_timestamp x).
  - apply Permutation_refl.
  - eapply perm_trans; [apply perm_skip, IH | apply perm_swap].
Qed.

Lemma sort_by_timestamp_perm (l : list MessageDoc) :
  Permutation (sort_by_timestamp l) l.
Proof.
  induction l as [|x r IH]; simpl; [apply perm_nil|].
  eapply perm_trans; [apply insert_by_timestamp_perm|].
  apply perm_skip, IH.
Qed.

Lemma insert_by_timestamp_sorted (m : MessageDoc) (l : list MessageDoc) :
  StronglySorted by_timestamp l ->
  StronglySorted by_timestamp (insert_by_timestamp m l).
Proof.
  induction 1 as [|x r Hr IH Hx]; simpl.
  - constructor; constructor.
  - destruct (m_timestamp m <=? m_timestamp x) eqn:E.
    + apply Z.leb_le in E. constructor.
      * constructor; assumption.
      * constructor; [exact E|].
        eapply Forall_impl; [|exact Hx].
        unfold by_timestamp. intros a Ha. lia.
    + apply Z.leb_gt in E. constructor; [exact IH|].
      eapply Permutation_Forall.
      * apply Permutation_sym, insert_by_timestamp_perm.
      * constructor; [unfold by_timestamp; lia | exact Hx].
Qed.

Lemma sort_by_timestamp_sorted (l : list MessageDoc) :
  StronglySorted by_timestamp (sort_by_timestamp l).
Proof.
  induction l as [|x r IH]; simpl.
  - constructor.
  - apply insert_by_timestamp_sorted, IH.
Qed.

Lemma sorted_app_le (l1 l2 : list MessageDoc) :
  StronglySorted by_timestamp (l1 ++ l2) ->
  forall a b, In a l1 -> In b l2 -> m_timestamp a <= m_timestamp b.
Proof.
  induction l1 as [|x r IH]; simpl; intros Hs a b Ha Hb; [contradiction|].
  inversion Hs as [|? ? Hr Hx]; subst.
  destruct Ha as [->|Ha].
  - rewrite Forall_forall in Hx. apply Hx. apply in_or_app. right. exact Hb.
  - exact (IH Hr a b Ha Hb).
Qed.

(** What the query of [handleLoadMessages] returns from any store: at most
    50 documents, in ascending order of send time, and no document it leaves
    out was sent before one it returns.  It is the head of the ascending
    order, the oldest documents of the store. *)
Lemma history_query_is_oldest (l : list MessageDoc) :
  let batch := firstn 50 (sort_by_timestamp l) in
  let left_out := skipn 50 (sort_by_timestamp l) in
  (List.length batch <= 50)%nat
  /\ StronglySorted by_timestamp batch
  /\ Permutation (batch ++ left_out) l
  /\ forall a b, In a batch -> In b left_out ->
                 m_timestamp a <= m_timestamp b.
Proof.
  intros batch left_out.
  pose proof (sort_by_timestamp_sorted l) as Hs.
  assert (Hsplit : batch ++ left_out = sort_by_timestamp l)
    by apply firstn_skipn.
  split; [apply firstn_le_length|].
  split.
  { rewrite <- Hsplit in Hs. clear Hsplit.
    induction batch as [|x r IH]; [constructor|].
    simpl in Hs. inversion Hs as [|? ? Hr Hx]; subst.
    constructor; [exact (IH Hr)|].
    apply Forall_app in Hx. exact (proj1 Hx). }
  split.
  { rewrite Hsplit. apply sort_by_timestamp_perm. }
  apply sorted_app_le. rewrite Hsplit. exact Hs.
Qed.

Lemma In_timestamp (x : MessageView) (l : list MessageView) :
  In x l -> existsb (fun y => v_timestamp y =? v_timestamp x) l = true.
Proof.
  intros H. apply existsb_exists. exists x. split; [exact H|].
  apply Z.eqb_refl.
Qed.

(** C2, on the store of 51 messages sent at times 1 to 51.  The replay for
    socket 0 writes one [message:history] to socket 0 only; the batch holds
    the messages sent at times 1 to 50, in that order.  The newest message,
    sent at time 51, is not in it, and the oldest, sent at time 1, is. *)
Theorem C2_history_replay_on_51_messages :
  let st' := step (DbDone 0%N true) state51 in
  let batch := map view (map numbered_message (seq 1 50)) in
  trace st' = trace state51 ++ [Sent 0%N (message_history batch)]
  /\ ~ In (view (numbered_message 51)) batch
  /\ In (view (numbered_message 1)) batch.
Proof.
  split; [vm_compute; reflexivity|].
  split.
  - intros H. apply In_timestamp in H.
    assert (E : existsb
                  (fun y => v_timestamp y
                            =? v_timestamp (view (numbered_message 51)))
                  (map view (map numbered_message (seq 1 50))) = false).
    { vm_compute. reflexivity. }
    rewrite E in H. discriminate H.
  - left. reflexivity.
Qed.

(* ------------------------------------------------------------------ *)
(** ** Connection authenticator: refusals *)

Lemma take_pending_incl (tid : TaskId) (ps rest : list (TaskId * Pending))
  (p : Pending) :
  take_pending tid ps = Some (p, rest) ->
  forall x, In x rest -> In x ps.
Proof.
  revert rest. induction ps as [|[t q] r IH]; simpl; intros rest H x Hx.
  - discriminate H.
  - destruct (t =? tid)%N.
    + injection H as _ <-. right. exact Hx.
    + destruct (take_pending tid r) as [[q' r']|]; [|discriminate H].
      injection H as <- <-. destruct Hx as [<-|Hx]; [left; reflexivity|].
      right. exact (IH r' eq_refl x Hx).
Qed.

Lemma recipients_new_socket (st : State) :
  recipients (new_socket st) = recipients st.
Proof.
  unfold recipients, new_socket. simpl.
  rewrite filter_app, map_app. simpl. apply app_nil_r.
Qed.

Lemma next_error_refused (sid : SocketId) (message : string)
  (st0 st : State) :
  trace st = trace st0 ->
  recipients st = recipients st0 ->
  users st = users st0 ->
  messages st = messages st0 ->
  (forall t p, In (t, p) (pending st) -> In (t, p) (pending st0)) ->
  refused sid message st0 (next sid (Some message) st).
Proof.
  intros Ht Hr Hu Hm Hp. unfold refused, next. simpl.
  rewrite Ht. repeat split; assumption.
Qed.

Lemma socketAuth_catch_refused (sid : SocketId) (e : exn) (st0 st : State) :
  trace st = trace st0 ->
  recipients st = recipients st0 ->
  users st = users st0 ->
  messages st = messages st0 ->
  (forall t p, In (t, p) (pending st) -> In (t, p) (pending st0)) ->
  refused sid (rejection_reason e) st0 (socketAuth_catch sid e st).
Proof.
  intros Ht Hr Hu Hm Hp. unfold socketAuth_catch.
  destruct e; simpl; apply next_error_refused; assumption.
Qed.

Lemma User_findById_throws (id : jsval) (ok : bool) (st : State) (e : exn) :
  User_findById id ok st = Throw e ->
  rejection_reason e = "Authentication failed"%string.
Proof.
  unfold User_findById.
  destruct (castObjectId id) as [[uid|]|]; destruct (negb ok);
    intros H; try discriminate H; injection H as <-; reflexivity.
Qed.

(** C5.  Whatever makes a connection attempt fail, the connection is refused
    with the reason that belongs to it: "Authentication token is required"
    for a missing token, "Token expired" for an expired one, "Invalid token"
    for one that is malformed or wrongly signed, "Authentication failed" for
    any other exception, "User not found" when the lookup of the subject
    finds nobody.  The refusal is all that happens: no socket joins the
    namespace, the stores are unchanged, no operation is started. *)
Theorem C5_refusal_reasons (st : State) (l : Label) (sid : SocketId)
  (message : string) :
  AuthFailure st l sid message -> refused sid message st (step l st).
Proof.
  intros H. destruct H as
    [ st token Ht
    | st token e Ht Hv
    | st token decoded Ht Hv Hp
    | st tid sid id rest ok Htake Hfind
    | st tid sid id rest ok e Htake Hfind
    | st tid sid uid stamp rest Htake ].
  - unfold step, socketAuth. rewrite Ht. simpl negb. cbv iota.
    apply next_error_refused; try reflexivity.
    + apply recipients_new_socket.
    + intros t p Hin. exact Hin.
  - unfold step, socketAuth. rewrite Ht. simpl negb. cbv iota.
    change (secret (new_socket st)) with (secret st). rewrite Hv.
    apply socketAuth_catch_refused; try reflexivity.
    + apply recipients_new_socket.
    + intros t p Hin. exact Hin.
  - unfold step, socketAuth. rewrite Ht. simpl negb. cbv iota.
    change (secret (new_socket st)) with (secret st). rewrite Hv, Hp.
    apply (socketAuth_catch_refused (next_sid st) TypeError);
      try reflexivity.
    + apply recipients_new_socket.
    + intros t p Hin. exact Hin.
  - unfold step. rewrite Htake. unfold complete. rewrite Hfind.
    unfold socketAuth_found.
    apply next_error_refused; try reflexivity.
    intros t p Hin. exact (take_pending_incl _ _ _ _ Htake _ Hin).
  - unfold step. rewrite Htake. unfold complete. rewrite Hfind.
    unfold socketAuth_found.
    rewrite <- (User_findById_throws _ _ _ _ Hfind).
    apply socketAuth_catch_refused; try reflexivity.
    intros t p Hin. exact (take_pending_incl _ _ _ _ Htake _ Hin).
  - unfold step. rewrite Htake. unfold complete, User_findByIdAndUpdate.
    simpl negb. cbv iota. unfold socketAuth_updated.
    apply (socketAuth_catch_refused sid MongoError); try reflexivity.
    intros t p Hin. exact (take_pending_incl _ _ _ _ Htake _ Hin).
Qed.

(* ------------------------------------------------------------------ *)
(** ** Connection authenticator: acceptance *)

Lemma map_update_fresh (sid : SocketId) (f : Socket -> Socket)
  (l : list Socket) :
  find (fun s => (s_id s =? sid)%N) l = None ->
  map (fun s => if (s_id s =? sid)%N then f s else s) l = l.
Proof.
  induction l as [|x r IH]; simpl; [reflexivity|].
  destruct (s_id x =? sid)%N; [discriminate|].
  intros H. rewrite (IH H). reflexivity.
Qed.

Lemma find_app_fresh (sid : SocketId) (l : list Socket) (x : Socket) :
  find (fun s => (s_id s =? sid)%N) l = None ->
  s_id x = sid ->
  find (fun s => (s_id s =? sid)%N) (l ++ [x]) = Some x.
Proof.
  intros H Hx. induction l as [|y r IH]; simpl in *.
  - rewrite Hx, N.eqb_refl. reflexivity.
  - destruct (s_id y =? sid)%N; [discriminate|]. exact (IH H).
Qed.

Lemma get_user_id (uid : ObjectId) (us : list UserDoc) (u : UserDoc) :
  get_user uid us = Some u -> u_id u = uid.
Proof.
  unfold get_user. intros H. apply find_some in H.
  destruct H as [_ H]. apply N.eqb_eq in H. exact H.
Qed.

Lemma get_user_update_first (uid : ObjectId) (f : UserDoc -> UserDoc)
  (us : list UserDoc) (u : UserDoc) :
  (forall x, u_id (f x) = u_id x) ->
  get_user uid us = Some u ->
  get_user uid (update_first uid f us) = Some (f u).
Proof.
  intros Hf. unfold get_user.
  induction us as [|x r IH]; simpl; [discriminate|].
  destruct (u_id x =? uid)%N eqn:E.
  - intros H. injection H as <-. simpl. rewrite Hf, E. reflexivity.
  - intros H. simpl. rewrite E. exact (IH H).
Qed.

Ltac fields :=
  cbv delta [with_now with_users with_messages with_sockets with_pending
             log await new_socket update_socket set_socket_user
             set_connected socket_on new_Message];
  cbn beta iota zeta
      delta [JWT_SECRET now users messages sockets pending next_sid
             next_tid next_oid trace fst snd].

Lemma step_DbDone_await (tid : TaskId) (p : Pending) (ok : bool)
  (st : State) :
  tid = next_tid st ->
  step (DbDone tid ok) (await p st)
  = complete p ok (with_pending (pending st) (await p st)).
Proof.
  intros ->. unfold step. fields. simpl take_pending.
  rewrite N.eqb_refl. reflexivity.
Qed.

Lemma step_Connect_verified (st : State) (token decoded id : jsval) :
  truthy token = true ->
  jwt_verify token (secret st) = Ok decoded ->
  prop decoded "id" = Some id ->
  step (Connect token) st
  = await (AwaitUserFindById (next_sid st) id) (new_socket st).
Proof.
  intros Ht Hv Hp. unfold step, socketAuth. rewrite Ht. simpl negb.
  cbv iota. change (secret (new_socket st)) with (secret st).
  rewrite Hv, Hp. reflexivity.
Qed.

Lemma complete_found (sid : SocketId) (id : jsval) (uid : ObjectId)
  (u : UserDoc) (st : State) :
  castObjectId id = Some (Some uid) ->
  get_user uid (users st) = Some u ->
  complete (AwaitUserFindById sid id) true st
  = await (AwaitStatusOnline sid uid (now st))
          (set_socket_user sid (without_password u) st).
Proof.
  intros Hc Hu. unfold complete, User_findById. rewrite Hc, Hu.
  simpl. rewrite (get_user_id _ _ _ Hu). reflexivity.
Qed.

Lemma complete_updated (sid : SocketId) (uid : ObjectId) (t : Z)
  (st : State) :
  complete (AwaitStatusOnline sid uid t) true st
  = onConnection sid
      (set_connected sid true
         (with_users (update_first uid (apply_update online None t)
                                   (users st)) st)).
Proof. reflexivity. Qed.

Lemma handshake_state (st : State) (token decoded id : jsval)
  (uid : ObjectId) (u : UserDoc) :
  truthy token = true ->
  jwt_verify token (secret st) = Ok decoded ->
  prop decoded "id" = Some id ->
  castObjectId id = Some (Some uid) ->
  get_user uid (users st) = Some u ->
  run (handshake token st) st
  = onConnection (next_sid st)
      (set_connected (next_sid st) true
         (with_users
            (update_first uid (apply_update online None (now st)) (users st))
            (with_pending (pending st)
               (await (AwaitStatusOnline (next_sid st) uid (now st))
                  (set_socket_user (next_sid st) (without_password u)
                     (with_pending (pending st)
                        (await (AwaitUserFindById (next_sid st) id)
                               (new_socket st)))))))).
Proof.
  intros Ht Hv Hp Hc Hu.
  unfold handshake.
  pose proof (step_Connect_verified _ _ _ _ Ht Hv Hp) as E1.
  rewrite run_cons_alive
    by (eapply exits_none; [rewrite E1; reflexivity | repeat constructor]).
  rewrite E1.
  assert (E2 : step (DbDone (next_tid st) true)
                    (await (AwaitUserFindById (next_sid st) id)
                           (new_socket st))
               = await (AwaitStatusOnline (next_sid st) uid (now st))
                   (set_socket_user (next_sid st) (without_password u)
                      (with_pending (pending st)
                         (await (AwaitUserFindById (next_sid st) id)
                                (new_socket st))))).
  { rewrite step_DbDone_await by reflexivity.
    rewrite (complete_found _ _ uid u _ Hc) by exact Hu. reflexivity. }
  rewrite run_cons_alive
    by (eapply exits_none; [rewrite E2; reflexivity | repeat constructor]).
  rewrite E2.
  assert (E3 : step (DbDone (N.succ (next_tid st)) true)
                 (await (AwaitStatusOnline (next_sid st) uid (now st))
                    (set_socket_user (next_sid st) (without_password u)
                       (with_pending (pending st)
                          (await (AwaitUserFindById (next_sid st) id)
                                 (new_socket st)))))
               = onConnection (next_sid st)
      (set_connected (next_sid st) true
         (with_users
            (update_first uid (apply_update online None (now st)) (users st))
            (with_pending (pending st)
               (await (AwaitStatusOnline (next_sid st) uid (now st))
                  (set_socket_user (next_sid st) (without_password u)
                     (with_pending (pending st)
                        (await (AwaitUserFindById (next_sid st) id)
                               (new_socket st))))))))).
  { rewrite step_DbDone_await by reflexivity.
    rewrite complete_updated. reflexivity. }
  rewrite run_cons_alive
    by (eapply exits_none; [rewrite E3; reflexivity | repeat constructor]).
  rewrite E3. reflexivity.
Qed.

(** The state after a handshake on which nothing goes wrong. *)
Lemma handshake_accepts (st : State) (token decoded id : jsval)
  (uid : ObjectId) (u : UserDoc) :
  truthy token = true ->
  jwt_verify token (secret st) = Ok decoded ->
  prop decoded "id" = Some id ->
  castObjectId id = Some (Some uid) ->
  get_user uid (users st) = Some u ->
  find_socket (next_sid st) st = None ->
  let sid := next_sid st in
  let tid := next_tid st in
  let st' := run (handshake token st) st in
  sockets st'
  = sockets st
    ++ [mkSocket sid (Some (without_password u)) true session_listeners]
  /\ users st'
     = update_first uid (apply_update online None (now st)) (users st)
  /\ messages st' = messages st
  /\ pending st' = (N.succ (N.succ tid), AwaitMessageFind sid) :: pending st
  /\ trace st'
     = trace st ++ [ Issued tid (AwaitUserFindById sid id);
                     Issued (N.succ tid) (AwaitStatusOnline sid uid (now st));
                     Issued (N.succ (N.succ tid)) (AwaitMessageFind sid) ]
  /\ now st' = now st
  /\ next_tid st' = N.succ (N.succ (N.succ tid)).
Proof.
  intros Ht Hv Hp Hc Hu Hfresh sid tid st'.
  unfold find_socket in Hfresh.
  subst st'. rewrite (handshake_state st token decoded id uid u Ht Hv Hp Hc Hu).
  subst sid tid.
  destruct st as [env t us ms ss ps nsid ntid noid tr].
  cbn [sockets next_sid] in Hfresh.
  split.
  { cbv [onConnection registerMessageHandlers handleLoadMessages socket_on
         set_connected with_users with_pending await set_socket_user
         new_socket update_socket with_sockets sockets users pending now
         trace messages next_sid next_tid next_oid JWT_SECRET].
    rewrite !map_app, !(map_update_fresh _ _ _ Hfresh).
    cbv [map s_id s_user s_connected s_listeners app].
    rewrite !N.eqb_refl. reflexivity. }
  split; [reflexivity|].
  split; [reflexivity|].
  split; [reflexivity|].
  split; [cbn; rewrite <- !app_assoc; reflexivity|].
  split; reflexivity.
Qed.

(** C10.  With [JWT_SECRET] unset the token is verified against the
    constant "your-secret-key": any token that verifies under that constant
    and whose subject is a stored user is accepted, when the lookup and the
    status update go through; the socket joins the namespace bound to that
    user and no refusal is written. *)
Theorem C10_fallback_secret (st : State) (token decoded id : jsval)
  (uid : ObjectId) (u : UserDoc) :
  JWT_SECRET st = None ->
  truthy token = true ->
  jwt_verify token "your-secret-key" = Ok decoded ->
  prop decoded "id" = Some id ->
  castObjectId id = Some (Some uid) ->
  get_user uid (users st) = Some u ->
  find_socket (next_sid st) st = None ->
  let sid := next_sid st in
  let tid := next_tid st in
  let st' := run (handshake token st) st in
  secret st = "your-secret-key"%string
  /\ find_socket sid st'
     = Some (mkSocket sid (Some (without_password u)) true session_listeners)
  /\ In sid (recipients st')
  /\ trace st'
     = trace st ++ [ Issued tid (AwaitUserFindById sid id);
                     Issued (N.succ tid) (AwaitStatusOnline sid uid (now st));
                     Issued (N.succ (N.succ tid)) (AwaitMessageFind sid) ].
Proof.
  intros Henv Ht Hv Hp Hc Hu Hfresh sid tid st'.
  assert (Hsecret : secret st = "your-secret-key"%string)
    by (unfold secret; rewrite Henv; reflexivity).
  rewrite <- Hsecret in Hv.
  destruct (handshake_accepts st token decoded id uid u Ht Hv Hp Hc Hu Hfresh)
    as (Hs & _ & _ & _ & Htr & _).
  fold sid tid st' in Hs, Htr.
  assert (Hfind : find_socket sid st'
    = Some (mkSocket sid (Some (without_password u)) true session_listeners)).
  { unfold find_socket. rewrite Hs.
    apply find_app_fresh; [exact Hfresh | reflexivity]. }
  split; [exact Hsecret|]. split; [exact Hfind|].
  split; [|exact Htr].
  apply recipients_connected. unfold socket_connected. rewrite Hfind.
  reflexivity.
Qed.

(* ------------------------------------------------------------------ *)
(** ** Order of the history replay and the sends of a session *)

Lemma replay_issued_app (sid : SocketId) (tr extra : list Obs) :
  replay_issued sid tr -> replay_issued sid (tr ++ extra).
Proof.
  intros [tid H]. exists tid. apply in_or_app. left. exact H.
Qed.

Lemma issued_before_sends_app (tr extra : list Obs) :
  issued_before_sends tr ->
  Forall (fun o => is_handled o = false) extra ->
  issued_before_sends (tr ++ extra).
Proof.
  intros Htr Hex n sid data Hn.
  rewrite firstn_app.
  destruct (Nat.lt_ge_cases n (List.length tr)) as [Hlt|Hge].
  - rewrite nth_error_app1 in Hn by exact Hlt.
    apply replay_issued_app. exact (Htr n sid data Hn).
  - rewrite nth_error_app2 in Hn by exact Hge.
    apply nth_error_In in Hn. rewrite Forall_forall in Hex.
    apply Hex in Hn. discriminate Hn.
Qed.

Lemma issued_before_sends_snoc (tr : list Obs) (sid : SocketId)
  (ev : string) (data : jsval) :
  issued_before_sends tr ->
  (ev = "message:send"%string -> replay_issued sid tr) ->
  issued_before_sends (tr ++ [Handled sid ev data]).
Proof.
  intros Htr Hsid n sid' data' Hn.
  rewrite firstn_app.
  destruct (Nat.lt_ge_cases n (List.length tr)) as [Hlt|Hge].
  - rewrite nth_error_app1 in Hn by exact Hlt.
    apply replay_issued_app. exact (Htr n sid' data' Hn).
  - rewrite nth_error_app2 in Hn by exact Hge.
    rewrite firstn_all2 by exact Hge.
    apply replay_issued_app.
    destruct (n - List.length tr)%nat as [|k]; simpl in Hn.
    + injection Hn as -> -> _. apply Hsid. reflexivity.
    + destruct k; discriminate Hn.
Qed.

Lemma quiet_refl (st : State) : quiet st st.
Proof.
  split.
  - exists []. split; [symmetry; apply app_nil_r | constructor].
  - intros s Hin Hl. left. exists s. repeat split; assumption.
Qed.

Lemma quiet_trans (st1 st2 st3 : State) :
  quiet st1 st2 -> quiet st2 st3 -> quiet st1 st3.
Proof.
  intros [[e1 [Ht1 Hf1]] Hs1] [[e2 [Ht2 Hf2]] Hs2]. split.
  - exists (e1 ++ e2). split.
    + rewrite Ht2, Ht1. symmetry. apply app_assoc.
    + apply Forall_app. split; assumption.
  - intros s3 Hin Hl.
    destruct (Hs2 s3 Hin Hl) as [[s2 [Hin2 [Hid Hl2]]]|Hr];
      [|right; exact Hr].
    destruct (Hs1 s2 Hin2 Hl2) as [[s1 [Hin1 [Hid1 Hl1]]]|Hr].
    + left. exists s1. repeat split; try assumption. congruence.
    + right. rewrite Ht2, <- Hid. apply replay_issued_app. exact Hr.
Qed.

(** A step that leaves the sockets alone and writes no listener call. *)
Lemma quiet_same_sockets (st st' : State) (extra : list Obs) :
  sockets st' = sockets st ->
  trace st' = trace st ++ extra ->
  Forall (fun o => is_handled o = false) extra ->
  quiet st st'.
Proof.
  intros Hs Ht Hf. split.
  - exists extra. split; assumption.
  - intros s Hin Hl. left. exists s. rewrite <- Hs.
    repeat split; assumption.
Qed.

Lemma Forall_sent (ev : ServerEvent) (l : list SocketId) :
  Forall (fun o => is_handled o = false) (map (fun r => Sent r ev) l).
Proof.
  apply Forall_forall. intros o Ho. apply in_map_iff in Ho.
  destruct Ho as [r [<- _]]. reflexivity.
Qed.

Lemma quiet_socket_emit (sid : SocketId) (ev : ServerEvent) (st : State) :
  quiet st (socket_emit sid ev st).
Proof.
  unfold socket_emit. destruct (socket_connected sid st);
    [|apply quiet_refl].
  apply (quiet_same_sockets _ _ [Sent sid ev]); try reflexivity.
  repeat constructor.
Qed.

Lemma quiet_io_emit (ev : ServerEvent) (st : State) :
  quiet st (io_emit ev st).
Proof.
  eapply quiet_same_sockets; [reflexivity | reflexivity | apply Forall_sent].
Qed.

Lemma quiet_socket_broadcast_emit (sid : SocketId) (ev : ServerEvent)
  (st : State) :
  quiet st (socket_broadcast_emit sid ev st).
Proof.
  eapply quiet_same_sockets; [reflexivity | reflexivity | apply Forall_sent].
Qed.

Lemma quiet_await (p : Pending) (st : State) : quiet st (await p st).
Proof.
  apply (quiet_same_sockets _ _ [Issued (next_tid st) p]); try reflexivity.
  repeat constructor.
Qed.

Lemma quiet_silent (st st' : State) :
  sockets st' = sockets st -> trace st' = trace st -> quiet st st'.
Proof.
  intros Hs Ht. apply (quiet_same_sockets _ _ []); try assumption.
  - rewrite app_nil_r. exact Ht.
  - constructor.
Qed.

(** Updates of socket objects that keep ids and listeners. *)
Lemma quiet_update_socket (sid : SocketId) (f : Socket -> Socket)
  (st : State) :
  (forall s, s_id (f s) = s_id s /\ s_listeners (f s) = s_listeners s) ->
  quiet st (update_socket sid f st).
Proof.
  intros Hf. split.
  - exists []. split; [symmetry; apply app_nil_r | constructor].
  - intros s' Hin Hl. left. simpl in Hin. apply in_map_iff in Hin.
    destruct Hin as [s [Hs Hin]]. exists s. split; [exact Hin|].
    destruct (s_id s =? sid)%N.
    + subst s'. destruct (Hf s) as [Hid Hls]. split; [symmetry; exact Hid|].
      unfold listening in *. rewrite <- Hls. exact Hl.
    + subst s'. split; [reflexivity | exact Hl].
Qed.

(** Registering a listener on a socket whose replay has been started. *)
Lemma quiet_socket_on (sid : SocketId) (ev : string) (st : State) :
  replay_issued sid (trace st) -> quiet st (socket_on sid ev st).
Proof.
  intros Hr. split.
  - exists []. split; [symmetry; apply app_nil_r | constructor].
  - intros s' Hin Hl. simpl in Hin. apply in_map_iff in Hin.
    destruct Hin as [s [Hs Hin]].
    destruct (s_id s =? sid)%N eqn:E.
    + right. subst s'. simpl. apply N.eqb_eq in E. rewrite E. exact Hr.
    + left. exists s. subst s'. repeat split; assumption.
Qed.

Lemma quiet_new_socket (st : State) : quiet st (new_socket st).
Proof.
  split.
  - exists []. split; [symmetry; apply app_nil_r | constructor].
  - intros s' Hin Hl. simpl in Hin. apply in_app_or in Hin.
    destruct Hin as [Hin|[<-|[]]].
    + left. exists s'. repeat split; assumption.
    + discriminate Hl.
Qed.

Lemma quiet_process_exit (st : State) : quiet st (process_exit st).
Proof.
  split.
  - exists [Exit]. split; [reflexivity | repeat constructor].
  - intros s' Hin Hl. left. simpl in Hin. apply in_map_iff in Hin.
    destruct Hin as [s [<- Hin]]. exists s.
    split; [exact Hin | split; [reflexivity | exact Hl]].
Qed.

Lemma quiet_onConnection (sid : SocketId) (st : State) :
  quiet st (onConnection sid st).
Proof.
  unfold onConnection, registerMessageHandlers, handleLoadMessages.
  assert (Hr : replay_issued sid (trace (await (AwaitMessageFind sid) st))).
  { exists (next_tid st). simpl. apply in_or_app. right. left. reflexivity. }
  repeat (eapply quiet_trans; [|apply quiet_socket_on; exact Hr]).
  apply quiet_await.
Qed.

Lemma quiet_next (sid : SocketId) (err : option string) (st : State) :
  quiet st (next sid err st).
Proof.
  unfold next. destruct err as [message|].
  - apply (quiet_same_sockets _ _ [Sent sid (connect_error message)]);
      try reflexivity.
    repeat constructor.
  - eapply quiet_trans; [|apply quiet_onConnection].
    apply quiet_update_socket. intros s. split; reflexivity.
Qed.

Lemma quiet_socketAuth_catch (sid : SocketId) (e : exn) (st : State) :
  quiet st (socketAuth_catch sid e st).
Proof.
  unfold socketAuth_catch.
  destruct (instanceof_TokenExpiredError e); [apply quiet_next|].
  destruct (instanceof_JsonWebTokenError e); apply quiet_next.
Qed.

Lemma quiet_socketAuth (sid : SocketId) (token : jsval) (st : State) :
  quiet st (socketAuth sid token st).
Proof.
  unfold socketAuth.
  destruct (negb (truthy token)); [apply quiet_next|].
  destruct (jwt_verify token (secret st)) as [decoded|e];
    [|apply quiet_socketAuth_catch].
  destruct (prop decoded "id");
    [apply quiet_await | apply quiet_socketAuth_catch].
Qed.

Lemma quiet_handleMessageSend (socket : Socket) (data : jsval) (st : State) :
  quiet st (handleMessageSend socket data st).
Proof.
  unfold handleMessageSend.
  destruct (prop data "content") as [content|]; [|apply quiet_process_exit].
  destruct (negb (truthy content) || _ || _); [apply quiet_socket_emit|].
  destruct content; try apply quiet_refl.
  destruct (1000 <? strlen s); [apply quiet_socket_emit|].
  destruct (s_user socket) as [user|]; [|apply quiet_socket_emit].
  unfold new_Message.
  destruct (Message_presave _ _).
  - eapply quiet_trans; [|apply quiet_await].
    apply quiet_silent; reflexivity.
  - eapply quiet_trans; [|apply quiet_socket_emit].
    apply quiet_silent; reflexivity.
Qed.

Lemma quiet_listener (ev : string) (socket : Socket) (data : jsval)
  (st : State) :
  quiet st (listener ev socket data st).
Proof.
  unfold listener, handleTypingIndicator.
  destruct (String.eqb ev "message:send"); [apply quiet_handleMessageSend|].
  destruct (String.eqb ev "user:typing:start");
    [destruct (s_user socket);
       [apply quiet_socket_broadcast_emit | apply quiet_process_exit]|].
  destruct (String.eqb ev "user:typing:stop");
    [destruct (s_user socket);
       [apply quiet_socket_broadcast_emit | apply quiet_process_exit]|].
  apply quiet_refl.
Qed.

Lemma quiet_complete (p : Pending) (ok : bool) (st : State) :
  quiet st (complete p ok st).
Proof.
  destruct p as [sid id|sid uid t|sid|sid m|sid uid t t']; unfold complete.
  - unfold socketAuth_found.
    destruct (User_findById id ok st) as [[user|]|e].
    + eapply quiet_trans; [|apply quiet_await].
      apply quiet_update_socket. intros s. split; reflexivity.
    + apply quiet_next.
    + apply quiet_socketAuth_catch.
  - unfold User_findByIdAndUpdate, socketAuth_updated.
    destruct (negb ok).
    + apply quiet_socketAuth_catch.
    + eapply quiet_trans; [|apply quiet_next].
      apply quiet_silent; reflexivity.
  - unfold handleLoadMessages_resume.
    destruct (Message_find_sort_limit_select ok st);
      apply quiet_socket_emit.
  - unfold Message_insert, handleMessageSend_resume.
    destruct (negb ok); [apply quiet_socket_emit|].
    eapply quiet_trans; [|apply quiet_io_emit].
    apply quiet_silent; reflexivity.
  - unfold User_findByIdAndUpdate, onDisconnect_resume.
    destruct (negb ok); [apply quiet_process_exit|].
    apply quiet_silent; reflexivity.
Qed.

Lemma replay_invariant_quiet (st st' : State) :
  replay_invariant st -> quiet st st' -> replay_invariant st'.
Proof.
  intros [I1 I2] [[extra [Ht Hf]] Hs]. split.
  - intros s' Hin Hl.
    destruct (Hs s' Hin Hl) as [[s [Hin0 [Hid Hl0]]]|Hr]; [|exact Hr].
    rewrite Ht, <- Hid. apply replay_issued_app. exact (I1 s Hin0 Hl0).
  - rewrite Ht. apply issued_before_sends_app; assumption.
Qed.

Lemma replay_invariant_step (l : Label) (st : State) :
  replay_invariant st -> replay_invariant (step l st).
Proof.
  intros Hinv.
  destruct l as [token|sid ev data|sid|tid ok|t]; unfold step.
  - apply (replay_invariant_quiet st); [exact Hinv|].
    eapply quiet_trans; [apply quiet_new_socket | apply quiet_socketAuth].
  - destruct (find_socket sid st) as [socket|] eqn:Hf; [|exact Hinv].
    destruct (s_connected socket && listening ev socket) eqn:Hc;
      [|exact Hinv].
    apply andb_true_iff in Hc. destruct Hc as [_ Hl].
    apply (replay_invariant_quiet (log [Handled sid ev data] st));
      [|apply quiet_listener].
    destruct Hinv as [I1 I2].
    assert (Hr : ev = "message:send"%string -> replay_issued sid (trace st)).
    { intros ->. rewrite <- (find_socket_id _ _ _ Hf).
      apply I1; [|exact Hl].
      unfold find_socket in Hf. apply find_some in Hf. exact (proj1 Hf). }
    split.
    + intros s Hin Hls. simpl. apply replay_issued_app.
      exact (I1 s Hin Hls).
    + simpl. apply issued_before_sends_snoc; assumption.
  - destruct (find_socket sid st) as [socket|]; [|exact Hinv].
    destruct (s_connected socket); [|exact Hinv].
    apply (replay_invariant_quiet st); [exact Hinv|].
    assert (Hq : quiet st (set_connected sid false st)).
    { apply quiet_update_socket. intros s. split; reflexivity. }
    destruct (listening "disconnect" socket); [|exact Hq].
    eapply quiet_trans; [exact Hq|].
    unfold onDisconnect. destruct (s_user socket);
      [apply quiet_await | apply quiet_refl].
  - destruct (take_pending tid (pending st)) as [[p rest]|]; [|exact Hinv].
    apply (replay_invariant_quiet st); [exact Hinv|].
    eapply quiet_trans; [|apply quiet_complete].
    apply quiet_silent; reflexivity.
  - apply (replay_invariant_quiet st); [exact Hinv|].
    apply quiet_silent; reflexivity.
Qed.

Lemma replay_invariant_run (ls : list Label) (st : State) :
  replay_invariant st -> replay_invariant (run ls st).
Proof.
  apply run_invariant. exact replay_invariant_step.
Qed.

(** C7, as the code has it.  From a server start (no sockets yet, nothing
    observed yet), whatever happens: when the [message:send] listener of a
    socket is called, the history query of that socket has been started
    before.  Nothing is said of the query's end. *)
Theorem C7_replay_issued_before_sends (st0 : State) (ls : list Label) :
  sockets st0 = [] ->
  trace st0 = [] ->
  issued_before_sends (trace (run ls st0)).
Proof.
  intros Hs Ht.
  apply (replay_invariant_run ls st0). split.
  - rewrite Hs. intros s [].
  - rewrite Ht. intros n sid data Hn. destruct n; discriminate Hn.
Qed.

(* ------------------------------------------------------------------ *)
(** ** History replay on any store *)

(** X1.  When the history query of a connected socket succeeds, the server
    writes exactly one [message:history] to that socket and to no other.
    The batch is the six-field view of at most 50 stored messages
    (min 50 n of n), in ascending order of send time; the messages it leaves
    out are those sent last.  Nothing is stored or changed. *)
Theorem X1_history_replay_batch (st : State) (tid : TaskId) (sid : SocketId)
  (rest : list (TaskId * Pending)) :
  take_pending tid (pending st) = Some (AwaitMessageFind sid, rest) ->
  socket_connected sid st = true ->
  let st' := step (DbDone tid true) st in
  exists batch left_out,
    trace st' = trace st ++ [Sent sid (message_history (map view batch))]
    /\ List.length batch = Nat.min 50 (List.length (messages st))
    /\ StronglySorted by_timestamp batch
    /\ Permutation (batch ++ left_out) (messages st)
    /\ (forall a b, In a batch -> In b left_out ->
                    m_timestamp a <= m_timestamp b)
    /\ messages st' = messages st
    /\ users st' = users st
    /\ pending st' = rest.
Proof.
  intros Htake Hlive st'.
  exists (firstn 50 (sort_by_timestamp (messages st))),
         (skipn 50 (sort_by_timestamp (messages st))).
  destruct (history_query_is_oldest (messages st)) as (_ & Hs & Hp & Hle).
  assert (Hstep : st' = log [Sent sid (message_history
                    (map view (firstn 50 (sort_by_timestamp (messages st)))))]
                    (with_pending rest st)).
  { subst st'. unfold step. rewrite Htake.
    unfold complete, handleLoadMessages_resume,
      Message_find_sort_limit_select.
    simpl negb. cbv iota.
    rewrite socket_emit_live by exact Hlive. reflexivity. }
  rewrite Hstep.
  split; [reflexivity|].
  split.
  { rewrite length_firstn.
    rewrite (Permutation_length (sort_by_timestamp_perm (messages st))).
    reflexivity. }
  split; [exact Hs|]. split; [exact Hp|]. split; [exact Hle|].
  repeat split; reflexivity.
Qed.

(** X2.  When the history query of a connected socket fails, the server
    writes exactly one [message:error] "Failed to load message history" to
    that socket and to no other; nothing is stored, changed or retried. *)
Theorem X2_history_replay_failure (st : State) (tid : TaskId)
  (sid : SocketId) (rest : list (TaskId * Pending)) :
  take_pending tid (pending st) = Some (AwaitMessageFind sid, rest) ->
  socket_connected sid st = true ->
  let st' := step (DbDone tid false) st in
  trace st' = trace st
              ++ [Sent sid (message_error "Failed to load message history")]
  /\ messages st' = messages st
  /\ users st' = users st
  /\ pending st' = rest.
Proof.
  intros Htake Hlive st'. subst st'. unfold step. rewrite Htake.
  unfold complete, handleLoadMessages_resume, Message_find_sort_limit_select.
  simpl negb. cbv iota.
  rewrite socket_emit_live by exact Hlive.
  repeat split; reflexivity.
Qed.

(* ------------------------------------------------------------------ *)
(** ** What a step writes *)

Lemma idle_refl (st : State) : idle st st.
Proof.
  repeat split. exists []. split; [symmetry; apply app_nil_r | reflexivity].
Qed.

Lemma idle_trans (st1 st2 st3 : State) :
  idle st1 st2 -> idle st2 st3 -> idle st1 st3.
Proof.
  intros (Hm1 & Hu1 & e1 & Ht1 & Hf1) (Hm2 & Hu2 & e2 & Ht2 & Hf2).
  split; [congruence|]. split; [congruence|].
  exists (e1 ++ e2). split.
  - rewrite Ht2, Ht1. symmetry. apply app_assoc.
  - rewrite filter_app, Hf1, Hf2. reflexivity.
Qed.

Lemma idle_same (st st' : State) (extra : list Obs) :
  messages st' = messages st ->
  users st' = users st ->
  trace st' = trace st ++ extra ->
  filter is_message_new extra = [] ->
  idle st st'.
Proof.
  intros Hm Hu Ht Hf. split; [exact Hm|]. split; [exact Hu|].
  exists extra. split; assumption.
Qed.

Lemma idle_silent (st st' : State) :
  messages st' = messages st -> users st' = users st ->
  trace st' = trace st -> idle st st'.
Proof.
  intros Hm Hu Ht. apply (idle_same st st' []); try assumption.
  - rewrite app_nil_r. exact Ht.
  - reflexivity.
Qed.

Lemma filter_news_sent (ev : ServerEvent) (l : list SocketId) :
  (forall v, ev <> message_new v) ->
  filter is_message_new (map (fun r => Sent r ev) l) = [].
Proof.
  intros Hev. induction l as [|r l IH]; simpl; [reflexivity|].
  destruct ev; try exact IH. exfalso. exact (Hev m eq_refl).
Qed.

Lemma filter_news_broadcast (doc : MessageDoc) (st : State) :
  filter is_message_new (broadcast_of doc st) = broadcast_of doc st.
Proof.
  unfold broadcast_of. induction (recipients st) as [|r l IH]; simpl;
    [reflexivity | rewrite IH; reflexivity].
Qed.

Lemma idle_socket_emit (sid : SocketId) (ev : ServerEvent) (st : State) :
  (forall v, ev <> message_new v) -> idle st (socket_emit sid ev st).
Proof.
  intros Hev. unfold socket_emit.
  destruct (socket_connected sid st); [|apply idle_refl].
  apply (idle_same _ _ [Sent sid ev]); try reflexivity.
  exact (filter_news_sent ev [sid] Hev).
Qed.

Lemma idle_socket_broadcast_emit (sid : SocketId) (ev : ServerEvent)
  (st : State) :
  (forall v, ev <> message_new v) -> idle st (socket_broadcast_emit sid ev st).
Proof.
  intros Hev. eapply idle_same; try reflexivity.
  apply filter_news_sent. exact Hev.
Qed.

Lemma idle_await (p : Pending) (st : State) : idle st (await p st).
Proof.
  apply (idle_same _ _ [Issued (next_tid st) p]); reflexivity.
Qed.

Lemma idle_process_exit (st : State) : idle st (process_exit st).
Proof. apply (idle_same _ _ [Exit]); reflexivity. Qed.

Lemma idle_onConnection (sid : SocketId) (st : State) :
  idle st (onConnection sid st).
Proof.
  apply (idle_same _ _ [Issued (next_tid st) (AwaitMessageFind sid)]);
    reflexivity.
Qed.

Lemma idle_next (sid : SocketId) (err : option string) (st : State) :
  idle st (next sid err st).
Proof.
  unfold next. destruct err as [message|].
  - apply (idle_same _ _ [Sent sid (connect_error message)]); reflexivity.
  - apply (idle_trans _ (set_connected sid true st));
      [apply idle_silent; reflexivity | apply idle_onConnection].
Qed.

Lemma idle_socketAuth_catch (sid : SocketId) (e : exn) (st : State) :
  idle st (socketAuth_catch sid e st).
Proof.
  unfold socketAuth_catch.
  destruct (instanceof_TokenExpiredError e); [apply idle_next|].
  destruct (instanceof_JsonWebTokenError e); apply idle_next.
Qed.

Lemma idle_socketAuth (sid : SocketId) (token : jsval) (st : State) :
  idle st (socketAuth sid token st).
Proof.
  unfold socketAuth.
  destruct (negb (truthy token)); [apply idle_next|].
  destruct (jwt_verify token (secret st)) as [decoded|e];
    [|apply idle_socketAuth_catch].
  destruct (prop decoded "id");
    [apply idle_await | apply idle_socketAuth_catch].
Qed.

Lemma idle_handleMessageSend (socket : Socket) (data : jsval) (st : State) :
  idle st (handleMessageSend socket data st).
Proof.
  unfold handleMessageSend.
  destruct (prop data "content") as [content|]; [|apply idle_process_exit].
  destruct (negb (truthy content) || _ || _);
    [apply idle_socket_emit; discriminate|].
  destruct content; try apply idle_refl.
  destruct (1000 <? strlen s); [apply idle_socket_emit; discriminate|].
  destruct (s_user socket) as [user|];
    [|apply idle_socket_emit; discriminate].
  unfold new_Message.
  destruct (Message_presave _ _).
  - eapply idle_trans; [|apply idle_await].
    apply idle_silent; reflexivity.
  - eapply idle_trans; [|apply idle_socket_emit; discriminate].
    apply idle_silent; reflexivity.
Qed.

Lemma idle_listener (ev : string) (socket : Socket) (data : jsval)
  (st : State) :
  idle st (listener ev socket data st).
Proof.
  unfold listener, handleTypingIndicator.
  destruct (String.eqb ev "message:send"); [apply idle_handleMessageSend|].
  destruct (String.eqb ev "user:typing:start");
    [destruct (s_user socket);
       [apply idle_socket_broadcast_emit; discriminate
       |apply idle_process_exit]|].
  destruct (String.eqb ev "user:typing:stop");
    [destruct (s_user socket);
       [apply idle_socket_broadcast_emit; discriminate
       |apply idle_process_exit]|].
  apply idle_refl.
Qed.

Lemma idle_footprint (st st' : State) :
  idle st st' ->
  messages st' = messages st ++ []
  /\ users st' = users st
  /\ filter is_message_new (trace st')
     = filter is_message_new (trace st) ++ [].
Proof.
  intros (Hm & Hu & extra & Ht & Hf).
  rewrite !app_nil_r. split; [exact Hm|]. split; [exact Hu|].
  rewrite Ht, filter_app, Hf. apply app_nil_r.
Qed.

(** What one step does to the two collections and which [message:new]
    events it writes. *)
Lemma step_footprint (l : Label) (st : State) :
  messages (step l st) = messages st ++ inserted l st
  /\ users (step l st) = presence_write l st
  /\ filter is_message_new (trace (step l st))
     = filter is_message_new (trace st)
       ++ flat_map (fun doc => broadcast_of doc st) (inserted l st).
Proof.
  destruct l as [token|sid ev data|sid|tid ok|t].
  - apply idle_footprint. unfold step.
    eapply idle_trans; [|apply idle_socketAuth].
    apply idle_silent; reflexivity.
  - apply idle_footprint. unfold step.
    destruct (find_socket sid st) as [socket|]; [|apply idle_refl].
    destruct (s_connected socket && listening ev socket); [|apply idle_refl].
    eapply idle_trans; [|apply idle_listener].
    apply (idle_same _ _ [Handled sid ev data]); reflexivity.
  - apply idle_footprint. unfold step.
    destruct (find_socket sid st) as [socket|]; [|apply idle_refl].
    destruct (s_connected socket); [|apply idle_refl].
    assert (Hq : idle st (set_connected sid false st))
      by (apply idle_silent; reflexivity).
    destruct (listening "disconnect" socket); [|exact Hq].
    eapply idle_trans; [exact Hq|].
    unfold onDisconnect. destruct (s_user socket);
      [apply idle_await | apply idle_refl].
  - unfold step, inserted, presence_write.
    destruct (take_pending tid (pending st)) as [[p rest]|].
    2:{ destruct ok; apply idle_footprint, idle_refl. }
    assert (Hq : idle st (with_pending rest st))
      by (apply idle_silent; reflexivity).
    destruct p as [sid id|sid uid stamp|sid|sid doc|sid uid lastSeen stamp];
      unfold complete.
    + assert (Hi : idle st (socketAuth_found sid
                              (User_findById id ok (with_pending rest st))
                              (with_pending rest st))).
      { eapply idle_trans; [exact Hq|]. unfold socketAuth_found.
        destruct (User_findById id ok (with_pending rest st)) as [[u|]|e].
        - eapply idle_trans; [|apply idle_await].
          apply idle_silent; reflexivity.
        - apply idle_next.
        - apply idle_socketAuth_catch. }
      destruct ok; apply idle_footprint; exact Hi.
    + destruct ok; unfold User_findByIdAndUpdate; simpl negb; cbv iota;
        unfold socketAuth_updated.
      * destruct (idle_next sid None
                    (with_users
                       (update_first uid (apply_update online None stamp)
                                     (users (with_pending rest st)))
                       (with_pending rest st)))
          as (Hm & Hu & extra & Ht & Hf).
        rewrite Hm, Hu, Ht. simpl. rewrite !app_nil_r.
        split; [reflexivity|]. split; [reflexivity|].
        rewrite filter_app, Hf. apply app_nil_r.
      * apply idle_footprint.
        eapply idle_trans; [exact Hq | apply idle_socketAuth_catch].
    + assert (Hi : idle st (handleLoadMessages_resume sid
                              (Message_find_sort_limit_select ok
                                 (with_pending rest st))
                              (with_pending rest st))).
      { eapply idle_trans; [exact Hq|]. unfold handleLoadMessages_resume.
        destruct (Message_find_sort_limit_select ok (with_pending rest st));
          apply idle_socket_emit; discriminate. }
      destruct ok; apply idle_footprint; exact Hi.
    + destruct ok; unfold Message_insert; simpl negb; cbv iota;
        unfold handleMessageSend_resume.
      * unfold io_emit. simpl. rewrite app_nil_r.
        split; [reflexivity|]. split; [reflexivity|].
        rewrite filter_app. f_equal.
        exact (filter_news_broadcast doc st).
      * apply idle_footprint.
        eapply idle_trans; [exact Hq|].
        apply idle_socket_emit. discriminate.
    + destruct ok; unfold User_findByIdAndUpdate; simpl negb; cbv iota;
        unfold onDisconnect_resume.
      * simpl. rewrite !app_nil_r. repeat split; reflexivity.
      * apply idle_footprint.
        eapply idle_trans; [exact Hq | apply idle_process_exit].
  - apply idle_footprint. unfold step. apply idle_silent; reflexivity.
Qed.

Lemma messages_run (ls : list Label) (st : State) :
  exists more, messages (run ls st) = messages st ++ more.
Proof.
  apply (run_invariant
           (fun s => exists more, messages s = messages st ++ more)).
  - intros l s [more Hmore]. exists (more ++ inserted l s).
    rewrite (proj1 (step_footprint l s)), Hmore. symmetry. apply app_assoc.
  - exists []. symmetry. apply app_nil_r.
Qed.

(** X3.  The Message collection is append-only.  A step adds a record only
    when the store carries out a pending write, and then exactly the record
    of that write, at the end; along any run the collection the run started
    with stays in place as a prefix.  No event removes, changes or reorders a
    stored message. *)
Theorem X3_store_append_only :
  (forall l st, messages (step l st) = messages st ++ inserted l st)
  /\ (forall ls st, exists more, messages (run ls st) = messages st ++ more).
Proof.
  split.
  - intros l st. exact (proj1 (step_footprint l st)).
  - exact messages_run.
Qed.

Lemma identity_of_update_first (uid : ObjectId) (status : Status)
  (lastSeen : option Z) (stamp : Z) (us : list UserDoc) :
  map identity_of (update_first uid (apply_update status lastSeen stamp) us)
  = map identity_of us.
Proof.
  induction us as [|u r IH]; simpl; [reflexivity|].
  destruct (u_id u =? uid)%N; simpl; [reflexivity|].
  rewrite IH. reflexivity.
Qed.

Lemma identity_of_presence_write (l : Label) (st : State) :
  map identity_of (presence_write l st) = map identity_of (users st).
Proof.
  unfold presence_write. destruct l as [| | |tid ok|]; try reflexivity.
  destruct ok; [|reflexivity].
  destruct (take_pending tid (pending st)) as [[p rest]|]; [|reflexivity].
  destruct p; try reflexivity; apply identity_of_update_first.
Qed.

(** X4.  The User collection is written only by the status update of a
    handshake and the status update of a disconnect, when the store carries
    them out.  Along any run no user is created or deleted and no id,
    username, email, password or creation time changes. *)
Theorem X4_users_only_presence_changes :
  (forall l st, users (step l st) = presence_write l st)
  /\ (forall ls st, map identity_of (users (run ls st))
                    = map identity_of (users st)).
Proof.
  split.
  - intros l st. exact (proj1 (proj2 (step_footprint l st))).
  - intros ls st.
    apply (run_invariant
             (fun s => map identity_of (users s)
                       = map identity_of (users st))); [|reflexivity].
    intros l s H. rewrite (proj1 (proj2 (step_footprint l s))), <- H.
    apply identity_of_presence_write.
Qed.

Lemma news_in_filter (r : SocketId) (v : MessageView) (tr : list Obs) :
  In (Sent r (message_new v)) tr
  <-> In (Sent r (message_new v)) (filter is_message_new tr).
Proof.
  rewrite filter_In. split; [intros H; split; [exact H | reflexivity]|].
  intros [H _]. exact H.
Qed.

Lemma broadcasts_stored_step (l : Label) (st : State) :
  broadcasts_stored st -> broadcasts_stored (step l st).
Proof.
  intros Hst r v Hin.
  destruct (step_footprint l st) as (Hm & _ & Hn).
  apply news_in_filter in Hin. rewrite Hn in Hin.
  apply in_app_or in Hin. destruct Hin as [Hin|Hin].
  - apply news_in_filter in Hin. destruct (Hst r v Hin) as [m [Hm1 Hm2]].
    exists m. split; [|exact Hm2]. rewrite Hm. apply in_or_app. left.
    exact Hm1.
  - apply in_flat_map in Hin. destruct Hin as [doc [Hdoc Hin]].
    unfold broadcast_of in Hin. apply in_map_iff in Hin.
    destruct Hin as [r' [Heq _]]. injection Heq as _ Hv.
    exists doc. split; [|exact Hv]. rewrite Hm. apply in_or_app. right.
    exact Hdoc.
Qed.

(** X5.  Nothing is broadcast that is not stored: if every [message:new]
    written so far carries a stored record, this is so after any run. *)
Theorem X5_broadcasts_are_stored (ls : list Label) (st : State) :
  broadcasts_stored st -> broadcasts_stored (run ls st).
Proof.
  apply run_invariant. exact broadcasts_stored_step.
Qed.

(* ------------------------------------------------------------------ *)
(** ** What is pending and what is stored *)

Lemma take_pending_in (tid : TaskId) (ps rest : list (TaskId * Pending))
  (p : Pending) :
  take_pending tid ps = Some (p, rest) -> In (tid, p) ps.
Proof.
  revert rest. induction ps as [|[t q] r IH]; simpl; intros rest H.
  - discriminate H.
  - destruct (t =? tid)%N eqn:E.
    + apply N.eqb_eq in E. injection H as <- _. left. rewrite E. reflexivity.
    + destruct (take_pending tid r) as [[q' r']|]; [|discriminate H].
      injection H as <- _. right. exact (IH r' eq_refl).
Qed.

Lemma pending_grows_refl (P : Pending -> Prop) (st : State) :
  pending_grows P st st.
Proof. intros x H. left. exact H. Qed.

Lemma pending_grows_trans (P : Pending -> Prop) (st1 st2 st3 : State) :
  pending_grows P st1 st2 -> pending_grows P st2 st3 ->
  pending_grows P st1 st3.
Proof.
  intros H1 H2 x Hx. destruct (H2 x Hx) as [H|H]; [exact (H1 x H)|].
  right. exact H.
Qed.

Lemma pending_grows_weaken (P Q : Pending -> Prop) (st st' : State) :
  (forall p, P p -> Q p) -> pending_grows P st st' -> pending_grows Q st st'.
Proof.
  intros HPQ H x Hx. destruct (H x Hx) as [Ho|Hp]; [left; exact Ho|].
  right. exact (HPQ _ Hp).
Qed.

Lemma pending_grows_same (P : Pending -> Prop) (st st' : State) :
  pending st' = pending st -> pending_grows P st st'.
Proof. intros E x H. left. rewrite <- E. exact H. Qed.

Lemma pending_grows_await (P : Pending -> Prop) (p : Pending) (st : State) :
  P p -> pending_grows P st (await p st).
Proof.
  intros Hp x Hx. simpl in Hx. destruct Hx as [<-|Hx];
    [right; exact Hp | left; exact Hx].
Qed.

Lemma pending_grows_socket_emit (P : Pending -> Prop) (sid : SocketId)
  (ev : ServerEvent) (st : State) :
  pending_grows P st (socket_emit sid ev st).
Proof.
  unfold socket_emit. destruct (socket_connected sid st);
    apply pending_grows_same; reflexivity.
Qed.

Lemma frame_refl (st : State) : frame st st.
Proof. repeat split. apply pending_grows_refl. Qed.

Lemma frame_trans (st1 st2 st3 : State) :
  frame st1 st2 -> frame st2 st3 -> frame st1 st3.
Proof.
  intros (Hs1 & Hn1 & Hp1) (Hs2 & Hn2 & Hp2).
  split; [congruence|]. split; [congruence|].
  exact (pending_grows_trans _ _ _ _ Hp1 Hp2).
Qed.

Lemma frame_same (st st' : State) :
  sockets st' = sockets st -> next_sid st' = next_sid st ->
  pending st' = pending st -> frame st st'.
Proof.
  intros Hs Hn Hp. split; [exact Hs|]. split; [exact Hn|].
  apply pending_grows_same. exact Hp.
Qed.

Lemma frame_socket_emit (sid : SocketId) (ev : ServerEvent) (st : State) :
  frame st (socket_emit sid ev st).
Proof.
  unfold socket_emit. destruct (socket_connected sid st);
    apply frame_same; reflexivity.
Qed.

Lemma frame_await (p : Pending) (st : State) :
  benign p -> frame st (await p st).
Proof.
  intros Hp. split; [reflexivity|]. split; [reflexivity|].
  apply pending_grows_await. exact Hp.
Qed.

Lemma Message_presave_valid (userId : ObjectId) (name content : jsstring)
  (t : Z) (st st' : State) (doc : MessageDoc) :
  Message_presave (fst (new_Message userId name content t st)) st' = Ok doc ->
  message_valid doc.
Proof.
  unfold Message_presave, new_Message, Message_validate. simpl.
  destruct (negb (strlen (trim name) =? 0)) eqn:Hn; simpl; [|discriminate].
  destruct (negb (strlen (trim content) =? 0)) eqn:Hc; simpl; [|discriminate].
  destruct (strlen (trim content) <=? 1000) eqn:Hl; simpl; [|discriminate].
  intros H. injection H as <-. unfold message_valid. simpl.
  apply negb_true_iff, Z.eqb_neq in Hn, Hc. apply Z.leb_le in Hl.
  rewrite !trim_idempotent.
  assert (0 <= strlen (trim name) /\ 0 <= strlen (trim content))
    by (unfold strlen; lia).
  repeat split; try reflexivity; lia.
Qed.

Lemma pending_grows_process_exit (P : Pending -> Prop) (st : State) :
  pending_grows P st (process_exit st).
Proof. intros x []. Qed.

(** A listener leaves the socket objects alone and starts benign tasks
    only, or it ends the process. *)
Lemma frame_handleMessageSend (socket : Socket) (data : jsval) (st : State) :
  frame st (handleMessageSend socket data st)
  \/ handleMessageSend socket data st = process_exit st.
Proof.
  unfold handleMessageSend.
  destruct (prop data "content") as [content|]; [left|right; reflexivity].
  destruct (negb (truthy content) || _ || _); [apply frame_socket_emit|].
  destruct content; try apply frame_refl.
  destruct (1000 <? strlen s); [apply frame_socket_emit|].
  destruct (s_user socket) as [user|]; [|apply frame_socket_emit].
  destruct (new_Message (u_id user) (u_username user) (trim s) (now st) st)
    as [message st1] eqn:Enew.
  assert (Hst1 : frame st st1).
  { unfold new_Message in Enew. injection Enew as _ <-.
    apply frame_same; reflexivity. }
  destruct (Message_presave message st1) as [doc|e] eqn:Epre.
  - eapply frame_trans; [exact Hst1|]. apply frame_await. simpl.
    apply (Message_presave_valid (u_id user) (u_username user) (trim s)
             (now st) st st1 doc).
    rewrite Enew. exact Epre.
  - eapply frame_trans; [exact Hst1 | apply frame_socket_emit].
Qed.

Lemma frame_listener (ev : string) (socket : Socket) (data : jsval)
  (st : State) :
  frame st (listener ev socket data st)
  \/ listener ev socket data st = process_exit st.
Proof.
  unfold listener, handleTypingIndicator.
  destruct (String.eqb ev "message:send"); [apply frame_handleMessageSend|].
  destruct (String.eqb ev "user:typing:start");
    [destruct (s_user socket);
       [left; apply frame_same; reflexivity | right; reflexivity]|].
  destruct (String.eqb ev "user:typing:stop");
    [destruct (s_user socket);
       [left; apply frame_same; reflexivity | right; reflexivity]|].
  left. apply frame_refl.
Qed.

Lemma benign_harmless (p : Pending) : benign p -> harmless p.
Proof. destruct p; simpl; intros H; try exact I; exact H. Qed.

Lemma pending_grows_next (P : Pending -> Prop) (sid : SocketId)
  (err : option string) (st : State) :
  P (AwaitMessageFind sid) -> pending_grows P st (next sid err st).
Proof.
  intros HP. unfold next. destruct err as [message|].
  - apply pending_grows_same. reflexivity.
  - intros x Hx. simpl in Hx. destruct Hx as [<-|Hx];
      [right; exact HP | left; exact Hx].
Qed.

Lemma pending_grows_socketAuth_catch (P : Pending -> Prop) (sid : SocketId)
  (e : exn) (st : State) :
  pending_grows P st (socketAuth_catch sid e st).
Proof.
  unfold socketAuth_catch.
  destruct (instanceof_TokenExpiredError e);
    [apply pending_grows_same; reflexivity|].
  destruct (instanceof_JsonWebTokenError e);
    apply pending_grows_same; reflexivity.
Qed.

Lemma pending_grows_with_pending (P : Pending -> Prop) (tid : TaskId)
  (p : Pending) (rest : list (TaskId * Pending)) (st : State) :
  take_pending tid (pending st) = Some (p, rest) ->
  pending_grows P st (with_pending rest st).
Proof.
  intros Htake x Hx. left. exact (take_pending_incl _ _ _ _ Htake x Hx).
Qed.

(** Whatever happens, a write that becomes pending is a write of a valid
    record. *)
Lemma pending_grows_step (l : Label) (st : State) :
  pending_grows harmless st (step l st).
Proof.
  destruct l as [token|sid ev data|sid|tid ok|t]; unfold step.
  - unfold socketAuth.
    destruct (negb (truthy token)); [apply pending_grows_same; reflexivity|].
    destruct (jwt_verify token (secret (new_socket st))) as [decoded|e].
    + destruct (prop decoded "id").
      * apply (pending_grows_trans _ _ (new_socket st));
          [apply pending_grows_same; reflexivity|].
        apply pending_grows_await. exact I.
      * apply (pending_grows_trans _ _ (new_socket st));
          [apply pending_grows_same; reflexivity|].
        apply pending_grows_socketAuth_catch.
    + apply (pending_grows_trans _ _ (new_socket st));
        [apply pending_grows_same; reflexivity|].
      apply pending_grows_socketAuth_catch.
  - destruct (find_socket sid st) as [socket|]; [|apply pending_grows_refl].
    destruct (s_connected socket && listening ev socket);
      [|apply pending_grows_refl].
    apply (pending_grows_weaken benign); [exact benign_harmless|].
    apply (pending_grows_trans _ _ (log [Handled sid ev data] st));
      [apply pending_grows_same; reflexivity|].
    destruct (frame_listener ev socket data (log [Handled sid ev data] st))
      as [Hf| ->]; [apply Hf | apply pending_grows_process_exit].
  - destruct (find_socket sid st) as [socket|]; [|apply pending_grows_refl].
    destruct (s_connected socket); [|apply pending_grows_refl].
    destruct (listening "disconnect" socket);
      [|apply pending_grows_same; reflexivity].
    unfold onDisconnect. destruct (s_user socket);
      [|apply pending_grows_same; reflexivity].
    apply (pending_grows_trans _ _ (set_connected sid false st));
      [apply pending_grows_same; reflexivity|].
    apply pending_grows_await. exact I.
  - destruct (take_pending tid (pending st)) as [[p rest]|] eqn:Htake;
      [|apply pending_grows_refl].
    apply (pending_grows_trans _ _ (with_pending rest st));
      [exact (pending_grows_with_pending _ _ _ _ _ Htake)|].
    destruct p as [sid id|sid uid stamp|sid|sid doc|sid uid lastSeen stamp];
      unfold complete.
    + unfold socketAuth_found.
      destruct (User_findById id ok (with_pending rest st)) as [[u|]|e].
      * apply (pending_grows_trans _ _
                 (set_socket_user sid u (with_pending rest st)));
          [apply pending_grows_same; reflexivity|].
        apply pending_grows_await. exact I.
      * apply pending_grows_same. reflexivity.
      * apply pending_grows_socketAuth_catch.
    + unfold User_findByIdAndUpdate, socketAuth_updated.
      destruct (negb ok); [apply pending_grows_socketAuth_catch|].
      eapply pending_grows_trans;
        [|apply pending_grows_next; exact I].
      apply pending_grows_same. reflexivity.
    + unfold handleLoadMessages_resume.
      destruct (Message_find_sort_limit_select ok (with_pending rest st));
        apply pending_grows_socket_emit.
    + unfold Message_insert, handleMessageSend_resume.
      destruct (negb ok); [apply pending_grows_socket_emit|].
      apply pending_grows_same. reflexivity.
    + unfold User_findByIdAndUpdate, onDisconnect_resume.
      destruct (negb ok);
        [apply pending_grows_process_exit
        |apply pending_grows_same; reflexivity].
  - apply pending_grows_same. reflexivity.
Qed.

Lemma store_invariant_step (l : Label) (st : State) :
  store_invariant st -> store_invariant (step l st).
Proof.
  intros [Hm Hp]. split.
  - rewrite (proj1 (step_footprint l st)). apply Forall_app. split; [exact Hm|].
    unfold inserted. destruct l as [| | |tid ok|]; try constructor.
    destruct ok; [|constructor].
    destruct (take_pending tid (pending st)) as [[p rest]|] eqn:Htake;
      [|constructor].
    destruct p; try constructor; [|constructor].
    exact (Hp tid sid message (take_pending_in _ _ _ _ Htake)).
  - intros tid sid doc Hin.
    destruct (pending_grows_step l st _ Hin) as [Hold|Hnew].
    + exact (Hp tid sid doc Hold).
    + exact Hnew.
Qed.

(** X6.  From a store of valid messages with only valid writes pending,
    every message stored after any run is valid: its content is trimmed,
    not empty and at most 1000 code units long, and its username is trimmed
    and not empty. *)
Theorem X6_stored_messages_valid (ls : list Label) (st : State) :
  store_invariant st -> Forall message_valid (messages (run ls st)).
Proof.
  intros H. enough (Hinv : store_invariant (run ls st)) by exact (proj1 Hinv).
  revert H. apply run_invariant. exact store_invariant_step.
Qed.

(* ------------------------------------------------------------------ *)
(** ** Sessions *)

Lemma session_invariant_same (st st' : State) :
  sockets st' = sockets st -> pending st' = pending st ->
  next_sid st' = next_sid st ->
  session_invariant st -> session_invariant st'.
Proof.
  intros Hs Hp Hn (A & B & C). unfold session_invariant.
  rewrite Hs, Hp, Hn. split; [exact A | split; [exact B | exact C]].
Qed.

Lemma session_invariant_frame (st st' : State) :
  session_invariant st -> frame st st' -> session_invariant st'.
Proof.
  intros (A & B & C) (Hs & Hn & Hp). unfold session_invariant.
  rewrite Hs, Hn. split; [exact A|]. split.
  - intros tid sid id Hin. destruct (Hp _ Hin) as [Hold|[]].
    exact (B tid sid id Hold).
  - intros tid sid uid stamp Hin. destruct (Hp _ Hin) as [Hold|[]].
    exact (C tid sid uid stamp Hold).
Qed.

Lemma session_invariant_shrink (st : State) (tid : TaskId) (p : Pending)
  (rest : list (TaskId * Pending)) :
  take_pending tid (pending st) = Some (p, rest) ->
  session_invariant st -> session_invariant (with_pending rest st).
Proof.
  intros Htake (A & B & C). split; [exact A|]. split.
  - intros t sid id Hin.
    exact (B t sid id (take_pending_incl _ _ _ _ Htake _ Hin)).
  - intros t sid uid stamp Hin.
    exact (C t sid uid stamp (take_pending_incl _ _ _ _ Htake _ Hin)).
Qed.

Lemma session_invariant_new_socket (st : State) :
  session_invariant st -> session_invariant (new_socket st).
Proof.
  intros (A & B & C). split; [|split].
  - intros s Hin Hc. simpl in Hin. apply in_app_or in Hin.
    destruct Hin as [Hin|[<-|[]]]; [exact (A s Hin Hc) | discriminate Hc].
  - intros tid sid id Hin. simpl. specialize (B tid sid id Hin). lia.
  - intros tid sid uid stamp Hin.
    destruct (C tid sid uid stamp Hin) as [Hlt Hu].
    split; [simpl; lia|].
    intros s Hs Hid. simpl in Hs. apply in_app_or in Hs.
    destruct Hs as [Hs|[<-|[]]]; [exact (Hu s Hs Hid)|].
    simpl in Hid. lia.
Qed.

Lemma session_invariant_await_find (sid : SocketId) (id : jsval)
  (st : State) :
  (sid < next_sid st)%N ->
  session_invariant st ->
  session_invariant (await (AwaitUserFindById sid id) st).
Proof.
  intros Hlt (A & B & C). split; [exact A|]. split.
  - intros t sid' id' Hin. simpl in Hin.
    destruct Hin as [Heq|Hin]; [injection Heq as _ <- _; exact Hlt|].
    exact (B t sid' id' Hin).
  - intros t sid' uid stamp Hin. simpl in Hin.
    destruct Hin as [Heq|Hin]; [discriminate Heq|].
    exact (C t sid' uid stamp Hin).
Qed.

Lemma in_update_socket (sid : SocketId) (f : Socket -> Socket) (st : State)
  (s' : Socket) :
  In s' (sockets (update_socket sid f st)) ->
  exists s, In s (sockets st)
            /\ s' = (if (s_id s =? sid)%N then f s else s).
Proof.
  simpl. intros H. apply in_map_iff in H. destruct H as [s [Heq Hin]].
  exists s. split; [exact Hin | symmetry; exact Heq].
Qed.

Lemma session_invariant_bind (sid : SocketId) (u : UserDoc) (stamp : Z)
  (st : State) :
  (sid < next_sid st)%N ->
  session_invariant st ->
  session_invariant
    (await (AwaitStatusOnline sid (u_id u) stamp) (set_socket_user sid u st)).
Proof.
  intros Hlt (A & B & C). split; [|split].
  - intros s' Hin Hc.
    destruct (in_update_socket _ _ _ _ Hin) as [s [Hs ->]].
    destruct (s_id s =? sid)%N.
    + simpl in Hc. destruct (A s Hs Hc) as [_ Hl].
      split; [discriminate | exact Hl].
    + exact (A s Hs Hc).
  - intros t sid' id' Hin. simpl in Hin.
    destruct Hin as [Heq|Hin]; [discriminate Heq|].
    exact (B t sid' id' Hin).
  - intros t sid' uid stamp' Hin. simpl in Hin.
    destruct Hin as [Heq|Hin].
    + injection Heq as _ <- _ _. split; [exact Hlt|].
      intros s' Hs' Hid.
      destruct (in_update_socket _ _ _ _ Hs') as [s [Hs ->]].
      destruct (s_id s =? sid)%N eqn:E; [discriminate|].
      apply N.eqb_neq in E. contradiction.
    + destruct (C t sid' uid stamp' Hin) as [Hlt' Hu].
      split; [exact Hlt'|].
      intros s' Hs' Hid.
      destruct (in_update_socket _ _ _ _ Hs') as [s [Hs ->]].
      destruct (s_id s =? sid)%N; [discriminate|].
      exact (Hu s Hs Hid).
Qed.

Lemma update_update (sid : SocketId) (f g : Socket -> Socket)
  (l : list Socket) :
  (forall s, s_id (g s) = s_id s) ->
  map (fun s => if (s_id s =? sid)%N then f s else s)
      (map (fun s => if (s_id s =? sid)%N then g s else s) l)
  = map (fun s => if (s_id s =? sid)%N then f (g s) else s) l.
Proof.
  intros Hg. rewrite map_map. apply map_ext. intros s.
  destruct (s_id s =? sid)%N eqn:E; [rewrite Hg, E | rewrite E]; reflexivity.
Qed.

Lemma sockets_socket_on (sid : SocketId) (ev : string) (st : State) :
  sockets (socket_on sid ev st)
  = map (fun s => if (s_id s =? sid)%N
                  then mkSocket (s_id s) (s_user s) (s_connected s)
                                (s_listeners s ++ [ev])
                  else s)
        (sockets st).
Proof. reflexivity. Qed.

Lemma sockets_onConnection (sid : SocketId) (st : State) :
  sockets (onConnection sid (set_connected sid true st))
  = map (fun s =>
           if (s_id s =? sid)%N
           then mkSocket (s_id s) (s_user s) true
                         (s_listeners s ++ session_listeners)
           else s)
        (sockets st).
Proof.
  unfold onConnection, registerMessageHandlers. cbv zeta.
  rewrite !sockets_socket_on.
  change (sockets (handleLoadMessages sid (set_connected sid true st)))
    with (map (fun s => if (s_id s =? sid)%N
                        then mkSocket (s_id s) (s_user s) true (s_listeners s)
                        else s) (sockets st)).
  repeat (rewrite update_update by (intros; reflexivity)).
  apply map_ext. intros s.
  destruct (s_id s =? sid)%N; [|reflexivity].
  cbn [s_id s_user s_connected s_listeners].
  rewrite <- !app_assoc. reflexivity.
Qed.

Lemma listening_session_listeners (s : Socket) (l : list string) (ev : string) :
  s_listeners s = l ++ session_listeners ->
  In ev session_listeners -> listening ev s = true.
Proof.
  intros Hl Hin. unfold listening. rewrite Hl, existsb_app.
  apply orb_true_iff. right. apply existsb_exists. exists ev.
  split; [exact Hin | apply String.eqb_refl].
Qed.

Lemma session_invariant_connect (sid : SocketId) (st : State) :
  (forall s, In s (sockets st) -> s_id s = sid -> s_user s <> None) ->
  session_invariant st ->
  session_invariant (next sid None st).
Proof.
  intros Huser (A & B & C). unfold next. split; [|split].
  - intros s' Hin Hc. rewrite sockets_onConnection in Hin.
    apply in_map_iff in Hin. destruct Hin as [s [<- Hs]].
    destruct (s_id s =? sid)%N eqn:E.
    + apply N.eqb_eq in E. split; [exact (Huser s Hs E)|].
      intros ev Hev.
      eapply listening_session_listeners; [reflexivity | exact Hev].
    + exact (A s Hs Hc).
  - intros t sid' id' Hin. simpl in Hin.
    destruct Hin as [Heq|Hin]; [discriminate Heq|].
    exact (B t sid' id' Hin).
  - intros t sid' uid stamp Hin. simpl in Hin.
    destruct Hin as [Heq|Hin]; [discriminate Heq|].
    destruct (C t sid' uid stamp Hin) as [Hlt Hu].
    split; [exact Hlt|].
    intros s' Hs' Hid. rewrite sockets_onConnection in Hs'.
    apply in_map_iff in Hs'. destruct Hs' as [s [<- Hs]].
    destruct (s_id s =? sid)%N; [exact (Hu s Hs Hid) | exact (Hu s Hs Hid)].
Qed.

Lemma session_invariant_disconnect (sid : SocketId) (st : State) :
  session_invariant st -> session_invariant (set_connected sid false st).
Proof.
  intros (A & B & C). split; [|split].
  - intros s' Hin Hc.
    destruct (in_update_socket _ _ _ _ Hin) as [s [Hs ->]].
    destruct (s_id s =? sid)%N; [discriminate Hc | exact (A s Hs Hc)].
  - exact B.
  - intros t sid' uid stamp Hin.
    destruct (C t sid' uid stamp Hin) as [Hlt Hu].
    split; [exact Hlt|].
    intros s' Hs' Hid.
    destruct (in_update_socket _ _ _ _ Hs') as [s [Hs ->]].
    destruct (s_id s =? sid)%N; exact (Hu s Hs Hid).
Qed.

Lemma session_invariant_catch (sid : SocketId) (e : exn) (st : State) :
  session_invariant st -> session_invariant (socketAuth_catch sid e st).
Proof.
  unfold socketAuth_catch.
  destruct (instanceof_TokenExpiredError e);
    [apply session_invariant_same; reflexivity|].
  destruct (instanceof_JsonWebTokenError e);
    apply session_invariant_same; reflexivity.
Qed.

Lemma session_invariant_process_exit (st : State) :
  session_invariant st -> session_invariant (process_exit st).
Proof.
  intros (A & B & C). split; [|split].
  - intros s' Hin Hc. simpl in Hin. apply in_map_iff in Hin.
    destruct Hin as [s [<- _]]. discriminate Hc.
  - intros tid sid id [].
  - intros tid sid uid stamp [].
Qed.

Lemma session_invariant_step (l : Label) (st : State) :
  session_invariant st -> session_invariant (step l st).
Proof.
  intros Hinv.
  destruct l as [token|sid ev data|sid|tid ok|t]; unfold step.
  - pose proof (session_invariant_new_socket st Hinv) as Hnew.
    assert (Hlt : (next_sid st < next_sid (new_socket st))%N)
      by (simpl; lia).
    unfold socketAuth.
    destruct (negb (truthy token));
      [revert Hnew; apply session_invariant_same; reflexivity|].
    destruct (jwt_verify token (secret (new_socket st))) as [decoded|e];
      [|apply session_invariant_catch; exact Hnew].
    destruct (prop decoded "id");
      [|apply session_invariant_catch; exact Hnew].
    apply session_invariant_await_find; assumption.
  - destruct (find_socket sid st) as [socket|]; [|exact Hinv].
    destruct (s_connected socket && listening ev socket); [|exact Hinv].
    assert (Hlog : session_invariant (log [Handled sid ev data] st))
      by (revert Hinv; apply session_invariant_same; reflexivity).
    destruct (frame_listener ev socket data (log [Handled sid ev data] st))
      as [Hf| ->].
    + exact (session_invariant_frame _ _ Hlog Hf).
    + apply session_invariant_process_exit. exact Hlog.
  - destruct (find_socket sid st) as [socket|]; [|exact Hinv].
    destruct (s_connected socket); [|exact Hinv].
    pose proof (session_invariant_disconnect sid st Hinv) as Hoff.
    destruct (listening "disconnect" socket); [|exact Hoff].
    unfold onDisconnect. destruct (s_user socket); [|exact Hoff].
    apply (session_invariant_frame (set_connected sid false st));
      [exact Hoff|].
    apply frame_await. exact I.
  - destruct (take_pending tid (pending st)) as [[p rest]|] eqn:Htake;
      [|exact Hinv].
    pose proof (session_invariant_shrink st tid p rest Htake Hinv) as Hrest.
    pose proof (take_pending_in _ _ _ _ Htake) as Hin.
    destruct Hinv as (A & B & C).
    destruct p as [sid id|sid uid stamp|sid|sid doc|sid uid lastSeen stamp];
      unfold complete.
    + unfold socketAuth_found.
      destruct (User_findById id ok (with_pending rest st)) as [[u|]|e].
      * apply session_invariant_bind; [|exact Hrest].
        exact (B tid sid id Hin).
      * revert Hrest. apply session_invariant_same; reflexivity.
      * apply session_invariant_catch. exact Hrest.
    + unfold User_findByIdAndUpdate, socketAuth_updated.
      destruct (negb ok); [apply session_invariant_catch; exact Hrest|].
      apply session_invariant_connect.
      * exact (proj2 (C tid sid uid stamp Hin)).
      * revert Hrest. apply session_invariant_same; reflexivity.
    + apply (session_invariant_frame (with_pending rest st)); [exact Hrest|].
      unfold handleLoadMessages_resume.
      destruct (Message_find_sort_limit_select ok (with_pending rest st));
        apply frame_socket_emit.
    + apply (session_invariant_frame (with_pending rest st)); [exact Hrest|].
      unfold Message_insert, handleMessageSend_resume.
      destruct (negb ok); [apply frame_socket_emit|].
      apply frame_same; reflexivity.
    + unfold User_findByIdAndUpdate, onDisconnect_resume.
      destruct (negb ok);
        [apply session_invariant_process_exit; exact Hrest|].
      revert Hrest. apply session_invariant_same; reflexivity.
  - revert Hinv. apply session_invariant_same; reflexivity.
Qed.

Lemma session_invariant_run (ls : list Label) (st : State) :
  session_invariant st -> session_invariant (run ls st).
Proof.
  apply run_invariant. exact session_invariant_step.
Qed.

(** X7.  From a server start (no socket, nothing pending), whatever
    happens: every socket in the namespace has its user bound and listens to
    [message:send], both typing events, [disconnect] and [error].  No
    socket takes part in the chat without having passed [socketAuth]. *)
Theorem X7_connected_sockets_are_ready (st0 : State) (ls : list Label)
  (s : Socket) :
  sockets st0 = [] ->
  pending st0 = [] ->
  In s (sockets (run ls st0)) ->
  s_connected s = true ->
  session_ready s.
Proof.
  intros Hs Hp Hin Hc.
  assert (Hinv : session_invariant st0).
  { unfold session_invariant. rewrite Hs, Hp.
    repeat split; intros; contradiction. }
  exact (proj1 (session_invariant_run ls st0 Hinv) s Hin Hc).
Qed.

(* ------------------------------------------------------------------ *)
(** ** Disconnects *)

Lemma find_update_other (sid sid' : SocketId) (f : Socket -> Socket)
  (l : list Socket) :
  sid' <> sid ->
  find (fun s => (s_id s =? sid')%N)
       (map (fun s => if (s_id s =? sid)%N then f s else s) l)
  = find (fun s => (s_id s =? sid')%N) l
    \/ exists s, s_id s = sid /\ s_id (f s) = sid'.
Proof.
  intros Hne. induction l as [|x r IH]; simpl; [left; reflexivity|].
  destruct (s_id x =? sid)%N eqn:E.
  - destruct (s_id (f x) =? sid')%N eqn:E'.
    + right. exists x. split; apply N.eqb_eq; assumption.
    + apply N.eqb_eq in E.
      assert (Hx : (s_id x =? sid')%N = false)
        by (apply N.eqb_neq; congruence).
      rewrite Hx. exact IH.
  - destruct (s_id x =? sid')%N; [left; reflexivity | exact IH].
Qed.

Lemma socket_connected_after_disconnect (sid sid' : SocketId) (st : State) :
  sid' <> sid ->
  socket_connected sid' (set_connected sid false st)
  = socket_connected sid' st.
Proof.
  intros Hne. unfold socket_connected, find_socket, set_connected,
    update_socket. cbn [sockets with_sockets].
  destruct (find_update_other sid sid' 
              (fun s => mkSocket (s_id s) (s_user s) false (s_listeners s))
              (sockets st) Hne) as [->|[s [H1 H2]]]; [reflexivity|].
  simpl in H2. congruence.
Qed.

Lemma step_Disconnect (sid : SocketId) (st : State) (socket : Socket)
  (user : UserDoc) :
  find_socket sid st = Some socket ->
  s_connected socket = true ->
  listening "disconnect" socket = true ->
  s_user socket = Some user ->
  step (Disconnect sid) st
  = await (AwaitStatusOffline sid (u_id user) (now st) (now st))
          (set_connected sid false st).
Proof.
  intros Hf Hc Hl Hu. unfold step. rewrite Hf, Hc, Hl.
  unfold onDisconnect. rewrite Hu, (find_socket_id _ _ _ Hf). reflexivity.
Qed.

(** X8.  Presence is last-writer-wins.  When one of two live sessions of
    the same user disconnects and its update goes through, the user is
    stored as offline, with [lastSeen] the time of the disconnect, although
    the other session is still connected. *)
Theorem X8_disconnect_ignores_other_sessions (st : State)
  (sid sid' : SocketId) (socket socket' : Socket) (user user' u0 : UserDoc) :
  find_socket sid st = Some socket ->
  s_connected socket = true ->
  listening "disconnect" socket = true ->
  s_user socket = Some user ->
  sid' <> sid ->
  find_socket sid' st = Some socket' ->
  s_connected socket' = true ->
  s_user socket' = Some user' ->
  u_id user' = u_id user ->
  get_user (u_id user) (users st) = Some u0 ->
  let st' := run [Disconnect sid; DbDone (next_tid st) true] st in
  (exists u1, get_user (u_id user') (users st') = Some u1
              /\ u_status u1 = offline /\ u_lastSeen u1 = now st)
  /\ socket_connected sid' st' = true
  /\ In sid' (recipients st').
Proof.
  intros Hf Hc Hl Hu Hne Hf' Hc' Hu' Hid Hg st'. rewrite Hid.
  assert (E : st' =
    with_users
      (update_first (u_id user) (apply_update offline (Some (now st)) (now st))
                    (users st))
      (with_pending (pending st)
         (await (AwaitStatusOffline sid (u_id user) (now st) (now st))
                (set_connected sid false st)))).
  { subst st'.
    pose proof (step_Disconnect _ _ _ _ Hf Hc Hl Hu) as E1.
    alive E1.
    assert (E2 : step (DbDone (next_tid st) true)
                   (await (AwaitStatusOffline sid (u_id user) (now st)
                                              (now st))
                          (set_connected sid false st))
                 = with_users
                     (update_first (u_id user)
                        (apply_update offline (Some (now st)) (now st))
                        (users st))
                     (with_pending (pending st)
                        (await (AwaitStatusOffline sid (u_id user) (now st)
                                                   (now st))
                               (set_connected sid false st))))
      by (rewrite step_DbDone_await by reflexivity; reflexivity).
    alive E2. reflexivity. }
  assert (Hlive : socket_connected sid' st' = true).
  { rewrite E.
    change (socket_connected sid' (set_connected sid false st) = true).
    rewrite (socket_connected_after_disconnect _ _ _ Hne).
    exact (socket_connected_of _ _ _ Hf' Hc'). }
  split; [|split; [exact Hlive | exact (recipients_connected _ _ Hlive)]].
  eexists. split; [|split].
  - rewrite E. cbn [users with_users].
    apply get_user_update_first; [reflexivity | exact Hg].
  - reflexivity.
  - reflexivity.
Qed.

(** X9.  The offline update of a disconnect is not guarded: when the store
    fails it, the rejection of the listener is unhandled and the process
    ends.  The user keeps the status it had, nothing is written to any
    client, every connection is closed, nothing stays pending, and whatever
    comes next finds no process. *)
Theorem X9_failed_offline_update_ends_process (st : State) (sid : SocketId)
  (socket : Socket) (user : UserDoc) (ls : list Label) :
  find_socket sid st = Some socket ->
  s_connected socket = true ->
  listening "disconnect" socket = true ->
  s_user socket = Some user ->
  let st' := run (Disconnect sid :: DbDone (next_tid st) false :: ls) st in
  users st' = users st
  /\ messages st' = messages st
  /\ trace st'
     = trace st ++ [Issued (next_tid st)
                           (AwaitStatusOffline sid (u_id user) (now st)
                                               (now st));
                    Exit]
  /\ recipients st' = []
  /\ pending st' = [].
Proof.
  intros Hf Hc Hl Hu st'.
  assert (E : st' =
    process_exit
      (with_pending (pending st)
         (await (AwaitStatusOffline sid (u_id user) (now st) (now st))
                (set_connected sid false st)))).
  { subst st'.
    pose proof (step_Disconnect _ _ _ _ Hf Hc Hl Hu) as E1.
    alive E1.
    assert (E2 : step (DbDone (next_tid st) false)
                   (await (AwaitStatusOffline sid (u_id user) (now st)
                                              (now st))
                          (set_connected sid false st))
                 = process_exit
                     (with_pending (pending st)
                        (await (AwaitStatusOffline sid (u_id user) (now st)
                                                   (now st))
                               (set_connected sid false st))))
      by (rewrite step_DbDone_await by reflexivity; reflexivity).
    rewrite run_cons_exit; [exact E2|].
    rewrite (exits_of_trace _ _ [Exit]); [reflexivity|].
    rewrite E2. reflexivity. }
  rewrite E. split; [reflexivity|]. split; [reflexivity|].
  split; [simpl; rewrite <- app_assoc; reflexivity|].
  split; [apply recipients_process_exit | reflexivity].
Qed.

(** X10.  A write whose sender has left in the meantime: when it succeeds,
    the record is stored and broadcast to the sockets that are connected
    then, the sender not among them; when it fails, the error has nobody to
    go to and nothing is written at all. *)
Theorem X10_write_completes_after_sender_left (st : State) (tid : TaskId)
  (sid : SocketId) (doc : MessageDoc) (rest : list (TaskId * Pending)) :
  take_pending tid (pending st) = Some (AwaitMessageSave sid doc, rest) ->
  ~ In sid (recipients st) ->
  (messages (step (DbDone tid true) st) = messages st ++ [doc]
   /\ trace (step (DbDone tid true) st) = trace st ++ broadcast_of doc st
   /\ forall ev, ~ In (Sent sid ev) (broadcast_of doc st))
  /\ (messages (step (DbDone tid false) st) = messages st
      /\ trace (step (DbDone tid false) st) = trace st).
Proof.
  intros Htake Hgone.
  assert (Hoff : socket_connected sid st = false).
  { destruct (socket_connected sid st) eqn:E; [|reflexivity].
    exfalso. exact (Hgone (recipients_connected _ _ E)). }
  split.
  - unfold step. rewrite Htake. unfold complete, Message_insert.
    simpl. split; [reflexivity|]. split; [reflexivity|].
    intros ev Hin. unfold broadcast_of in Hin. apply in_map_iff in Hin.
    destruct Hin as [r [Heq Hr]]. injection Heq as -> _. exact (Hgone Hr).
  - unfold step. rewrite Htake. unfold complete, Message_insert.
    simpl negb. cbv iota. unfold handleMessageSend_resume.
    rewrite socket_emit_gone by exact Hoff. split; reflexivity.
Qed.

(* ------------------------------------------------------------------ *)
(** ** The HTTP middleware *)

Lemma split_no_sep (sep : N) (s : jsstring) :
  Forall (fun c => c <> sep) s -> split sep s = [s].
Proof.
  induction 1 as [|c r Hc Hr IH]; simpl; [reflexivity|].
  apply N.eqb_neq in Hc. rewrite Hc, IH. reflexivity.
Qed.

Lemma split_app_sep (sep : N) (a b : jsstring) :
  Forall (fun c => c <> sep) a ->
  split sep (a ++ sep :: b) = a :: split sep b.
Proof.
  induction 1 as [|c r Hc Hr IH]; simpl.
  - rewrite N.eqb_refl. reflexivity.
  - apply N.eqb_neq in Hc. rewrite Hc, IH. reflexivity.
Qed.

Lemma split_second (sep : N) (scheme tok rest : jsstring) :
  Forall (fun c => c <> sep) scheme ->
  Forall (fun c => c <> sep) tok ->
  rest = [] \/ (exists r, rest = sep :: r) ->
  exists more, split sep (scheme ++ sep :: tok ++ rest) = scheme :: tok :: more.
Proof.
  intros Hs Ht Hrest. rewrite (split_app_sep _ _ _ Hs).
  destruct Hrest as [->|[r ->]].
  - rewrite app_nil_r, (split_no_sep _ _ Ht). exists []. reflexivity.
  - rewrite (split_app_sep _ _ _ Ht). exists (split sep r). reflexivity.
Qed.

Lemma startsWith_app (s t prefix : jsstring) :
  startsWith s prefix = true -> startsWith (s ++ t) prefix = true.
Proof.
  revert s. induction prefix as [|p ps IH]; intros s H;
    [destruct (s ++ t); reflexivity|].
  destruct s as [|c cs]; simpl in *; [discriminate H|].
  apply andb_true_iff in H. destruct H as [Hc Hcs].
  rewrite Hc. exact (IH cs Hcs).
Qed.

Lemma truthy_nonempty (s : jsstring) : s <> [] -> truthy (JString s) = true.
Proof.
  intros H. simpl. rewrite (strlen_nonzero _ H). reflexivity.
Qed.

(** [protect] on a header whose second piece is [tok]. *)
Lemma protect_token (header first tok : jsstring) (more : list jsstring)
  (st : State) :
  startsWith header (js "Bearer") = true ->
  split 32 header = first :: tok :: more ->
  protect (Some header) st
  = if negb (truthy (JString tok))
    then ProtectDone (Answered 401 "Not authorized, no token")
    else match jwt_verify (JString tok) (secret st) with
         | Throw _ => ProtectDone (Answered 401 "Not authorized, token failed")
         | Ok decoded =>
             match prop decoded "id" with
             | None =>
                 ProtectDone (Answered 401 "Not authorized, token failed")
             | Some id => ProtectAwait id
             end
         end.
Proof.
  intros Hb Hs. unfold protect. rewrite Hb, Hs.
  assert (Ht : truthy (JString header) = true).
  { apply truthy_nonempty. intros ->. discriminate Hb. }
  rewrite Ht. reflexivity.
Qed.

(** X11.  From a header made of a first word that starts with [Bearer], one
    space, a token without spaces, and then nothing or a space and anything,
    [protect] takes exactly the token: the request is decided by the
    verification of that token alone.  The first word need not be [Bearer]
    itself, and what follows the token is ignored. *)
Theorem X11_protect_takes_second_word (scheme tok rest : jsstring)
  (st : State) :
  startsWith scheme (js "Bearer") = true ->
  Forall (fun c => c <> 32%N) scheme ->
  Forall (fun c => c <> 32%N) tok ->
  tok <> [] ->
  rest = [] \/ (exists r, rest = 32%N :: r) ->
  protect (Some (scheme ++ 32%N :: tok ++ rest)) st
  = match jwt_verify (JString tok) (secret st) with
    | Throw _ => ProtectDone (Answered 401 "Not authorized, token failed")
    | Ok decoded =>
        match prop decoded "id" with
        | None => ProtectDone (Answered 401 "Not authorized, token failed")
        | Some id => ProtectAwait id
        end
    end.
Proof.
  intros Hb Hs Ht Hne Hrest.
  destruct (split_second 32 scheme tok rest Hs Ht Hrest) as [more Hsplit].
  etransitivity;
    [exact (protect_token _ scheme tok more st
              (startsWith_app _ _ _ Hb) Hsplit)|].
  rewrite (truthy_nonempty _ Hne). reflexivity.
Qed.

(** X12.  Without a header, with a header that does not start with
    [Bearer], with one that has no space, or with one that has nothing
    between its first space and the next, [protect] answers 401
    "Not authorized, no token"; neither the verifier nor the store decides
    anything. *)
Theorem X12_protect_no_token (authorization : option jsstring) (st : State) :
  NoBearerToken authorization ->
  protect authorization st
  = ProtectDone (Answered 401 "Not authorized, no token").
Proof.
  intros H. destruct H as [|header Hb|header Hs|scheme rest Hs Hrest].
  - reflexivity.
  - unfold protect. rewrite Hb, andb_false_r. reflexivity.
  - unfold protect. rewrite (split_no_sep _ _ Hs).
    destruct (truthy (JString header) && startsWith header (js "Bearer"));
      reflexivity.
  - unfold protect. rewrite (split_app_sep _ _ _ Hs).
    destruct (truthy (JString (scheme ++ 32%N :: rest))
              && startsWith (scheme ++ 32%N :: rest) (js "Bearer"));
      [|reflexivity].
    destruct Hrest as [->|[r ->]]; simpl; reflexivity.
Qed.

(** X13.  The two authenticators part on a verified token whose subject is
    no stored user: [protect] lets the request through with [req.user]
    null, while [socketAuth] refuses the connection with "User not found". *)
Theorem X13_unknown_subject_passes_protect (tok : jsstring)
  (decoded id : jsval) (st : State) :
  tok <> [] ->
  Forall (fun c => c <> 32%N) tok ->
  jwt_verify (JString tok) (secret st) = Ok decoded ->
  prop decoded "id" = Some id ->
  User_findById id true st = Ok None ->
  protect_request (Some (js "Bearer " ++ tok)) true st st = NextCalled None
  /\ trace (run [Connect (JString tok); DbDone (next_tid st) true] st)
     = trace st ++ [ Issued (next_tid st)
                            (AwaitUserFindById (next_sid st) id);
                     Sent (next_sid st) (connect_error "User not found") ].
Proof.
  intros Hne Ht Hv Hp Hfind. split.
  - unfold protect_request.
    change (js "Bearer " ++ tok) with (js "Bearer" ++ 32%N :: tok).
    assert (Hscheme : Forall (fun c => c <> 32%N) (js "Bearer")).
    { repeat constructor; discriminate. }
    destruct (split_second 32 (js "Bearer") tok [] Hscheme Ht
                (or_introl eq_refl)) as [more Hsplit].
    rewrite app_nil_r in Hsplit.
    pose proof (protect_token (js "Bearer" ++ 32%N :: tok) _ tok more st
                  (startsWith_app (js "Bearer") (32%N :: tok) (js "Bearer")
                                  eq_refl)
                  Hsplit) as E.
    rewrite (truthy_nonempty _ Hne), Hv, Hp in E. simpl negb in E.
    cbv iota in E.
    replace (protect (Some (js "Bearer" ++ 32%N :: tok)) st)
      with (ProtectAwait id) by (symmetry; exact E).
    rewrite Hfind. reflexivity.
  - pose proof (step_Connect_verified _ _ _ _ (truthy_nonempty _ Hne) Hv Hp)
      as E1.
    alive E1.
    assert (E2 : step (DbDone (next_tid st) true)
                   (await (AwaitUserFindById (next_sid st) id)
                          (new_socket st))
                 = log [Sent (next_sid st) (connect_error "User not found")]
                       (with_pending (pending st)
                          (await (AwaitUserFindById (next_sid st) id)
                                 (new_socket st)))).
    { rewrite step_DbDone_await by reflexivity.
      unfold complete.
      match goal with
      | |- context [User_findById id true ?S] =>
          change (User_findById id true S) with (User_findById id true st)
      end.
      rewrite Hfind. reflexivity. }
    alive E2. simpl. rewrite <- app_assoc. reflexivity.
Qed.

(** X14.  [protect] lets a request through only when its header starts with
    [Bearer], the second piece of the header verifies under the secret, the
    payload has a readable id and the lookup resolves; the user it puts on
    the request, if any, is a stored user without the password.  Everything
    else is answered 401. *)
Theorem X14_protect_passes_only_verified (authorization : option jsstring)
  (ok : bool) (st st' : State) :
  (exists message, protect_request authorization ok st st'
                   = Answered 401 message)
  \/ exists header first tok more decoded id u,
       protect_request authorization ok st st' = NextCalled u
       /\ authorization = Some header
       /\ startsWith header (js "Bearer") = true
       /\ split 32 header = first :: tok :: more
       /\ jwt_verify (JString tok) (secret st) = Ok decoded
       /\ prop decoded "id" = Some id
       /\ User_findById id ok st' = Ok u
       /\ forall user, u = Some user ->
            u_password user = None
            /\ exists stored, In stored (users st')
                              /\ user = without_password stored.
Proof.
  unfold protect_request, protect.
  destruct authorization as [header|]; [|left; eexists; reflexivity].
  destruct (truthy (JString header)) eqn:Ht; simpl andb;
    [|left; eexists; reflexivity].
  destruct (startsWith header (js "Bearer")) eqn:Hb;
    [|left; eexists; reflexivity].
  destruct (split 32 header) as [|first [|tok more]] eqn:Hs;
    try (left; eexists; reflexivity).
  destruct (negb (truthy (JString tok))); [left; eexists; reflexivity|].
  destruct (jwt_verify (JString tok) (secret st)) as [decoded|e] eqn:Hv;
    [|left; eexists; reflexivity].
  destruct (prop decoded "id") as [id|] eqn:Hp; [|left; eexists; reflexivity].
  destruct (User_findById id ok st') as [u|e] eqn:Hf;
    [|left; eexists; reflexivity].
  right. exists header, first, tok, more, decoded, id, u.
  repeat (split; [reflexivity || assumption|]).
  intros user ->. unfold User_findById in Hf.
  destruct (castObjectId id) as [[uid|]|]; try discriminate Hf;
    destruct (negb ok); try discriminate Hf.
  injection Hf as Hf.
  destruct (get_user uid (users st')) as [stored|] eqn:Hg;
    [|discriminate Hf].
  injection Hf as <-. split; [reflexivity|].
  exists stored. split; [|reflexivity].
  unfold get_user in Hg. apply find_some in Hg. exact (proj1 Hg).
Qed.

(* ------------------------------------------------------------------ *)
(** ** Connecting to the store *)

(** X15.  What [connectDB] does to mongoose.  It connects only to the URI it
    was given, only when that URI is truthy and the connection is not
    ready, and at most once; it closes only a connection that is neither
    idle nor ready, and before it connects; when the close fails it does
    not connect.  A new connection is returned exactly when the connect
    went through and is then logged; every error of mongoose is logged and
    thrown again, while a missing URI is thrown without a log. *)
Theorem X15_connectDB_calls (uri : jsval) (readyState : N)
  (close_ok connect_ok : bool) :
  let r := connectDB uri readyState close_ok connect_ok in
  let must_close := negb (readyState =? 0)%N in
  (truthy uri = false \/ readyState = 1%N -> db_calls r = [])
  /\ (truthy uri = true -> readyState <> 1%N ->
      db_calls r
      = (if must_close then [connection_close] else [])
        ++ (if must_close && negb close_ok then []
            else [mongoose_connect uri]))
  /\ (db_result r = NewConnection
      <-> In (mongoose_connect uri) (db_calls r) /\ connect_ok = true)
  /\ (db_logged_connected r = true <-> db_result r = NewConnection)
  /\ (db_logged_error r = true <-> db_result r = Rethrown)
  /\ (db_result r = UriRequired <-> truthy uri = false)
  /\ (db_result r = ExistingConnection
      <-> truthy uri = true /\ readyState = 1%N).
Proof.
  intros r must_close. subst r must_close. unfold connectDB.
  destruct (truthy uri) eqn:Hu; simpl negb; cbv iota.
  2:{ simpl. repeat split; intros; try discriminate; try tauto;
        try (destruct H; discriminate); try (destruct H; contradiction). }
  destruct (readyState =? 1)%N eqn:H1.
  { apply N.eqb_eq in H1. simpl.
    repeat split; intros; try discriminate; try tauto; try contradiction;
      try (destruct H; discriminate); try (destruct H; contradiction). }
  apply N.eqb_neq in H1.
  destruct (readyState =? 0)%N eqn:H0; destruct close_ok; destruct connect_ok;
    simpl;
    repeat split; intros; try discriminate; try tauto; try reflexivity;
      try (destruct H; congruence);
      try (destruct H as [[H|[H|[]]] H']; discriminate);
      try (destruct H as [[H|[]] H']; discriminate);
      try (left; reflexivity); try (right; left; reflexivity).
Qed.

(* ------------------------------------------------------------------ *)
(** ** The chat form and the server *)

Lemma handleSubmit_emits (newMessage : jsstring) (payload : jsval)
  (cleared : jsstring) :
  handleSubmit true newMessage = (Some payload, cleared) ->
  payload = JObject [("content"%string, JString newMessage)]
  /\ cleared = []
  /\ trim newMessage <> [].
Proof.
  unfold handleSubmit. simpl negb. cbv iota.
  destruct (trim newMessage) as [|c r] eqn:E; simpl; [discriminate|].
  intros H. injection H as <- <-. repeat split. discriminate.
Qed.

(** X16.  What the chat form submits is never answered with "Message
    content is required": the form does not submit a blank text, and a text
    that is not blank passes the server's first check.  A text of at most
    1000 code units from a session of a valid user starts the write of its
    trimmed content and draws no error at all; the form sends the text
    untrimmed and empties the input. *)
Theorem X16_form_submission_passes_first_check (st : State) (sid : SocketId)
  (socket : Socket) (newMessage cleared : jsstring) (payload : jsval) :
  handleSubmit true newMessage = (Some payload, cleared) ->
  find_socket sid st = Some socket ->
  s_connected socket = true ->
  listening "message:send" socket = true ->
  let st1 := step (ClientEmit sid "message:send" payload) st in
  cleared = []
  /\ payload = JObject [("content"%string, JString newMessage)]
  /\ (exists o, trace st1 = trace st ++ [Handled sid "message:send" payload; o]
                /\ o <> Sent sid (message_error "Message content is required"))
  /\ (forall user,
        s_user socket = Some user ->
        username_valid (u_username user) ->
        strlen newMessage <= 1000 ->
        trace st1
        = trace st
          ++ [ Handled sid "message:send" payload;
               Issued (next_tid st)
                 (AwaitMessageSave sid
                    (mkMessage (next_oid st) (u_id user) (u_username user)
                               (trim newMessage) (now st) (now st)
                               (now st))) ]).
Proof.
  intros Hsub Hf Hc Hl st1.
  destruct (handleSubmit_emits _ _ _ Hsub) as (-> & -> & Ht).
  assert (Hs : newMessage <> []) by (intros ->; apply Ht; reflexivity).
  assert (Hlive : socket_connected sid (log [Handled sid "message:send"
                    (JObject [("content"%string, JString newMessage)])] st)
                  = true)
    by exact (socket_connected_of sid st socket Hf Hc).
  assert (Hstep : st1 = handleMessageSend socket
                    (JObject [("content"%string, JString newMessage)])
                    (log [Handled sid "message:send"
                      (JObject [("content"%string, JString newMessage)])] st)).
  { subst st1. rewrite (step_ClientEmit _ _ _ _ _ Hf Hc Hl). reflexivity. }
  assert (Hhead : handleMessageSend socket
                    (JObject [("content"%string, JString newMessage)])
                    (log [Handled sid "message:send"
                      (JObject [("content"%string, JString newMessage)])] st)
    = if 1000 <? strlen newMessage
      then socket_emit (s_id socket)
             (message_error "Message content cannot exceed 1000 characters")
             (log [Handled sid "message:send"
                (JObject [("content"%string, JString newMessage)])] st)
      else
        match s_user socket with
        | None =>
            socket_emit (s_id socket) (message_error "Failed to send message")
              (log [Handled sid "message:send"
                 (JObject [("content"%string, JString newMessage)])] st)
        | Some user =>
            let (message, st1) :=
              new_Message (u_id user) (u_username user) (trim newMessage)
                (now st)
                (log [Handled sid "message:send"
                   (JObject [("content"%string, JString newMessage)])] st) in
            match Message_presave message st1 with
            | Throw _ =>
                socket_emit (s_id socket)
                            (message_error "Failed to send message") st1
            | Ok doc => await (AwaitMessageSave (s_id socket) doc) st1
            end
        end).
  { unfold handleMessageSend. simpl prop. cbv iota.
    simpl truthy. simpl typeof. simpl String.eqb.
    rewrite (strlen_nonzero _ Hs), (strlen_nonzero _ Ht). reflexivity. }
  rewrite Hstep, Hhead. rewrite (find_socket_id _ _ _ Hf).
  split; [reflexivity|]. split; [reflexivity|]. split.
  - destruct (1000 <? strlen newMessage).
    + rewrite socket_emit_live by exact Hlive.
      eexists. split; [simpl; rewrite <- app_assoc; reflexivity|].
      discriminate.
    + destruct (s_user socket) as [user|].
      * unfold new_Message.
        destruct (Message_presave _ _) as [doc|e].
        -- eexists. split;
             [unfold await; simpl; rewrite <- app_assoc; reflexivity|].
           discriminate.
        -- rewrite socket_emit_live by exact Hlive.
           eexists. split; [simpl; rewrite <- app_assoc; reflexivity|].
           discriminate.
      * rewrite socket_emit_live by exact Hlive.
        eexists. split; [simpl; rewrite <- app_assoc; reflexivity|].
        discriminate.
  - intros user Hu Hname Hlen.
    assert (Hle : (1000 <? strlen newMessage) = false)
      by (apply Z.ltb_ge; exact Hlen).
    rewrite Hle, Hu. unfold new_Message, Message_presave.
    destruct Hname as [Htrim Hbounds].
    rewrite Htrim, trim_idempotent.
    rewrite (Message_validate_ok _ _ _ _ _ (conj Htrim Hbounds) Ht Hlen).
    unfold await. simpl. rewrite <- app_assoc. reflexivity.
Qed.

(* ------------------------------------------------------------------ *)
(** ** Every submission gets one answer *)

Lemma first_check_rejects_non_strings (content : jsval) :
  (forall s, content <> JString s) ->
  (negb (truthy content)
   || negb (String.eqb (typeof content) "string")
   || match content with
      | JString s => strlen (trim s) =? 0
      | _ => false
      end) = true.
Proof.
  intros H. destruct content; simpl; try reflexivity;
    try (rewrite orb_true_r; reflexivity).
  exfalso. exact (H s eq_refl).
Qed.

(** X17.  What the [message:send] listener of a live socket does with any
    payload.  For [undefined] or [null] the destructuring throws before the
    [try]: nothing is answered, the rejection is unhandled and the process
    ends, with every connection and everything pending; whatever comes next
    finds no process.  For every other payload the sender gets exactly one
    of three errors and nothing is started, or exactly one write is started,
    of a valid record, and nothing is sent; the process goes on.  The store
    is not touched in either case. *)
Theorem X17_send_gets_one_answer (st : State) (sid : SocketId)
  (socket : Socket) (data : jsval) :
  find_socket sid st = Some socket ->
  s_connected socket = true ->
  listening "message:send" socket = true ->
  let st1 := step (ClientEmit sid "message:send" data) st in
  (data = JUndefined \/ data = JNull ->
   trace st1 = trace st ++ [Handled sid "message:send" data; Exit]
   /\ recipients st1 = []
   /\ pending st1 = []
   /\ forall ls, run (ClientEmit sid "message:send" data :: ls) st = st1)
  /\ (data <> JUndefined -> data <> JNull ->
      ((exists message,
          trace st1 = trace st ++ [ Handled sid "message:send" data;
                                    Sent sid (message_error message) ]
          /\ pending st1 = pending st
          /\ In message
               [ "Message content is required";
                 "Message content cannot exceed 1000 characters";
                 "Failed to send message" ]%string)
       \/ (exists doc,
             trace st1
             = trace st ++ [ Handled sid "message:send" data;
                             Issued (next_tid st)
                                    (AwaitMessageSave sid doc) ]
             /\ pending st1
                = (next_tid st, AwaitMessageSave sid doc) :: pending st
             /\ message_valid doc))
      /\ forall ls,
           run (ClientEmit sid "message:send" data :: ls) st = run ls st1)
  /\ messages st1 = messages st
  /\ users st1 = users st.
Proof.
  intros Hf Hc Hl st1.
  assert (Hlive : forall os, socket_connected sid (log os st) = true)
    by (intros os; exact (socket_connected_of sid st socket Hf Hc)).
  assert (Hstep : st1 = handleMessageSend socket data
                          (log [Handled sid "message:send" data] st)).
  { subst st1. rewrite (step_ClientEmit _ _ _ _ _ Hf Hc Hl). reflexivity. }
  split; [|split].
  - intros Hd.
    assert (E : st1 = process_exit (log [Handled sid "message:send" data] st))
      by (rewrite Hstep; destruct Hd as [->| ->]; reflexivity).
    assert (Ht : trace st1
                 = trace st ++ [Handled sid "message:send" data; Exit])
      by (rewrite E; simpl; rewrite <- app_assoc; reflexivity).
    split; [exact Ht|].
    split; [rewrite E; apply recipients_process_exit|].
    split; [rewrite E; reflexivity|].
    intros ls. apply run_cons_exit.
    rewrite (exits_of_trace _ _ _ Ht). reflexivity.
  - intros Hu Hn.
    enough (Hcases :
      (exists message,
          trace st1 = trace st ++ [ Handled sid "message:send" data;
                                    Sent sid (message_error message) ]
          /\ pending st1 = pending st
          /\ In message
               [ "Message content is required";
                 "Message content cannot exceed 1000 characters";
                 "Failed to send message" ]%string)
       \/ (exists doc,
             trace st1
             = trace st ++ [ Handled sid "message:send" data;
                             Issued (next_tid st)
                                    (AwaitMessageSave sid doc) ]
             /\ pending st1
                = (next_tid st, AwaitMessageSave sid doc) :: pending st
             /\ message_valid doc)).
    { split; [exact Hcases|]. intros ls. apply run_cons_alive.
      destruct Hcases as [(message & Ht & _)|(doc & Ht & _)];
        (eapply exits_none; [exact Ht | repeat constructor]). }
    rewrite Hstep. unfold handleMessageSend.
    rewrite (find_socket_id _ _ _ Hf).
    destruct (prop data "content") as [content|] eqn:Hp;
      [|destruct data; try discriminate Hp; contradiction].
    assert (Herr : forall message,
      In message [ "Message content is required";
                   "Message content cannot exceed 1000 characters";
                   "Failed to send message" ]%string ->
      exists message0,
        trace (socket_emit sid (message_error message)
                 (log [Handled sid "message:send" data] st))
        = trace st ++ [ Handled sid "message:send" data;
                        Sent sid (message_error message0) ]
        /\ pending (socket_emit sid (message_error message)
                      (log [Handled sid "message:send" data] st))
           = pending st
        /\ In message0
             [ "Message content is required";
               "Message content cannot exceed 1000 characters";
               "Failed to send message" ]%string).
    { intros message Hin. exists message.
      rewrite socket_emit_live by apply Hlive.
      split; [simpl; rewrite <- app_assoc; reflexivity|].
      split; [reflexivity | exact Hin]. }
    destruct (negb (truthy content) || _ || _) eqn:Hcond.
    { left. apply Herr. left. reflexivity. }
    destruct content as [| | | |s| |];
      try (rewrite first_check_rejects_non_strings in Hcond
             by (intros; discriminate); discriminate Hcond).
    destruct (1000 <? strlen s).
    { left. apply Herr. right. left. reflexivity. }
    destruct (s_user socket) as [user|].
    2:{ left. apply Herr. right. right. left. reflexivity. }
    destruct (new_Message (u_id user) (u_username user) (trim s)
                (now (log [Handled sid "message:send" data] st))
                (log [Handled sid "message:send" data] st))
      as [message st2] eqn:Enew.
    destruct (Message_presave message st2) as [doc|e] eqn:Epre.
    + right. exists doc.
      assert (Hvalid : message_valid doc).
      { apply (Message_presave_valid (u_id user) (u_username user) (trim s)
                 (now (log [Handled sid "message:send" data] st))
                 (log [Handled sid "message:send" data] st) st2 doc).
        rewrite Enew. exact Epre. }
      unfold new_Message in Enew. injection Enew as _ <-.
      split; [simpl; rewrite <- app_assoc; reflexivity|].
      split; [reflexivity | exact Hvalid].
    + left. unfold new_Message in Enew. injection Enew as _ <-.
      exists "Failed to send message"%string.
      rewrite socket_emit_live
        by exact (socket_connected_of sid st socket Hf Hc).
      split; [simpl; rewrite <- app_assoc; reflexivity|].
      split; [reflexivity|]. right. right. left. reflexivity.
  - rewrite Hstep.
    destruct (idle_handleMessageSend socket data
                (log [Handled sid "message:send" data] st))
      as (Hm & Hus & _).
    split; [exact Hm | exact Hus].
Qed.

(* ------------------------------------------------------------------ *)
(** ** The replay comes once *)

Lemma raises_refl (who : option SocketId) (st : State) : raises who st st.
Proof. split; [reflexivity|]. intros sid. lia. Qed.

Lemma raises_weaken (who : option SocketId) (st st' : State) :
  raises None st st' -> raises who st st'.
Proof.
  intros [Hn H]. split; [exact Hn|]. intros sid. specialize (H sid).
  destruct who as [s|]; [destruct (s =? sid)%N|]; lia.
Qed.

Lemma raises_then (who : option SocketId) (st1 st2 st3 : State) :
  raises None st1 st2 -> raises who st2 st3 -> raises who st1 st3.
Proof.
  intros [Hn1 H1] [Hn2 H2]. split; [congruence|].
  intros sid. specialize (H1 sid). specialize (H2 sid). lia.
Qed.

(** Nothing pending changes and what is written ends no replay. *)
Lemma raises_log (st st' : State) (os : list Obs) :
  next_sid st' = next_sid st ->
  pending st' = pending st ->
  trace st' = trace st ++ os ->
  (forall sid, filter (is_replay_for sid) os = []) ->
  raises None st st'.
Proof.
  intros Hn Hp Ht Hos. split; [exact Hn|]. intros sid.
  unfold replays_owed, replays_received.
  rewrite Hp, Ht, filter_app, Hos, app_nil_r. lia.
Qed.

Lemma raises_silent (st st' : State) :
  next_sid st' = next_sid st -> pending st' = pending st ->
  trace st' = trace st -> raises None st st'.
Proof.
  intros Hn Hp Ht. apply (raises_log st st' []); try assumption.
  - rewrite app_nil_r. exact Ht.
  - reflexivity.
Qed.

Lemma filter_replay_sent (sid : SocketId) (ev : ServerEvent)
  (l : list SocketId) :
  replay_result ev = false ->
  filter (is_replay_for sid) (map (fun r => Sent r ev) l) = [].
Proof.
  intros Hev. induction l as [|r l IH]; simpl; [reflexivity|].
  rewrite Hev, andb_false_r. exact IH.
Qed.

Lemma raises_socket_emit (sid : SocketId) (ev : ServerEvent) (st : State) :
  replay_result ev = false -> raises None st (socket_emit sid ev st).
Proof.
  intros Hev. unfold socket_emit.
  destruct (socket_connected sid st); [|apply raises_refl].
  apply (raises_log _ _ [Sent sid ev]); try reflexivity.
  intros s. exact (filter_replay_sent s ev [sid] Hev).
Qed.

Lemma raises_socket_emit_replay (sid : SocketId) (ev : ServerEvent)
  (st : State) :
  raises (Some sid) st (socket_emit sid ev st).
Proof.
  unfold socket_emit.
  destruct (socket_connected sid st); [|apply raises_refl].
  split; [reflexivity|]. intros s.
  unfold replays_owed, replays_received. simpl.
  rewrite filter_app, length_app. simpl.
  destruct (sid =? s)%N; simpl; [destruct (replay_result ev); simpl|]; lia.
Qed.

Lemma raises_await_other (p : Pending) (st : State) :
  (forall sid, owes sid p = false) -> raises None st (await p st).
Proof.
  intros Hp. split; [reflexivity|]. intros sid.
  unfold replays_owed, replays_received. simpl.
  rewrite Hp, filter_app, length_app. simpl. lia.
Qed.

Lemma raises_await_owing (s : SocketId) (p : Pending) (st : State) :
  (forall sid, owes sid p = (s =? sid)%N) ->
  raises (Some s) st (await p st).
Proof.
  intros Hp. split; [reflexivity|]. intros sid.
  unfold replays_owed, replays_received. simpl.
  rewrite Hp, filter_app, length_app. simpl.
  destruct (s =? sid)%N; simpl; lia.
Qed.

Lemma raises_process_exit (st : State) : raises None st (process_exit st).
Proof.
  split; [reflexivity|]. intros sid.
  unfold replays_owed, replays_received. simpl.
  rewrite filter_app, length_app. simpl. lia.
Qed.

Lemma raises_next (sid : SocketId) (err : option string) (st : State) :
  raises (Some sid) st (next sid err st).
Proof.
  unfold next. destruct err as [message|].
  - apply raises_weaken.
    apply (raises_log _ _ [Sent sid (connect_error message)]);
      try reflexivity.
    intros s. simpl. rewrite andb_false_r. reflexivity.
  - split; [reflexivity|]. intros s.
    unfold replays_owed, replays_received. simpl.
    rewrite filter_app, length_app. simpl.
    destruct (sid =? s)%N; simpl; lia.
Qed.

Lemma raises_socketAuth_catch (sid : SocketId) (e : exn) (st : State) :
  raises (Some sid) st (socketAuth_catch sid e st).
Proof.
  unfold socketAuth_catch.
  destruct (instanceof_TokenExpiredError e); [apply raises_next|].
  destruct (instanceof_JsonWebTokenError e); apply raises_next.
Qed.

Lemma raises_handleMessageSend (socket : Socket) (data : jsval) (st : State) :
  raises None st (handleMessageSend socket data st).
Proof.
  unfold handleMessageSend.
  destruct (prop data "content") as [content|]; [|apply raises_process_exit].
  destruct (negb (truthy content) || _ || _);
    [apply raises_socket_emit; reflexivity|].
  destruct content; try apply raises_refl.
  destruct (1000 <? strlen s); [apply raises_socket_emit; reflexivity|].
  destruct (s_user socket) as [user|];
    [|apply raises_socket_emit; reflexivity].
  unfold new_Message.
  destruct (Message_presave _ _).
  - eapply raises_then; [|apply raises_await_other; reflexivity].
    apply raises_silent; reflexivity.
  - eapply raises_then; [|apply raises_socket_emit; reflexivity].
    apply raises_silent; reflexivity.
Qed.

Lemma raises_typing (sid : SocketId) (ev : ServerEvent) (st : State) :
  replay_result ev = false -> raises None st (socket_broadcast_emit sid ev st).
Proof.
  intros Hev. eapply raises_log; try reflexivity.
  intros s. apply filter_replay_sent. exact Hev.
Qed.

Lemma raises_listener (ev : string) (socket : Socket) (data : jsval)
  (st : State) :
  raises None st (listener ev socket data st).
Proof.
  unfold listener, handleTypingIndicator.
  destruct (String.eqb ev "message:send"); [apply raises_handleMessageSend|].
  destruct (String.eqb ev "user:typing:start");
    [destruct (s_user socket);
       [apply raises_typing; reflexivity | apply raises_process_exit]|].
  destruct (String.eqb ev "user:typing:stop");
    [destruct (s_user socket);
       [apply raises_typing; reflexivity | apply raises_process_exit]|].
  apply raises_refl.
Qed.

Lemma owed_take (sid : SocketId) (tid : TaskId) (p : Pending)
  (ps rest : list (TaskId * Pending)) :
  take_pending tid ps = Some (p, rest) ->
  List.length (filter (fun x => owes sid (snd x)) ps)
  = (List.length (filter (fun x => owes sid (snd x)) rest)
     + if owes sid p then 1 else 0)%nat.
Proof.
  revert rest. induction ps as [|[t q] r IH]; simpl; intros rest H.
  - discriminate H.
  - destruct (t =? tid)%N.
    + injection H as <- <-. destruct (owes sid q); simpl; lia.
    + destruct (take_pending tid r) as [[q' r']|]; [|discriminate H].
      injection H as <- <-. specialize (IH r' eq_refl). simpl.
      destruct (owes sid q); simpl; lia.
Qed.

(** What completing a task may add, counted against the task taken. *)
Lemma raises_complete (p : Pending) (ok : bool) (st : State) :
  (forall s, (forall sid, owes sid p = (s =? sid)%N) ->
             raises (Some s) st (complete p ok st))
  /\ ((forall sid, owes sid p = false) -> raises None st (complete p ok st)).
Proof.
  destruct p as [s0 id|s0 uid stamp|s0|s0 doc|s0 uid lastSeen stamp];
    unfold complete; (split; [intros s Hs | intros Hs]);
    try (exfalso; specialize (Hs s0); simpl in Hs; rewrite N.eqb_refl in Hs;
         discriminate Hs);
    try (exfalso; specialize (Hs s); simpl in Hs; rewrite N.eqb_refl in Hs;
         discriminate Hs).
  - assert (s = s0).
    { specialize (Hs s0). simpl in Hs. rewrite N.eqb_refl in Hs.
      symmetry in Hs. apply N.eqb_eq in Hs. exact Hs. }
    subst s. unfold socketAuth_found.
    destruct (User_findById id ok st) as [[u|]|e].
    + eapply raises_then; [|apply raises_await_owing; reflexivity].
      apply raises_silent; reflexivity.
    + apply raises_next.
    + apply raises_socketAuth_catch.
  - assert (s = s0).
    { specialize (Hs s0). simpl in Hs. rewrite N.eqb_refl in Hs.
      symmetry in Hs. apply N.eqb_eq in Hs. exact Hs. }
    subst s. unfold User_findByIdAndUpdate, socketAuth_updated.
    destruct (negb ok); [apply raises_socketAuth_catch|].
    eapply raises_then; [|apply raises_next].
    apply raises_silent; reflexivity.
  - assert (s = s0).
    { specialize (Hs s0). simpl in Hs. rewrite N.eqb_refl in Hs.
      symmetry in Hs. apply N.eqb_eq in Hs. exact Hs. }
    subst s. unfold handleLoadMessages_resume.
    destruct (Message_find_sort_limit_select ok st);
      apply raises_socket_emit_replay.
  - unfold Message_insert, handleMessageSend_resume.
    destruct (negb ok); [apply raises_socket_emit; reflexivity|].
    eapply raises_log; try reflexivity.
    intros sid. apply filter_replay_sent. reflexivity.
  - unfold User_findByIdAndUpdate, onDisconnect_resume.
    destruct (negb ok);
      [apply raises_process_exit | apply raises_silent; reflexivity].
Qed.

Lemma owes_one_socket (p : Pending) :
  (exists s, forall sid, owes sid p = (s =? sid)%N)
  \/ (forall sid, owes sid p = false).
Proof.
  destruct p as [s id|s uid stamp|s| |];
    try (left; exists s; reflexivity); right; reflexivity.
Qed.

Lemma replay_budget_raises_none (st st' : State) :
  replay_budget st -> raises None st st' -> replay_budget st'.
Proof.
  intros Hb [Hn H] sid. destruct (Hb sid) as [H1 H0]. specialize (H sid).
  rewrite Hn. split; [lia|]. intros Hge. specialize (H0 Hge). lia.
Qed.

Lemma replay_budget_step (l : Label) (st : State) :
  replay_budget st -> replay_budget (step l st).
Proof.
  intros Hb.
  destruct l as [token|sid ev data|sid|tid ok|t]; unfold step.
  - assert (Hr : raises (Some (next_sid st)) (new_socket st)
                   (socketAuth (next_sid st) token (new_socket st))).
    { unfold socketAuth.
      destruct (negb (truthy token)); [apply raises_next|].
      destruct (jwt_verify token (secret (new_socket st))) as [decoded|e];
        [|apply raises_socketAuth_catch].
      destruct (prop decoded "id");
        [apply raises_await_owing; reflexivity
        |apply raises_socketAuth_catch]. }
    destruct Hr as [Hn Hr]. intros sid. specialize (Hr sid).
    destruct (Hb sid) as [H1 H0].
    change (replays_owed sid (new_socket st)) with (replays_owed sid st) in Hr.
    change (replays_received sid (new_socket st))
      with (replays_received sid st) in Hr.
    rewrite Hn. simpl next_sid.
    destruct (next_sid st =? sid)%N eqn:E.
    + apply N.eqb_eq in E. assert (Hge : (next_sid st <= sid)%N) by lia.
      specialize (H0 Hge). split; [lia|]. intros Hsucc. lia.
    + apply N.eqb_neq in E. split; [lia|]. intros Hsucc.
      assert (Hge : (next_sid st <= sid)%N) by lia.
      specialize (H0 Hge). lia.
  - destruct (find_socket sid st) as [socket|]; [|exact Hb].
    destruct (s_connected socket && listening ev socket); [|exact Hb].
    apply (replay_budget_raises_none st); [exact Hb|].
    eapply raises_then; [|apply raises_listener].
    apply (raises_log _ _ [Handled sid ev data]); reflexivity.
  - destruct (find_socket sid st) as [socket|]; [|exact Hb].
    destruct (s_connected socket); [|exact Hb].
    apply (replay_budget_raises_none st); [exact Hb|].
    assert (Hq : raises None st (set_connected sid false st))
      by (apply raises_silent; reflexivity).
    destruct (listening "disconnect" socket); [|exact Hq].
    eapply raises_then; [exact Hq|].
    unfold onDisconnect. destruct (s_user socket);
      [apply raises_await_other; reflexivity | apply raises_refl].
  - destruct (take_pending tid (pending st)) as [[p rest]|] eqn:Htake;
      [|exact Hb].
    destruct (raises_complete p ok (with_pending rest st)) as [Hsome Hnone].
    destruct (owes_one_socket p) as [[s Hs]|Hs].
    + destruct (Hsome s Hs) as [Hn Hr]. intros sid. specialize (Hr sid).
      destruct (Hb sid) as [H1 H0].
      pose proof (owed_take sid tid p _ _ Htake) as Hcount.
      rewrite Hs in Hcount.
      change (replays_owed sid (with_pending rest st))
        with (List.length (filter (fun x => owes sid (snd x)) rest)) in Hr.
      change (replays_received sid (with_pending rest st))
        with (replays_received sid st) in Hr.
      unfold replays_owed at 1 in H1. unfold replays_owed at 1 in H0.
      rewrite Hn. simpl next_sid.
      destruct (s =? sid)%N; split; try lia; intros Hge;
        specialize (H0 Hge); lia.
    + destruct (Hnone Hs) as [Hn Hr]. intros sid. specialize (Hr sid).
      destruct (Hb sid) as [H1 H0].
      pose proof (owed_take sid tid p _ _ Htake) as Hcount.
      rewrite Hs in Hcount.
      change (replays_owed sid (with_pending rest st))
        with (List.length (filter (fun x => owes sid (snd x)) rest)) in Hr.
      change (replays_received sid (with_pending rest st))
        with (replays_received sid st) in Hr.
      unfold replays_owed at 1 in H1. unfold replays_owed at 1 in H0.
      rewrite Hn. simpl next_sid.
      split; try lia; intros Hge; specialize (H0 Hge); lia.
  - apply (replay_budget_raises_none st); [exact Hb|].
    apply raises_silent; reflexivity.
Qed.

Lemma replay_budget_run (ls : list Label) (st : State) :
  replay_budget st -> replay_budget (run ls st).
Proof.
  apply run_invariant. exact replay_budget_step.
Qed.

(** X18.  The history replay comes once.  From a server start (nothing
    pending, nothing observed), whatever happens, a socket is sent at most
    one end of a replay, be it the [message:history] batch or the error
    "Failed to load message history". *)
Theorem X18_replay_at_most_once (st0 : State) (ls : list Label)
  (sid : SocketId) :
  pending st0 = [] ->
  trace st0 = [] ->
  (replays_received sid (run ls st0) <= 1)%nat.
Proof.
  intros Hp Ht.
  assert (Hb : replay_budget st0).
  { intros s. unfold replays_owed, replays_received. rewrite Hp, Ht.
    simpl. split; [lia | reflexivity]. }
  pose proof (proj1 (replay_budget_run ls st0 Hb sid)). lia.
Qed.

(* ------------------------------------------------------------------ *)
(** ** Presence *)

(** *** One socket among the others *)






(** *** What keeps a socket as it is *)















(** *** What ends the process *)











(** *** Between the handshake and the disconnect *)



(** *** From the disconnect to its update *)






(** *** The handshakes under way *)

Lemma gentle_refl (st : State) : gentle st st.
Proof.
  split; [intros sid H; exact H|]. split; [intros sid uid H; exact H|].
  split; [intros uid H; exact H|]. intros x H. left. exact H.
Qed.






















(** *** The two writes of a session *)



End Server.

(* ------------------------------------------------------------------ *)
(** ** The statements on the sample data *)

(** C1 on [sample_state]: alice submits "  hi "; the save of "hi" succeeds
    at time 1000 and both sockets get the message. *)
Lemma C1_witness :
  let st1 :=
    step sample_verify sample_cast
         (ClientEmit 0 "message:send" hi_payload) sample_state in
  let st3 := step sample_verify sample_cast (DbDone 0 true) st1 in
  pending st1 = [(0%N, AwaitMessageSave 0 hi_message)]
  /\ messages st3 = [hi_message]
  /\ trace st3 = trace st1 ++ [ Sent 0 (message_new (view hi_message));
                                Sent 1 (message_new (view hi_message)) ].
Proof.
  assert (Hname : username_valid (u_username alice)).
  { split; [reflexivity | vm_compute; split; discriminate]. }
  assert (Hbody : trim (js "  hi ") <> []).
  { vm_compute. discriminate. }
  assert (Hlen : strlen (js "  hi ") <= 1000).
  { vm_compute. discriminate. }
  destruct (C1_send_persists_then_broadcasts sample_verify sample_cast
              sample_state 0
              (mkSocket 0 (Some alice) true session_listeners)
              alice hi_payload (js "  hi ")
              eq_refl eq_refl eq_refl eq_refl Hname eq_refl Hbody Hlen)
    as (Hp & _ & _ & Hdone).
  destruct (Hdone (step sample_verify sample_cast
                        (ClientEmit 0 "message:send" hi_payload)
                        sample_state)
                  0%N [] eq_refl) as (Hm & Ht & _).
  split; [exact Hp|]. split; [exact Hm | exact Ht].
Defined.

(** C1 as the claim has it fails on [padded_payload]: the body is not empty
    after trimming and 1000 long after trimming, the sender is a session of
    a valid user, and no write is started: nothing is stored, nothing can be
    broadcast, the sender is told that the content is too long. *)
Lemma C1_counterexample :
  let st' :=
    step sample_verify sample_cast
         (ClientEmit 0 "message:send" padded_payload) sample_state in
  trim padded_body <> []
  /\ strlen (trim padded_body) <= 1000
  /\ find_socket 0 sample_state
     = Some (mkSocket 0 (Some alice) true session_listeners)
  /\ username_valid (u_username alice)
  /\ pending st' = []
  /\ messages st' = []
  /\ trace st'
     = [ Handled 0 "message:send" padded_payload;
         Sent 0 (message_error
                   "Message content cannot exceed 1000 characters") ].
Proof.
  split; [vm_compute; discriminate|].
  split; [vm_compute; discriminate|].
  split; [reflexivity|].
  split; [split; [reflexivity | vm_compute; split; discriminate]|].
  split; [vm_compute; reflexivity|].
  split; vm_compute; reflexivity.
Qed.

(** C3 on [sample_state]: a body of 1001 letters is refused. *)
Lemma C3_witness :
  let data := JObject [("content"%string, JString (repeat 97%N 1001))] in
  trace (step sample_verify sample_cast
              (ClientEmit 0 "message:send" data) sample_state)
  = [ Handled 0 "message:send" data;
      Sent 0 (message_error
                "Message content cannot exceed 1000 characters") ].
Proof.
  assert (Hbody : trim (repeat 97%N 1001) <> []).
  { vm_compute. discriminate. }
  assert (Hlen : 1000 < strlen (repeat 97%N 1001)).
  { vm_compute. reflexivity. }
  exact (proj1 (C3_raw_length_limit sample_verify sample_cast sample_state 0
                  (mkSocket 0 (Some alice) true session_listeners)
                  (JObject [("content"%string, JString (repeat 97%N 1001))])
                  (repeat 97%N 1001)
                  eq_refl eq_refl eq_refl eq_refl Hbody Hlen)).
Defined.

(** The body of [padded_payload] is 1001 long and 1000 long after trimming;
    the server does not accept it: no save is started, the sender is told
    that the content exceeds 1000 characters. *)
Lemma C3_counterexample :
  let st' :=
    step sample_verify sample_cast
         (ClientEmit 0 "message:send" padded_payload) sample_state in
  1000 < strlen padded_body
  /\ strlen (trim padded_body) <= 1000
  /\ trim padded_body <> []
  /\ ~ send_accepted 0 sample_state st'
  /\ trace st'
     = [ Handled 0 "message:send" padded_payload;
         Sent 0 (message_error
                   "Message content cannot exceed 1000 characters") ]
  /\ messages st' = [].
Proof.
  split; [vm_compute; reflexivity|].
  split; [vm_compute; discriminate|].
  split; [vm_compute; discriminate|].
  split.
  - assert (Hp : pending (step sample_verify sample_cast
                            (ClientEmit 0 "message:send" padded_payload)
                            sample_state) = []).
    { vm_compute. reflexivity. }
    intros [message H]. rewrite Hp in H. discriminate H.
  - split; vm_compute; reflexivity.
Qed.

(** [sample_sending] is where alice's submission takes [sample_state]. *)
Lemma sample_sending_reached :
  step sample_verify sample_cast (ClientEmit 0 "message:send" hi_payload)
       sample_state
  = sample_sending.
Proof. vm_compute. reflexivity. Qed.

(** C4 on [sample_sending]: the store refuses the write. *)
Lemma C4_witness :
  let st' := step sample_verify sample_cast (DbDone 0 false) sample_sending in
  trace st' = trace sample_sending
              ++ [Sent 0 (message_error "Failed to send message")]
  /\ messages st' = []
  /\ users st' = [alice; bob].
Proof.
  exact (C4_failed_save_reports_to_sender sample_verify sample_cast
           sample_sending 0 0 hi_message [] eq_refl eq_refl).
Defined.

(** C5 on [fresh_state]: the expired token [[2]]. *)
Lemma C5_witness :
  refused 0 "Token expired" fresh_state
          (step sample_verify sample_cast (Connect (JString [2%N]))
                fresh_state).
Proof.
  exact (C5_refusal_reasons sample_verify sample_cast fresh_state
           (Connect (JString [2%N])) 0 "Token expired"
           (VerifyThrows sample_verify sample_cast fresh_state
              (JString [2%N]) TokenExpiredError eq_refl eq_refl)).
Defined.



(** The run [early_send]: the listener of socket 0 is called with a
    [message:send], and answers it, while the replay of socket 0 is still
    waiting for the store. *)
Lemma C7_counterexample :
  trace (run sample_verify sample_cast early_send fresh_state)
  = [ Issued 0 (AwaitUserFindById 0 (JNumber 7));
      Issued 1 (AwaitStatusOnline 0 7 1000);
      Issued 2 (AwaitMessageFind 0);
      Handled 0 "message:send" (JObject [("content"%string, JString [])]);
      Sent 0 (message_error "Message content is required");
      Sent 0 (message_history []) ]
  /\ ~ completed_before_sends
         (trace (run sample_verify sample_cast early_send fresh_state)).
Proof.
  assert (Hn :
    nth_error (trace (run sample_verify sample_cast early_send fresh_state))
              3
    = Some (Handled 0 "message:send"
                    (JObject [("content"%string, JString [])]))).
  { vm_compute. reflexivity. }
  split; [vm_compute; reflexivity|].
  intros H.
  assert (Hpre :
    firstn 3 (trace (run sample_verify sample_cast early_send fresh_state))
    = [ Issued 0 (AwaitUserFindById 0 (JNumber 7));
        Issued 1 (AwaitStatusOnline 0 7 1000);
        Issued 2 (AwaitMessageFind 0) ]).
  { vm_compute. reflexivity. }
  destruct (H 3%nat 0%N _ Hn) as [ev [_ Hin]].
  rewrite Hpre in Hin.
  destruct Hin as [Hin|[Hin|[Hin|[]]]]; discriminate Hin.
Qed.

(** C7 on the run [early_send]. *)
Lemma C7_witness :
  issued_before_sends
    (trace (run sample_verify sample_cast early_send fresh_state)).
Proof.
  exact (C7_replay_issued_before_sends sample_verify sample_cast fresh_state
           early_send eq_refl eq_refl).
Defined.




(** C10 on [fresh_state], where [JWT_SECRET] is unset: the token [[1]]. *)
Lemma C10_witness :
  let st' :=
    run sample_verify sample_cast (handshake (JString [1%N]) fresh_state)
        fresh_state in
  secret fresh_state = "your-secret-key"%string
  /\ find_socket 0 st'
     = Some (mkSocket 0 (Some alice) true session_listeners)
  /\ In 0%N (recipients st').
Proof.
  destruct (C10_fallback_secret sample_verify sample_cast fresh_state
              (JString [1%N]) (JObject [("id"%string, JNumber 7)])
              (JNumber 7) 7 alice
              eq_refl eq_refl eq_refl eq_refl eq_refl eq_refl eq_refl)
    as (Hs & Hf & Hr & _).
  split; [exact Hs|]. split; [exact Hf | exact Hr].
Defined.

(* ------------------------------------------------------------------ *)
(** ** Further statements on the sample data *)

(** X1 on [state51]: of 51 stored messages the replay carries 50. *)
Lemma X1_witness :
  exists batch left_out,
    trace (step sample_verify sample_cast (DbDone 0 true) state51)
    = trace state51 ++ [Sent 0 (message_history (map view batch))]
    /\ List.length batch = 50%nat
    /\ Permutation (batch ++ left_out) store51.
Proof.
  destruct (X1_history_replay_batch sample_verify sample_cast state51 0 0 []
              eq_refl eq_refl)
    as (batch & left_out & Ht & Hl & _ & Hp & _).
  exists batch, left_out. split; [exact Ht|]. split; [exact Hl | exact Hp].
Defined.

(** X2 on [state51]: the history query fails. *)
Lemma X2_witness :
  let st' := step sample_verify sample_cast (DbDone 0 false) state51 in
  trace st' = trace state51
              ++ [Sent 0 (message_error "Failed to load message history")]
  /\ messages st' = messages state51
  /\ users st' = users state51
  /\ pending st' = [].
Proof.
  exact (X2_history_replay_failure sample_verify sample_cast state51 0 0 []
           eq_refl eq_refl).
Defined.

(** X5 on [sample_state]: what bob is sent of alice's "hi" is stored. *)
Lemma X5_witness :
  let st' :=
    run sample_verify sample_cast
        [ClientEmit 0 "message:send" hi_payload; DbDone 0 true]
        sample_state in
  exists m, In m (messages st') /\ view m = view hi_message.
Proof.
  cbv zeta.
  assert (H0 : broadcasts_stored sample_state) by (intros r v []).
  assert (Ht : trace (run sample_verify sample_cast
                        [ClientEmit 0 "message:send" hi_payload;
                         DbDone 0 true] sample_state)
               = [ Handled 0 "message:send" hi_payload;
                   Issued 0 (AwaitMessageSave 0 hi_message);
                   Sent 0 (message_new (view hi_message));
                   Sent 1 (message_new (view hi_message)) ])
    by (vm_compute; reflexivity).
  apply (X5_broadcasts_are_stored sample_verify sample_cast _ sample_state
           H0 1%N).
  rewrite Ht. right. right. right. left. reflexivity.
Defined.

(** X6 on [sample_state]: "hi" is stored trimmed. *)
Lemma X6_witness :
  Forall message_valid
         (messages (run sample_verify sample_cast
                        [ClientEmit 0 "message:send" hi_payload;
                         DbDone 0 true] sample_state)).
Proof.
  apply (X6_stored_messages_valid sample_verify sample_cast).
  split; [constructor|]. intros tid sid doc [].
Defined.

(** X7 on [fresh_state]: the socket alice's handshake leaves. *)
Lemma X7_witness :
  session_ready (mkSocket 0 (Some alice) true session_listeners).
Proof.
  apply (X7_connected_sockets_are_ready sample_verify sample_cast
           fresh_state (handshake (JString [1%N]) fresh_state)).
  - reflexivity.
  - reflexivity.
  - assert (Hs : sockets (run sample_verify sample_cast
                            (handshake (JString [1%N]) fresh_state)
                            fresh_state)
                 = [mkSocket 0 (Some alice) true session_listeners])
      by (vm_compute; reflexivity).
    rewrite Hs. left. reflexivity.
  - reflexivity.
Defined.

(** X8 on [two_tabs]: alice closes one tab; the other stays connected and
    she is stored as offline. *)
Lemma X8_witness :
  let st' :=
    run sample_verify sample_cast [Disconnect 0; DbDone 0 true] two_tabs in
  (exists u1, get_user 7 (users st') = Some u1
              /\ u_status u1 = offline /\ u_lastSeen u1 = 1000)
  /\ socket_connected 1 st' = true
  /\ In 1%N (recipients st').
Proof.
  assert (Hne : 1%N <> 0%N) by discriminate.
  exact (X8_disconnect_ignores_other_sessions sample_verify sample_cast
           two_tabs 0 1
           (mkSocket 0 (Some alice_online) true session_listeners)
           (mkSocket 1 (Some alice_online) true session_listeners)
           alice_online alice_online alice_online
           eq_refl eq_refl eq_refl eq_refl Hne eq_refl eq_refl eq_refl
           eq_refl eq_refl).
Defined.

(** X9 on [sample_state]: alice leaves, the update fails, and the client
    that connects next finds no process. *)
Lemma X9_witness :
  let st' :=
    run sample_verify sample_cast
        [Disconnect 0; DbDone 0 false; Connect (JString [1%N])]
        sample_state in
  users st' = [alice; bob]
  /\ messages st' = []
  /\ trace st' = [Issued 0 (AwaitStatusOffline 0 7 1000 1000); Exit]
  /\ recipients st' = []
  /\ pending st' = [].
Proof.
  exact (X9_failed_offline_update_ends_process sample_verify sample_cast
           sample_state 0
           (mkSocket 0 (Some alice) true session_listeners) alice
           [Connect (JString [1%N])]
           eq_refl eq_refl eq_refl eq_refl).
Defined.

(** X10 on [sample_sending]: alice leaves before her write completes. *)
Lemma X10_witness :
  let st := step sample_verify sample_cast (Disconnect 0) sample_sending in
  messages (step sample_verify sample_cast (DbDone 0 true) st)
  = [hi_message]
  /\ trace (step sample_verify sample_cast (DbDone 0 true) st)
     = trace st ++ [Sent 1 (message_new (view hi_message))]
  /\ trace (step sample_verify sample_cast (DbDone 0 false) st) = trace st.
Proof.
  intros st.
  assert (Htake : take_pending 0 (pending st)
                  = Some (AwaitMessageSave 0 hi_message,
                          [(1%N, AwaitStatusOffline 0 7 1000 1000)]))
    by (vm_compute; reflexivity).
  assert (Hgone : ~ In 0%N (recipients st))
    by (vm_compute; intros [H|[]]; discriminate H).
  destruct (X10_write_completes_after_sender_left sample_verify sample_cast
              st 0 0 hi_message _ Htake Hgone)
    as ((Hm & Ht & _) & (_ & Hf)).
  split; [exact Hm|]. split; [exact Ht | exact Hf].
Defined.

(** X11: the scheme is [Bearers] and the token is followed by more. *)
Lemma X11_witness :
  protect sample_verify
          (Some (js "Bearers" ++ 32%N :: [1%N] ++ 32%N :: js "junk"))
          fresh_state
  = ProtectAwait (JNumber 7).
Proof.
  apply (X11_protect_takes_second_word sample_verify (js "Bearers") [1%N]
           (32%N :: js "junk") fresh_state).
  - reflexivity.
  - repeat constructor; discriminate.
  - repeat constructor; discriminate.
  - discriminate.
  - right. eexists. reflexivity.
Defined.

(** X12: two spaces after [Bearer], then a good token. *)
Lemma X12_witness :
  protect sample_verify (Some (js "Bearer" ++ 32%N :: 32%N :: [1%N]))
          fresh_state
  = ProtectDone (Answered 401 "Not authorized, no token").
Proof.
  apply X12_protect_no_token.
  apply (NothingAfterSpace (js "Bearer") (32%N :: [1%N])).
  - repeat constructor; discriminate.
  - right. eexists. reflexivity.
Defined.

(** X13 on [fresh_state]: token [[3]] verifies for subject 8, who is not
    stored. *)
Lemma X13_witness :
  protect_request sample_verify sample_cast (Some (js "Bearer " ++ [3%N]))
                  true fresh_state fresh_state
  = NextCalled None
  /\ trace (run sample_verify sample_cast
                [Connect (JString [3%N]); DbDone 0 true] fresh_state)
     = [ Issued 0 (AwaitUserFindById 0 (JNumber 8));
         Sent 0 (connect_error "User not found") ].
Proof.
  assert (Hne : [3%N] <> @nil N) by discriminate.
  assert (Ht : Forall (fun c => c <> 32%N) [3%N])
    by (repeat constructor; discriminate).
  exact (X13_unknown_subject_passes_protect sample_verify sample_cast
           [3%N] (JObject [("id"%string, JNumber 8)]) (JNumber 8)
           fresh_state Hne Ht eq_refl eq_refl eq_refl).
Defined.

(** X16 on [sample_state]: alice types "  hi " into the form. *)
Lemma X16_witness :
  handleSubmit true (js "  hi ") = (Some hi_payload, [])
  /\ trace (step sample_verify sample_cast
                 (ClientEmit 0 "message:send" hi_payload) sample_state)
     = [ Handled 0 "message:send" hi_payload;
         Issued 0 (AwaitMessageSave 0 hi_message) ].
Proof.
  assert (Hsub : handleSubmit true (js "  hi ") = (Some hi_payload, []))
    by (vm_compute; reflexivity).
  assert (Hname : username_valid (u_username alice)).
  { split; [reflexivity | vm_compute; split; discriminate]. }
  assert (Hlen : strlen (js "  hi ") <= 1000).
  { vm_compute. discriminate. }
  destruct (X16_form_submission_passes_first_check sample_verify sample_cast
              sample_state 0
              (mkSocket 0 (Some alice) true session_listeners)
              (js "  hi ") [] hi_payload Hsub eq_refl eq_refl eq_refl)
    as (_ & _ & _ & H).
  split; [exact Hsub|]. exact (H alice eq_refl Hname Hlen).
Defined.

(** X17 on [sample_state]: alice's client emits [message:send] with
    [null]. *)
Lemma X17_witness :
  let st1 :=
    step sample_verify sample_cast (ClientEmit 0 "message:send" JNull)
         sample_state in
  trace st1 = [Handled 0 "message:send" JNull; Exit]
  /\ recipients st1 = []
  /\ pending st1 = []
  /\ run sample_verify sample_cast
         [ClientEmit 0 "message:send" JNull; Tick 2000] sample_state
     = st1.
Proof.
  destruct (proj1 (X17_send_gets_one_answer sample_verify sample_cast
                     sample_state 0
                     (mkSocket 0 (Some alice) true session_listeners) JNull
                     eq_refl eq_refl eq_refl)
                  (or_intror eq_refl))
    as (Ht & Hr & Hp & Hrun).
  split; [exact Ht|]. split; [exact Hr|]. split; [exact Hp|].
  exact (Hrun [Tick 2000]).
Defined.

(** X18 on [fresh_state]: alice connects and chats. *)
Lemma X18_witness :
  (replays_received 0
     (run sample_verify sample_cast
          (handshake (JString [1%N]) fresh_state ++ small_talk) fresh_state)
   <= 1)%nat.
Proof.
  exact (X18_replay_at_most_once sample_verify sample_cast fresh_state _ 0
           eq_refl eq_refl).
Defined.
